(** * TESSutils, [get_images.py]: the retry-governed cutout download pipeline

    A shallow embedding of [download_tesscuts_single] and [download_tesscuts].
    What the program does not control is an [Env] of oracles: the archive
    (lightkurve's [search_tesscut] and [download_all], and what the latter
    leaves in the cache of the library), the disk ([to_fits], [mkdir]) and
    the Unicode tables of the interpreter.  The archive and [to_fits] are
    indexed by the number of the call, so that any sequence of answers a
    run can meet is some [Env].  Everything the program does to the
    outside is recorded in a [World]: the file system, the cache of the
    library, the lines printed, the calls made, the seconds slept.

    [download_tesscuts] is taken at [nThreads=1], its default: joblib then
    runs the jobs one after the other, in the calling process. *)

From Stdlib Require Import ZArith Ascii Lia.
From stdpp Require Import base gmap strings list sorting pretty.

Local Open Scope Z_scope.

(** ** Python values, for the [isinstance] checks *)

#[warnings="-register-all"]
Inductive PyVal : Type :=
| PyNone
| PyBool (b : bool)
| PyInt (z : Z)
| PyFloat (mantissa exponent : Z)
| PyStr (s : string)
| PyPath (p : string)
| PyList (l : list PyVal).

(** [isinstance(v, str)] *)
Definition isinstance_str (v : PyVal) : bool :=
  match v with PyStr _ => true | _ => false end.

(** [isinstance(v, Path)] *)
Definition isinstance_Path (v : PyVal) : bool :=
  match v with PyPath _ => true | _ => false end.

(** [isinstance(v, int)]: [bool] is a subclass of [int]. *)
Definition isinstance_int (v : PyVal) : bool :=
  match v with PyInt _ | PyBool _ => true | _ => false end.

(** The integer an [int] instance stands for. *)
Definition int_value (v : PyVal) : Z :=
  match v with PyInt z => z | PyBool b => Z.b2z b | _ => 0 end.

(** The double quote character inside a message. *)
Definition dquote : string := String "034"%char EmptyString.

(** ** Exceptions

    Every exception modelled is an instance of [Exception]; [exc_bases]
    lists the proper ancestors of its class below [Exception]. *)

Record Exc : Type := mkExc {
  exc_class : string;
  exc_bases : list string;
  exc_msg : string
}.

Global Instance Exc_eq_dec : EqDecision Exc.
Proof. solve_decision. Defined.

(** [isinstance(e, TypeError)], what [except TypeError] tests. *)
Definition isinstance_TypeError (e : Exc) : bool :=
  bool_decide (exc_class e = "TypeError" ∨ "TypeError" ∈ exc_bases e).

Definition TypeError (msg : string) : Exc := mkExc "TypeError" [] msg.
Definition ValueError (msg : string) : Exc := mkExc "ValueError" [] msg.
Definition AttributeError (msg : string) : Exc :=
  mkExc "AttributeError" [] msg.

(** The exceptions the source raises itself, lines 45, 48, 51, 55, 199
    and 210. *)
Definition TIC_not_str : Exc :=
  TypeError ("TIC must be a string instance. Ex: TIC=" +:+ dquote
             +:+ "349092922" +:+ dquote).

Definition outputdir_not_Path : Exc :=
  TypeError "outputdir must be a Path instance. Ex: outputdir=pathlib.Path.cwd()".

Definition imsize_not_int : Exc :=
  TypeError "imsize must be an int instance. Ex: imsize=20".

Definition outputdir_not_dir : Exc :=
  ValueError "The outputdir exist but is not a directory. It must be a directory".

Definition TICs_is_int : Exc :=
  TypeError
    ("TICs must be a string instance (ex: TIC=" +:+ dquote +:+ "349092922"
     +:+ dquote +:+ ") or an iterable of strings (ex: TICs=[" +:+ dquote
     +:+ "349092922" +:+ dquote +:+ "," +:+ dquote +:+ "55852823"
     +:+ dquote +:+ "])").

Definition TICs_not_iterable : Exc :=
  TypeError
    ("TICs has to be an iterable of strings. Ex: TICs=[" +:+ dquote
     +:+ "349092922" +:+ dquote +:+ "," +:+ dquote +:+ "55852823"
     +:+ dquote +:+ "]").

(** ** The archive's search table and the fetched payloads *)

Record Row : Type := mkRow {
  targetid : string;
  observation : string
}.

Global Instance Row_eq_dec : EqDecision Row.
Proof. solve_decision. Defined.

(** A target pixel file: its sector, its header cards, and its pixel data
    (opaque, named by a number). *)
Record Tpf : Type := mkTpf {
  sector : Z;
  header : gmap string string;
  pixels : nat
}.

Global Instance Tpf_eq_dec : EqDecision Tpf.
Proof. solve_decision. Defined.

(** [tpf.header.set(key, value=v)], for a value the header takes.  (A FITS
    header takes printable ASCII only; the value set at line 134 is the
    target, a run of decimal digits by then.) *)
Definition header_set (key v : string) (tpf : Tpf) : Tpf :=
  mkTpf (sector tpf) (<[key := v]> (header tpf)) (pixels tpf).

(** ** The file system

    Paths are kept in their [as_posix()] form. *)

Inductive Node : Type :=
| Dir
| Fits (tpf : Tpf)
| OtherFile.

Global Instance Node_eq_dec : EqDecision Node.
Proof. solve_decision. Defined.

(** [outputdir / Path(name)] *)
Definition joinpath (dir name : string) : string := dir +:+ "/" +:+ name.

(** ** What the program prints

    One constructor per [print] of the source, carrying the values the
    f-string interpolates. *)

Inductive Msg : Type :=
(** [Skipped TIC = {TIC}: Maximum number of MAST query retries ({max_tries_MASTquery}) exceeded] *)
| MsgQuerySkipped (TIC : string) (max_tries_MASTquery : Z)
(** [MAST query attempt {tries_query}, TIC = {TIC}. Excepion {ename}: {e}] *)
| MsgQueryAttempt (tries_query : Z) (TIC : string) (e : Exc)
(** [No images found for TIC={TIC}] *)
| MsgNoImages (TIC : string)
(** [The MAST query returned multiple ids: {ids}] *)
| MsgMultipleIds (ids : list string)
(** [The MAST query returned a different id: {ids}] *)
| MsgDifferentId (ids : list string)
(** [No FITS files saved] *)
| MsgNoFitsSaved
(** [Skipped already downloaded sectors for TIC {TIC} = {sectors[ind]}] *)
| MsgSkippedSectors (TIC : string) (sectors : list string)
(** [Skipped: No new images to download for TIC={TIC}] *)
| MsgNoNewImages (TIC : string)
(** [Skipped TIC = {TIC}: Maximum number of retries ({max_tries}) exceeded] *)
| MsgFetchSkipped (TIC : string) (max_tries : Z)
(** [Skipped TIC = {TIC}: There seems to be a problem with the requested image: Excepion {ename}: {e}.] *)
| MsgFetchProblem (TIC : string) (e : Exc)
(** [Attempt {tries}, TIC = {TIC}. Excepion {ename}: {e}] *)
| MsgFetchAttempt (tries : Z) (TIC : string) (e : Exc)
(** [Skipped TIC = {TIC}: Maximum number of retries ({max_counter}) exceeded] *)
| MsgSaveSkipped (TIC : string) (max_counter : Z)
(** [Attempt {counter} when saving FITS file, TIC = {TIC}. Excepion {ename}: {e}] *)
| MsgSaveAttempt (counter : Z) (TIC : string) (e : Exc)
(** [Saved: {outputname.as_posix()}] *)
| MsgSaved (outputname : string)
(** [Working on {i+1}/{n}, TIC = {TIC}] *)
| MsgWorkingOn (i_plus_1 n : Z) (TIC : PyVal)
(** [After downloading images, we recommend to clean the cache images in .lightkurve-cache/tesscut] *)
| MsgCleanCache.

(** ** The world and the collaborators *)

Record World : Type := mkWorld {
  fs : gmap string Node;       (* the file system, but for the cache below *)
  stdout : list Msg;           (* lines printed, oldest first *)
  n_search : nat;              (* calls of [lk.search_tesscut] so far *)
  n_download : nat;            (* calls of [download_all] so far *)
  n_to_fits : nat;             (* calls of [to_fits] so far *)
  slept : Z;                   (* seconds spent in [time.sleep] *)
  cache : gmap string Node     (* what lightkurve keeps for itself, under
                                  [.lightkurve-cache/tesscut] *)
}.

(** The answers of the archive, of the disk and of the interpreter.  For
    the archive and [to_fits] the first argument is the number of earlier
    calls of the same operation.  [download_all] also leaves files in the
    cache of the library: [cache_after] is the cache after the call.  A
    [to_fits] or [mkdir] fault may depend on the file system it meets.
    [unicode_decimal] tells which code points above ASCII the Unicode
    database of the interpreter lists as decimal digits. *)
Record Env : Type := mkEnv {
  search_tesscut : nat → string → Exc + list Row;
  download_all : nat → list Row → Z → Exc + list Tpf;
  to_fits_fault : nat → gmap string Node → string → bool → option Exc;
  cache_after : nat → list Row → Z → gmap string Node → gmap string Node;
  mkdir_fault : gmap string Node → string → option Exc;
  unicode_decimal : N → bool
}.

(** ** Control flow

    A statement either falls through with a value, executes [return]
    (the source only ever returns [None]), raises, or, for the loops, runs
    out of the fuel it was given. *)

Inductive Flow (A : Type) : Type :=
| Next (a : A)
| Returned
| Raised (e : Exc)
| OutOfFuel.
Arguments Next {A} a.
Arguments Returned {A}.
Arguments Raised {A} e.
Arguments OutOfFuel {A}.

Definition M (A : Type) : Type := World → Flow A * World.

Definition ret {A} (a : A) : M A := λ w, (Next a, w).
Definition return_ {A} : M A := λ w, (Returned, w).
Definition raise {A} (e : Exc) : M A := λ w, (Raised e, w).
Definition out_of_fuel {A} : M A := λ w, (OutOfFuel, w).

Definition bind {A B} (m : M A) (k : A → M B) : M B :=
  λ w, match m w with
       | (Next a, w') => k a w'
       | (Returned, w') => (Returned, w')
       | (Raised e, w') => (Raised e, w')
       | (OutOfFuel, w') => (OutOfFuel, w')
       end.

Declare Scope py_scope.
Delimit Scope py_scope with py.
Notation "x <- m ;; k" := (bind m (λ x, k))
  (at level 100, m at next level, right associativity) : py_scope.
Notation "m ;; k" := (bind m (λ _, k))
  (at level 100, right associativity) : py_scope.
Local Open Scope py_scope.

(** Calling a function: its [return] ends the callee, not the caller. *)
Definition call (m : M unit) : M unit :=
  λ w, match m w with
       | (Returned, w') => (Next (), w')
       | r => r
       end.

(** ** Primitive effects *)

Definition print (m : Msg) : M unit :=
  λ w, (Next (), mkWorld (fs w) (stdout w ++ [m]) (n_search w)
                         (n_download w) (n_to_fits w) (slept w) (cache w)).

(** [time.sleep(secs)] *)
Definition sleep (secs : Z) : M unit :=
  λ w, (Next (), mkWorld (fs w) (stdout w) (n_search w)
                         (n_download w) (n_to_fits w) (slept w + secs)
                         (cache w)).

(** [path.exists()] *)
Definition path_exists (p : string) : M bool :=
  λ w, (Next (bool_decide (is_Some (fs w !! p))), w).

(** [path.is_dir()] *)
Definition path_is_dir (p : string) : M bool :=
  λ w, (Next (match fs w !! p with Some Dir => true | _ => false end), w).

(** ** Text

    A Python [str] is a sequence of Unicode code points.  A [string] here
    is its UTF-8 encoding: concatenation and equality of texts are those
    of their encodings, and an ASCII text is its own encoding. *)

Definition byte (c : ascii) : N := N_of_ascii c.

Definition is_ascii_digit (c : ascii) : bool :=
  (48 <=? byte c)%N && (byte c <=? 57)%N.

(** A continuation byte, [10xxxxxx]. *)
Definition is_cont (c : ascii) : bool :=
  (128 <=? byte c)%N && (byte c <? 192)%N.

(** The number of bytes of the character a first byte announces. *)
Definition utf8_len (c : ascii) : nat :=
  if (byte c <? 192)%N then 1
  else if (byte c <? 224)%N then 2
  else if (byte c <? 240)%N then 3
  else 4.

Fixpoint str_take (n : nat) (s : string) : string :=
  match n, s with
  | S n', String c r => String c (str_take n' r)
  | _, _ => EmptyString
  end.

Fixpoint str_drop (n : nat) (s : string) : string :=
  match n, s with
  | S n', String c r => str_drop n' r
  | _, _ => s
  end.

(** The first character of a text, as its bytes, and the text after it. *)
Definition utf8_head (s : string) : option (string * string) :=
  match s with
  | EmptyString => None
  | String b r =>
      Some (String b (str_take (utf8_len b - 1) r), str_drop (utf8_len b - 1) r)
  end.

Fixpoint cont_bits (acc : N) (s : string) : option N :=
  match s with
  | EmptyString => Some acc
  | String c r =>
      if is_cont c then cont_bits (acc * 64 + (byte c - 128))%N r else None
  end.

(** The code point of a character given by its bytes; [None] on bytes that
    encode no character. *)
Definition code_point (c : string) : option N :=
  match c with
  | EmptyString => None
  | String b r =>
      if (byte b <? 128)%N then
        match r with EmptyString => Some (byte b) | _ => None end
      else if (byte b <? 192)%N || (247 <? byte b)%N then None
      else if (String.length r =? utf8_len b - 1)%nat then
        match cont_bits (byte b - (if (byte b <? 224)%N then 192
                                   else if (byte b <? 240)%N then 224
                                   else 240))%N r with
        | Some cp => if (cp <? 128)%N then None else Some cp
        | None => None
        end
      else None
  end.

(** The characters of a text, what iterating over a [str] yields. *)
Fixpoint utf8_chars_upto (fuel : nat) (s : string) : list string :=
  match fuel with
  | O => []
  | S fuel' =>
      match utf8_head s with
      | Some (c, r) => c :: utf8_chars_upto fuel' r
      | None => []
      end
  end.

Definition utf8_chars (s : string) : list string :=
  utf8_chars_upto (String.length s) s.

(** [iter(v)] succeeds on strings and lists; on the other values modelled
    here it raises [TypeError]. *)
Definition py_iter (v : PyVal) : option (list PyVal) :=
  match v with
  | PyList l => Some l
  | PyStr s => Some (PyStr <$> utf8_chars s)
  | _ => None
  end.

(** ** Text patterns

    [re.match(prefix + '(\d+)', s)]: the text must start with [prefix]
    followed by at least one digit; group 1 is the longest run of digits
    there.  On a [str], [\d] is any Unicode decimal digit: [0] to [9]
    among the ASCII characters, and above them what the Unicode database
    of the interpreter says. *)

Section Patterns.

Variable env : Env.

Definition is_digit (c : string) : bool :=
  match code_point c with
  | Some cp =>
      if (cp <? 128)%N then (48 <=? cp)%N && (cp <=? 57)%N
      else unicode_decimal env cp
  | None => false
  end.

(** The longest run of digits a text starts with.  A text of [n] bytes has
    at most [n] characters. *)
Fixpoint take_digits_upto (fuel : nat) (s : string) : string :=
  match fuel with
  | O => EmptyString
  | S fuel' =>
      match utf8_head s with
      | Some (c, r) =>
          if is_digit c then c +:+ take_digits_upto fuel' r else EmptyString
      | None => EmptyString
      end
  end.

Definition take_digits (s : string) : string :=
  take_digits_upto (String.length s) s.

Fixpoint strip_prefix (p s : string) : option string :=
  match p, s with
  | EmptyString, _ => Some s
  | String a p', String b s' =>
      if bool_decide (a = b) then strip_prefix p' s' else None
  | String _ _, EmptyString => None
  end.

(** The match object's [group(1)], or [None] when [re.match] returns
    [None]. *)
Definition re_match_digits (prefix s : string) : option string :=
  match strip_prefix prefix s with
  | Some r =>
      match take_digits r with
      | EmptyString => None
      | d => Some d
      end
  | None => None
  end.

(** What the attribute lookup [.group] raises on [None]. *)
Definition no_group : Exc :=
  AttributeError "'NoneType' object has no attribute 'group'".

(** [re.match(...).group(1)] *)
Definition re_match_group1 (prefix s : string) : M string :=
  match re_match_digits prefix s with
  | Some d => ret d
  | None => raise no_group
  end.

(** A list comprehension over [re.match(...).group(1)]: the first text
    that does not match raises. *)
Fixpoint re_match_group1_all (prefix : string) (texts : list string)
  : M (list string) :=
  match texts with
  | [] => ret []
  | t :: rest =>
      d <- re_match_group1 prefix t ;;
      ds <- re_match_group1_all prefix rest ;;
      ret (d :: ds)
  end.

End Patterns.

(** ** numpy helpers *)

Definition str_le (a b : string) : Prop := String.leb a b = true.

Global Instance str_le_dec a b : Decision (str_le a b).
Proof. unfold str_le. apply _. Defined.

(** [np.unique(a)]: the distinct values, sorted. *)
Definition np_unique (a : list string) : list string :=
  merge_sort str_le (remove_dups a).

(** [np.argwhere(files == v).flatten()]: the positions holding [v]. *)
Fixpoint argwhere_from (i : nat) (files : list bool) (v : bool) : list nat :=
  match files with
  | [] => []
  | b :: rest =>
      if bool_decide (b = v) then i :: argwhere_from (S i) rest v
      else argwhere_from (S i) rest v
  end.

Definition argwhere (files : list bool) (v : bool) : list nat :=
  argwhere_from 0 files v.

(** [a[ind]] for a list of positions. *)
Definition take_indices {A} (a : list A) (ind : list nat) : list A :=
  omap (λ i, a !! i) ind.

(** ** Output names *)

(** [f'tess{TIC}_sec{s}.fits'] *)
Definition fits_name (TIC s : string) : string :=
  "tess" +:+ TIC +:+ "_sec" +:+ s +:+ ".fits".

(** ** Keyword arguments of [download_tesscuts_single] *)

Record Kwargs : Type := mkKwargs {
  outputdir : PyVal;
  imsize : PyVal;
  overwrite : bool;
  max_tries : Z;
  max_counter : Z;
  max_tries_MASTquery : Z
}.

(** The defaults of the signature; [cwd] is what [Path.cwd()] gave when the
    module was loaded. *)
Definition default_kwargs (cwd : string) : Kwargs :=
  mkKwargs (PyPath cwd) (PyInt 20) false 10 5 3.

Section Pipeline.

Variable env : Env.

(** *** Calls to the collaborators *)

(** [lk.search_tesscut(query)] inside [try]: the exception, if any, is
    handed to the handler as a value. *)
Definition try_search_tesscut (query : string) : M (Exc + list Row) :=
  λ w, (Next (search_tesscut env (n_search w) query),
        mkWorld (fs w) (stdout w) (S (n_search w))
                (n_download w) (n_to_fits w) (slept w) (cache w)).

(** [tesscuts.download_all(cutout_size=imsize)] inside [try]; whatever
    the answer, the library may have written to its cache. *)
Definition try_download_all (tesscuts : list Row) (cutout_size : Z)
  : M (Exc + list Tpf) :=
  λ w, (Next (download_all env (n_download w) tesscuts cutout_size),
        mkWorld (fs w) (stdout w) (n_search w)
                (S (n_download w)) (n_to_fits w) (slept w)
                (cache_after env (n_download w) tesscuts cutout_size
                   (cache w))).

(** [tpf.to_fits(outputname, overwrite=overwrite)] inside [try]: on a
    fault nothing is written, otherwise the file holds the payload. *)
Definition try_to_fits (tpf : Tpf) (outputname : string) (ow : bool)
  : M (option Exc) :=
  λ w, match to_fits_fault env (n_to_fits w) (fs w) outputname ow with
       | Some e =>
           (Next (Some e),
            mkWorld (fs w) (stdout w) (n_search w)
                    (n_download w) (S (n_to_fits w)) (slept w) (cache w))
       | None =>
           (Next None,
            mkWorld (<[outputname := Fits tpf]> (fs w)) (stdout w) (n_search w)
                    (n_download w) (S (n_to_fits w)) (slept w) (cache w))
       end.

(** [path.mkdir()], called on a path that does not exist.  The call is
    outside any [try]: a fault (a missing parent directory, a permission)
    comes out as it is, and nothing is made. *)
Definition mkdir (p : string) : M unit :=
  λ w, match mkdir_fault env (fs w) p with
       | Some e => (Raised e, w)
       | None =>
           (Next (),
            mkWorld (<[p := Dir]> (fs w)) (stdout w) (n_search w)
                    (n_download w) (n_to_fits w) (slept w) (cache w))
       end.

(** *** The three retry loops

    Each [while True] loop is given fuel; [query_fuel], [fetch_fuel] and
    [write_fuel] below are enough for it to end by itself. *)

(** Lines 60-73. *)
Fixpoint query_loop (fuel : nat) (TIC : string) (max_tries_MASTquery : Z)
    (tries_query : Z) : M (list Row) :=
  match fuel with
  | O => out_of_fuel
  | S fuel' =>
      if tries_query >? max_tries_MASTquery then
        print (MsgQuerySkipped TIC max_tries_MASTquery) ;;
        return_
      else
        r <- try_search_tesscut ("TIC " +:+ TIC) ;;
        match r with
        | inr tesscuts => ret tesscuts
        | inl e =>
            print (MsgQueryAttempt tries_query TIC e) ;;
            query_loop fuel' TIC max_tries_MASTquery (tries_query + 1)
        end
  end.

(** Lines 109-129. *)
Fixpoint fetch_loop (fuel : nat) (TIC : string) (tesscuts : list Row)
    (imsize : Z) (max_tries : Z) (tries : Z) : M (list Tpf) :=
  match fuel with
  | O => out_of_fuel
  | S fuel' =>
      if tries >? max_tries then
        print (MsgFetchSkipped TIC max_tries) ;;
        return_
      else
        r <- try_download_all tesscuts imsize ;;
        match r with
        | inr tpfs => ret tpfs
        | inl e =>
            if isinstance_TypeError e then
              print (MsgFetchProblem TIC e) ;;
              return_
            else if bool_decide (exc_class e = "SearchError") then
              print (MsgFetchProblem TIC e) ;;
              return_
            else
              print (MsgFetchAttempt tries TIC e) ;;
              fetch_loop fuel' TIC tesscuts imsize max_tries (tries + 1)
        end
  end.

(** Lines 138-153. *)
Fixpoint write_loop (fuel : nat) (TIC : string) (max_counter : Z)
    (tpf : Tpf) (outputname : string) (ow : bool) (counter : Z) : M unit :=
  match fuel with
  | O => out_of_fuel
  | S fuel' =>
      if counter >? 5 then
        print (MsgSaveSkipped TIC max_counter) ;;
        return_
      else
        r <- try_to_fits tpf outputname ow ;;
        match r with
        | None => ret ()
        | Some e =>
            print (MsgSaveAttempt counter TIC e) ;;
            sleep 1 ;;
            write_loop fuel' TIC max_counter tpf outputname ow (counter + 1)
        end
  end.

Definition query_fuel (max_tries_MASTquery : Z) : nat :=
  S (Z.to_nat max_tries_MASTquery).
Definition fetch_fuel (max_tries : Z) : nat := S (Z.to_nat max_tries).
Definition write_fuel : nat := 6.

(** *** Saving, lines 131-155 *)

Fixpoint save_all (TIC dir : string) (ow : bool) (max_counter : Z)
    (tpfs : list Tpf) : M unit :=
  match tpfs with
  | [] => ret ()
  | tpf :: rest =>
      let tpf := header_set "TICID" TIC tpf in
      let outputname := joinpath dir (fits_name TIC (pretty (sector tpf))) in
      write_loop write_fuel TIC max_counter tpf outputname ow 1 ;;
      print (MsgSaved outputname) ;;
      save_all TIC dir ow max_counter rest
  end.

(** *** Skipping what is already there, lines 97-106 *)

Definition dedup (TIC : string) (sectors outputnames : list string)
    (tesscuts : list Row) : M (list Row) :=
  λ w,
    let files := (λ file, bool_decide (is_Some (fs w !! file))) <$> outputnames in
    let ind := argwhere files true in
    if (0 <? length ind)%nat then
      (print (MsgSkippedSectors TIC (take_indices sectors ind)) ;;
       let ind := argwhere files false in
       let tesscuts := take_indices tesscuts ind in
       if (length tesscuts =? 0)%nat then
         print (MsgNoNewImages TIC) ;;
         return_
       else ret tesscuts) w
    else ret tesscuts w.

(** *** Fetching and saving, lines 108-155 *)

Definition fetch_and_save (TIC dir : string) (imsize : Z) (kw : Kwargs)
    (tesscuts : list Row) : M unit :=
  tpfs <- fetch_loop (fetch_fuel (max_tries kw)) TIC tesscuts imsize
            (max_tries kw) 1 ;;
  save_all TIC dir (overwrite kw) (max_counter kw) tpfs.

(** *** After the query, lines 75-155 *)

Definition after_query (TIC dir : string) (imsize : Z) (kw : Kwargs)
    (tesscuts : list Row) : M unit :=
  if (length tesscuts =? 0)%nat then
    print (MsgNoImages TIC) ;;
    return_
  else
    let ids := np_unique (targetid <$> tesscuts) in
    match ids with
    | [id] =>
        _TIC <- re_match_group1 env "TIC " id ;;
        if negb (bool_decide (TIC = _TIC)) then
          print (MsgDifferentId ids) ;;
          print MsgNoFitsSaved ;;
          return_
        else
          sectors <- re_match_group1_all env "TESS Sector "
                       (observation <$> tesscuts) ;;
          let outputnames :=
            (λ s, joinpath dir (fits_name TIC s)) <$> sectors in
          tesscuts <- dedup TIC sectors outputnames tesscuts ;;
          fetch_and_save TIC dir imsize kw tesscuts
    | _ =>
        print (MsgMultipleIds ids) ;;
        print MsgNoFitsSaved ;;
        return_
    end.

(** *** The output directory, lines 52-57 *)

Definition ensure_outputdir (dir : string) : M unit :=
  ex <- path_exists dir ;;
  if ex then
    isd <- path_is_dir dir ;;
    if negb isd then
      raise outputdir_not_dir
    else ret ()
  else mkdir dir.

(** *** [download_tesscuts_single] *)

Definition download_tesscuts_single (TIC : PyVal) (kw : Kwargs) : M unit :=
  match TIC with
  | PyStr tic =>
      match outputdir kw with
      | PyPath dir =>
          if negb (isinstance_int (imsize kw)) then
            raise imsize_not_int
          else
            ensure_outputdir dir ;;
            tesscuts <- query_loop (query_fuel (max_tries_MASTquery kw)) tic
                          (max_tries_MASTquery kw) 1 ;;
            after_query tic dir (int_value (imsize kw)) kw tesscuts
      | _ => raise outputdir_not_Path
      end
  | _ => raise TIC_not_str
  end.

End Pipeline.

(** ** The multi-target driver, lines 157-216

    [nThreads] is left at its default, 1: joblib then runs the jobs one
    after the other, in the order of the collection, in the calling
    process, and an exception of a job ends the batch. *)

Section Driver.

Variable env : Env.

(** The nested [run_download_tesscuts_single], lines 192-195. *)
Definition run_download_tesscuts_single (TIC : PyVal) (i : nat) (n : nat)
    (kw : Kwargs) : M unit :=
  print (MsgWorkingOn (Z.of_nat i + 1) (Z.of_nat n) TIC) ;;
  call (download_tesscuts_single env TIC kw).

(** [Parallel(n_jobs=1)(jobs)] *)
Fixpoint Parallel_1 (jobs : list (M unit)) : M unit :=
  match jobs with
  | [] => ret ()
  | job :: rest => job ;; Parallel_1 rest
  end.

(** The generator handed to [Parallel]: one delayed call per target, with
    its position and the size of the collection. *)
Definition delayed_jobs (TICs : list PyVal) (kw : Kwargs) : list (M unit) :=
  let size := length TICs in
  imap (λ i TIC, run_download_tesscuts_single TIC i size kw) TICs.

Definition download_tesscuts (TICs : PyVal) (kw : Kwargs) : M unit :=
  if isinstance_int TICs then raise TICs_is_int
  else
    (if isinstance_str TICs then
       call (download_tesscuts_single env TICs kw)
     else
       match py_iter TICs with
       | None => raise TICs_not_iterable
       | Some l => Parallel_1 (delayed_jobs l kw)
       end) ;;
    print MsgCleanCache.

End Driver.

(** * Observations on runs *)

(** [run_rel R m]: whatever [m] does, the world it leaves is related by [R]
    to the world it met. *)
Definition run_rel {A} (R : relation World) (m : M A) : Prop :=
  ∀ w, R w (m w).2.

(** [grows S f]: the observable [f] of the world moves along [S]; with
    [S] equality, [f] is left as it was. *)
Definition grows {X} (S : relation X) (f : World → X) : relation World :=
  λ w w', S (f w) (f w').

(** The FITS files on disk. *)
Definition fits_of (n : Node) : option Tpf :=
  match n with Fits tpf => Some tpf | _ => None end.

Definition fits_files (w : World) : gmap string Tpf := omap fits_of (fs w).

(** The name a payload is saved under, lines 135-137. *)
Definition saved_as (TIC dir : string) (tpf : Tpf) : string :=
  joinpath dir (fits_name TIC (pretty (sector tpf))).

(** The paths on disk. *)
Definition paths (w : World) : gset string := dom (fs w).

(** A run ends well when it falls through or returns, or raises an
    exception of the [allowed] ones; it never ends for lack of fuel. *)
Definition fine {A} (allowed : Exc → Prop) (f : Flow A) : Prop :=
  match f with
  | Next _ | Returned => True
  | Raised e => allowed e
  | OutOfFuel => False
  end.

Definition runs_fine {A} (allowed : Exc → Prop) (m : M A) : Prop :=
  ∀ w, fine allowed (m w).1.

(** A row whose identity field and observation descriptor both match
    their patterns. *)
Definition row_matches (env : Env) (r : Row) : Prop :=
  is_Some (re_match_digits env "TIC " (targetid r)) ∧
  is_Some (re_match_digits env "TESS Sector " (observation r)).

(** The output directory can be used: nothing is at its path and [mkdir]
    can make it, or it is a directory already. *)
Definition dir_usable (env : Env) (dir : string) (w : World) : Prop :=
  (fs w !! dir = None ∧ mkdir_fault env (fs w) dir = None) ∨
  fs w !! dir = Some Dir.

(** The output directory, once made, stays a directory. *)
Definition stays_dir (dir : string) : relation World :=
  λ w w', fs w !! dir = Some Dir → fs w' !! dir = Some Dir.


(** The lines [download_tesscuts_single] can print: all but the two of the
    driver. *)
Definition pipeline_msg (m : Msg) : Prop :=
  match m with
  | MsgWorkingOn _ _ _ | MsgCleanCache => False
  | _ => True
  end.

(** No progress line is added. *)
Definition no_new_marker : relation World :=
  λ w w', ∀ i n TIC, MsgWorkingOn i n TIC ∈ stdout w' →
                     MsgWorkingOn i n TIC ∈ stdout w.

(** The exceptions the fetch loop does not retry: instances of
    [TypeError] and the class named [SearchError]. *)
Definition fetch_terminal (e : Exc) : bool :=
  isinstance_TypeError e || bool_decide (exc_class e = "SearchError").

(** * Scenarios

    Concrete archives, disks and worlds on which the statements below are
    exercised. *)

Definition ConnectionError : Exc :=
  mkExc "ConnectionError" ["RequestException"; "OSError"]
        "Connection aborted.".

Definition DiskFull : Exc :=
  mkExc "OSError" [] "[Errno 28] No space left on device".

Definition SearchError : Exc :=
  mkExc "SearchError" [] "No data found for the requested cutout.".

(** What astroquery raises on a cutout size of the wrong type. *)
Definition BadCutoutSize : Exc :=
  mkExc "TypeError" [] "unsupported cutout size".

(** Nothing on disk, nothing printed, no call made. *)
Definition w_empty : World := mkWorld ∅ [] 0 0 0 0 ∅.

(** The decimal digits above ASCII of some scripts: Arabic-Indic and
    Extended Arabic-Indic, Devanagari, Bengali, Thai, and the fullwidth
    digits. *)
Definition unicode_nd (cp : N) : bool :=
  ((1632 <=? cp) && (cp <=? 1641) || (1776 <=? cp) && (cp <=? 1785) ||
   (2406 <=? cp) && (cp <=? 2415) || (2534 <=? cp) && (cp <=? 2543) ||
   (3664 <=? cp) && (cp <=? 3673) || (65296 <=? cp) && (cp <=? 65305))%N.

(** An archive and a [to_fits], with a library that leaves its cache as it
    is and a [mkdir] that makes the directory. *)
Definition env_of (search : nat → string → Exc + list Row)
    (download : nat → list Row → Z → Exc + list Tpf)
    (fault : nat → gmap string Node → string → bool → option Exc) : Env :=
  mkEnv search download fault (λ _ _ _ c, c) (λ _ _, None) unicode_nd.

Definition row (sec : string) : Row :=
  mkRow "TIC 130415266" ("TESS Sector " +:+ sec).

Definition tpf_of (sec : Z) : Tpf := mkTpf sec ∅ 0.

(** The payload of each row asked for: its sector is the length-2 label
    read back as a number, here 14, 15 and 16. *)
Definition table3 : list Row := [row "14"; row "15"; row "16"].
Definition payloads3 : list Tpf := [tpf_of 14; tpf_of 15; tpf_of 16].

Definition kw_tpfs : Kwargs := default_kwargs "tpfs".

(** An archive and a disk that never fail: the search finds sector 14,
    the fetch returns its payload. *)
Definition env_nominal : Env :=
  env_of (λ _ _, inr [row "14"])
        (λ _ _ _, inr [tpf_of 14])
        (λ _ _ _ _, None).

(** The search fails twice, then answers. *)
Definition env_search_flaky : Env :=
  env_of (λ n _, if (n <? 2)%nat then inl ConnectionError else inr [row "14"])
        (λ _ _ _, inr [tpf_of 14])
        (λ _ _ _ _, None).

(** The search never answers. *)
Definition env_search_down : Env :=
  env_of (λ _ _, inl ConnectionError)
        (λ _ _ _, inr [tpf_of 14])
        (λ _ _ _ _, None).

(** The fetch is refused as malformed at the first attempt. *)
Definition env_fetch_malformed : Env :=
  env_of (λ _ _, inr [row "14"])
        (λ _ _ _, inl BadCutoutSize)
        (λ _ _ _ _, None).

(** The fetch fails once on the network, then the archive reports that
    nothing matches. *)
Definition env_fetch_no_match : Env :=
  env_of (λ _ _, inr [row "14"])
        (λ n _ _, if (n <? 1)%nat then inl ConnectionError
                  else inl SearchError)
        (λ _ _ _ _, None).

(** The fetch fails twice on the network, then answers. *)
Definition env_fetch_flaky : Env :=
  env_of (λ _ _, inr [row "14"])
        (λ n _ _, if (n <? 2)%nat then inl ConnectionError
                  else inr [tpf_of 14])
        (λ _ _ _ _, None).

(** The fetch never answers. *)
Definition env_fetch_down : Env :=
  env_of (λ _ _, inr [row "14"])
        (λ _ _ _, inl ConnectionError)
        (λ _ _ _ _, None).

(** The disk is full: every write fails. *)
Definition env_disk_full : Env :=
  env_of (λ _ _, inr [row "14"])
        (λ _ _ _, inr [tpf_of 14])
        (λ _ _ _ _, Some DiskFull).

(** Three units are fetched; every write of the second one, sector 15,
    fails, the others succeed. *)
Definition env_unit2_unwritable : Env :=
  env_of (λ _ _, inr table3)
        (λ _ _ _, inr payloads3)
        (λ _ _ p _,
           if bool_decide (p = "tpfs/tess130415266_sec15.fits")
           then Some DiskFull else None).



(** * Further observations *)

(** A text made of decimal digits only, possibly empty. *)
Fixpoint all_digits_upto (fuel : nat) (env : Env) (s : string) : bool :=
  match fuel with
  | O => bool_decide (s = EmptyString)
  | S fuel' =>
      match utf8_head s with
      | Some (c, r) => is_digit env c && all_digits_upto fuel' env r
      | None => true
      end
  end.

Definition all_digits (env : Env) (s : string) : bool :=
  all_digits_upto (String.length s) env s.

(** The text starts with a decimal digit. *)
Definition starts_with_digit (env : Env) (s : string) : bool :=
  match utf8_head s with
  | Some (c, _) => is_digit env c
  | None => false
  end.

(** The byte [x] occurs in the text. *)
Fixpoint has_byte (x : ascii) (s : string) : bool :=
  match s with
  | EmptyString => false
  | String c r => bool_decide (c = x) || has_byte x r
  end.


(** The disk differs at a path only where one of the payloads [tpfs],
    stamped with the target, now lies under its own name. *)
Definition saves_only (TIC dir : string) (tpfs : list Tpf) : relation World :=
  λ w w', ∀ p,
    fs w' !! p = fs w !! p ∨
    ∃ tpf0, tpf0 ∈ tpfs ∧ p = saved_as TIC dir tpf0 ∧
            fs w' !! p = Some (Fits (header_set "TICID" TIC tpf0)).

(** The targets a call of the driver works on: the string it is handed, or
    the strings of the collection. *)
Definition target_of (TICs : PyVal) (tic : string) : Prop :=
  TICs = PyStr tic ∨
  (isinstance_str TICs = false ∧
   ∃ l, py_iter TICs = Some l ∧ PyStr tic ∈ l).

(** The disk differs at a path only where the output directory was made,
    or where a payload that the archive returned to a fetch, stamped with
    a numeric target among [P], now lies under its own name. *)
Definition only_saves_downloads (env : Env) (P : string → Prop)
    (dir : string) : relation World :=
  λ w w', ∀ p,
    fs w' !! p = fs w !! p ∨
    (p = dir ∧ fs w !! dir = None ∧ fs w' !! dir = Some Dir) ∨
    ∃ tic n rows sz tpfs tpf0,
      P tic ∧ tic ≠ EmptyString ∧ all_digits env tic = true ∧
      download_all env n rows sz = inr tpfs ∧ tpf0 ∈ tpfs ∧
      p = saved_as tic dir tpf0 ∧
      fs w' !! p = Some (Fits (header_set "TICID" tic tpf0)).

(** What lightkurve keeps of its fetches changes only when a fetch is
    made. *)
Definition cache_by_fetch : relation World :=
  λ w w', (n_download w ≤ n_download w')%nat ∧
          (n_download w' = n_download w → cache w' = cache w).

(** The lines [Saved: ...] among those printed. *)
Definition is_saved (m : Msg) : bool :=
  match m with MsgSaved _ => true | _ => false end.

Fixpoint count_saved (l : list Msg) : nat :=
  match l with
  | [] => 0
  | m :: l' => (if is_saved m then 1 else 0) + count_saved l'
  end.

Definition saved_lines (w : World) : nat := count_saved (stdout w).

(** Of the [k] attempts to write [p] numbered from [n] on, on the disk
    [m], those the disk refuses. *)
Fixpoint failed_attempts (env : Env) (m : gmap string Node) (p : string)
    (ow : bool) (n k : nat) : nat :=
  match k with
  | O => 0
  | S k' =>
      match to_fits_fault env n m p ow with
      | Some _ => S (failed_attempts env m p ow (S n) k')
      | None => failed_attempts env m p ow (S n) k'
      end
  end.

(** Between two worlds, the seconds slept are the [to_fits] attempts made
    less the files reported saved: one second for each attempt that
    failed, and none besides. *)
Definition sleeps_are_failed_writes : relation World :=
  λ w w', (n_to_fits w ≤ n_to_fits w')%nat ∧
          (saved_lines w ≤ saved_lines w')%nat ∧
          slept w ≤ slept w' ∧
          slept w' - slept w
          = (Z.of_nat (n_to_fits w') - Z.of_nat (n_to_fits w))
            - (Z.of_nat (saved_lines w') - Z.of_nat (saved_lines w)).

(** What is printed is added at the end, and every line added satisfies
    [P]. *)
Definition prints_only (P : Msg → Prop) : relation World :=
  λ w w', ∃ added, stdout w' = stdout w ++ added ∧ Forall P added.

(** The archive of a survey with sectors 14 and 15: the search lists both,
    the fetch returns the payload of each row it is asked for. *)
Definition payload_of_row (r : Row) : Tpf :=
  if bool_decide (observation r = "TESS Sector 14") then tpf_of 14
  else tpf_of 15.

Definition env_two_sectors : Env :=
  env_of (λ _ _, inr [row "14"; row "15"])
        (λ _ t _, inr (payload_of_row <$> t))
        (λ _ _ _ _, None).


(** A disk where the name of the output directory is taken by a file. *)
Definition w_tpfs_is_a_file : World :=
  mkWorld (<["tpfs" := OtherFile]> ∅) [] 0 0 0 0 ∅.

(** What [Path.mkdir()] raises when the parent of the path is not there. *)
Definition NoParent : Exc :=
  mkExc "FileNotFoundError" ["OSError"]
        "[Errno 2] No such file or directory: 'runs/tpfs'".

(** An output directory under a directory that is not there: [mkdir]
    makes one level only. *)
Definition kw_nested : Kwargs := default_kwargs "runs/tpfs".

Definition env_no_parent : Env :=
  mkEnv (λ _ _, inr [row "14"]) (λ _ _ _, inr [tpf_of 14])
        (λ _ _ _ _, None) (λ _ _ _ c, c)
        (λ m p, if bool_decide (p = "runs/tpfs")
                then match m !! "runs" with
                     | Some Dir => None
                     | _ => Some NoParent
                     end
                else None)
        unicode_nd.

(** What [to_fits] raises, with [overwrite=False], on a path that is
    taken. *)
Definition FileExists : Exc :=
  mkExc "OSError" [] "File 'tpfs/tess130415266_sec7.fits' already exists.".

(** The archive writes the sector of an observation with two digits, the
    payload carries it as a number; [to_fits] refuses to write over a
    file unless told to. *)
Definition env_leading_zero : Env :=
  env_of (λ _ _, inr [mkRow "TIC 130415266" "TESS Sector 07"])
        (λ _ _ _, inr [tpf_of 7])
        (λ _ m p ow,
           if ow then None
           else match m !! p with
                | Some _ => Some FileExists
                | None => None
                end).

(** The search finds nothing. *)
Definition env_no_images : Env :=
  env_of (λ _ _, inr [])
        (λ _ _ _, inr [tpf_of 14])
        (λ _ _ _ _, None).

(** * Reasoning about runs *)

(** ** What a statement does to the world

    For a preorder [R], [run_rel R] passes through [bind], so it is enough
    to look at the primitive effects. *)

Section RunRel.

Context (R : relation World) `{!PreOrder R}.

Lemma run_rel_ret {A} (a : A) : run_rel R (ret a).
Proof. intros w. reflexivity. Qed.

Lemma run_rel_return {A} : run_rel R (@return_ A).
Proof. intros w. reflexivity. Qed.

Lemma run_rel_raise {A} e : run_rel R (@raise A e).
Proof. intros w. reflexivity. Qed.

Lemma run_rel_out_of_fuel {A} : run_rel R (@out_of_fuel A).
Proof. intros w. reflexivity. Qed.

Lemma run_rel_bind {A B} (m : M A) (k : A → M B) :
  run_rel R m → (∀ a, run_rel R (k a)) → run_rel R (bind m k).
Proof.
  intros Hm Hk w. unfold bind. specialize (Hm w).
  destruct (m w) as [[a| |e|] w1]; simpl in *; try done.
  etrans; [exact Hm | apply Hk].
Qed.

Lemma run_rel_call (m : M unit) : run_rel R m → run_rel R (call m).
Proof.
  intros Hm w. unfold call. specialize (Hm w).
  by destruct (m w) as [[a| |e|] w1].
Qed.

Lemma run_rel_path_exists p : run_rel R (path_exists p).
Proof. intros w. reflexivity. Qed.

Lemma run_rel_path_is_dir p : run_rel R (path_is_dir p).
Proof. intros w. reflexivity. Qed.

Lemma run_rel_re_match_group1 env prefix s :
  run_rel R (re_match_group1 env prefix s).
Proof.
  unfold re_match_group1. destruct (re_match_digits env prefix s);
    [apply run_rel_ret | apply run_rel_raise].
Qed.

Lemma run_rel_re_match_group1_all env prefix texts :
  run_rel R (re_match_group1_all env prefix texts).
Proof.
  induction texts as [|t rest IH]; simpl; [apply run_rel_ret|].
  apply run_rel_bind; [apply run_rel_re_match_group1|]. intros d.
  apply run_rel_bind; [exact IH|]. intros ds. apply run_rel_ret.
Qed.

(** The pipeline changes the world only through six effects; each lemma
    below asks [R] of those its statement can perform.  The only directory
    made is the output directory [dir], the only files written are
    entries of it. *)
Section WithEnv.

Context (env : Env) (dir : string).
Hypothesis Hprint : ∀ m, pipeline_msg m → run_rel R (print m).
Hypothesis Hprint_driver : ∀ m, run_rel R (print m).
Hypothesis Hsleep : ∀ s, run_rel R (sleep s).
Hypothesis Hmkdir : run_rel R (mkdir env dir).
Hypothesis Hsearch : ∀ q, run_rel R (try_search_tesscut env q).
Hypothesis Hdownload : ∀ t sz, run_rel R (try_download_all env t sz).
Hypothesis Hto_fits :
  ∀ tpf name ow, run_rel R (try_to_fits env tpf (joinpath dir name) ow).

Local Ltac eff :=
  first [apply Hprint; exact I | apply Hsleep | apply Hmkdir | apply Hsearch
        | apply Hdownload | apply Hto_fits].

Lemma run_rel_query_loop fuel TIC maxq tries :
  run_rel R (query_loop env fuel TIC maxq tries).
Proof.
  revert tries. induction fuel as [|fuel IH]; intros tries; simpl;
    [apply run_rel_out_of_fuel|].
  destruct (tries >? maxq).
  - apply run_rel_bind; [eff | intros; apply run_rel_return].
  - apply run_rel_bind; [eff|]. intros [e|t]; [|apply run_rel_ret].
    apply run_rel_bind; [eff | intros; apply IH].
Qed.

Lemma run_rel_fetch_loop fuel TIC t sz mt tries :
  run_rel R (fetch_loop env fuel TIC t sz mt tries).
Proof.
  revert tries. induction fuel as [|fuel IH]; intros tries; simpl;
    [apply run_rel_out_of_fuel|].
  destruct (tries >? mt).
  - apply run_rel_bind; [eff | intros; apply run_rel_return].
  - apply run_rel_bind; [eff|]. intros [e|tpfs]; [|apply run_rel_ret].
    destruct (isinstance_TypeError e);
      [apply run_rel_bind; [eff | intros; apply run_rel_return]|].
    destruct (bool_decide _);
      [apply run_rel_bind; [eff | intros; apply run_rel_return]|].
    apply run_rel_bind; [eff | intros; apply IH].
Qed.

Lemma run_rel_write_loop fuel TIC mc tpf name ow counter :
  run_rel R (write_loop env fuel TIC mc tpf (joinpath dir name) ow counter).
Proof.
  revert counter. induction fuel as [|fuel IH]; intros counter; simpl;
    [apply run_rel_out_of_fuel|].
  destruct (counter >? 5).
  - apply run_rel_bind; [eff | intros; apply run_rel_return].
  - apply run_rel_bind; [eff|]. intros [e|]; [|apply run_rel_ret].
    apply run_rel_bind; [eff|]. intros _.
    apply run_rel_bind; [eff | intros; apply IH].
Qed.

Lemma run_rel_save_all TIC ow mc tpfs :
  run_rel R (save_all env TIC dir ow mc tpfs).
Proof.
  induction tpfs as [|tpf rest IH]; cbn [save_all]; [apply run_rel_ret|].
  apply run_rel_bind; [apply run_rel_write_loop|]. intros _.
  apply run_rel_bind; [eff | intros; apply IH].
Qed.

Lemma run_rel_dedup TIC sectors outputnames t :
  run_rel R (dedup TIC sectors outputnames t).
Proof.
  intros w. unfold dedup. destruct (_ <? _)%nat; [|reflexivity].
  refine (run_rel_bind _ _ _ _ w); [eff|]. intros _.
  destruct (_ =? _)%nat; [|apply run_rel_ret].
  apply run_rel_bind; [eff | intros; apply run_rel_return].
Qed.

Lemma run_rel_fetch_and_save TIC sz kw t :
  run_rel R (fetch_and_save env TIC dir sz kw t).
Proof.
  unfold fetch_and_save.
  apply run_rel_bind; [apply run_rel_fetch_loop|]. intros tpfs.
  apply run_rel_save_all.
Qed.

Lemma run_rel_after_query TIC sz kw t :
  run_rel R (after_query env TIC dir sz kw t).
Proof.
  unfold after_query. destruct (_ =? _)%nat.
  { apply run_rel_bind; [eff | intros; apply run_rel_return]. }
  assert (Hmulti : ∀ ids, run_rel R
            (print (MsgMultipleIds ids) ;; print MsgNoFitsSaved ;; @return_ unit)).
  { intros ids. apply run_rel_bind; [eff|]. intros _.
    apply run_rel_bind; [eff | intros; apply run_rel_return]. }
  destruct (np_unique _) as [|id [|id' ids]]; try apply Hmulti.
  apply run_rel_bind; [apply run_rel_re_match_group1|]. intros _TIC.
  destruct (negb _).
  { apply run_rel_bind; [eff|]. intros _.
    apply run_rel_bind; [eff | intros; apply run_rel_return]. }
  apply run_rel_bind; [apply run_rel_re_match_group1_all|]. intros sectors.
  apply run_rel_bind; [apply run_rel_dedup|]. intros t'.
  apply run_rel_fetch_and_save.
Qed.

Lemma run_rel_ensure_outputdir : run_rel R (ensure_outputdir env dir).
Proof.
  unfold ensure_outputdir.
  apply run_rel_bind; [apply run_rel_path_exists|]. intros [|]; [|eff].
  apply run_rel_bind; [apply run_rel_path_is_dir|].
  intros [|]; simpl; [apply run_rel_ret | apply run_rel_raise].
Qed.

Lemma run_rel_download_tesscuts_single TIC kw :
  (∀ p, outputdir kw = PyPath p → p = dir) →
  run_rel R (download_tesscuts_single env TIC kw).
Proof.
  intros Hdir. unfold download_tesscuts_single.
  destruct TIC; try apply run_rel_raise.
  destruct (outputdir kw) as [| | | | |p|]; try apply run_rel_raise.
  rewrite (Hdir p eq_refl).
  destruct (negb _); [apply run_rel_raise|].
  apply run_rel_bind; [apply run_rel_ensure_outputdir|]. intros _.
  apply run_rel_bind; [apply run_rel_query_loop|]. intros t.
  apply run_rel_after_query.
Qed.

Lemma run_rel_Parallel_1 (jobs : list (M unit)) :
  Forall (run_rel R) jobs → run_rel R (Parallel_1 jobs).
Proof.
  induction 1 as [|job rest Hjob _ IH]; simpl; [apply run_rel_ret|].
  apply run_rel_bind; [exact Hjob | intros; exact IH].
Qed.



End WithEnv.
End RunRel.

Global Instance grows_preorder {X} (S : relation X) `{!PreOrder S}
  (f : World → X) : PreOrder (grows S f).
Proof.
  split.
  - intros w. unfold grows. reflexivity.
  - intros w1 w2 w3 H12 H23. unfold grows in *. by etrans.
Qed.

(** ** Equations for [bind] *)

Lemma bind_next {A B} (m : M A) (k : A → M B) w a w1 :
  m w = (Next a, w1) → bind m k w = k a w1.
Proof. intros H. unfold bind. by rewrite H. Qed.

Lemma bind_fst_next {A B} (m : M A) (k : A → M B) w a :
  (m w).1 = Next a → bind m k w = k a (m w).2.
Proof. unfold bind. destruct (m w) as [[]]; simpl; congruence. Qed.

Lemma bind_returned {A B} (m : M A) (k : A → M B) w w1 :
  m w = (Returned, w1) → bind m k w = (Returned, w1).
Proof. intros H. unfold bind. by rewrite H. Qed.

Lemma bind_raised {A B} (m : M A) (k : A → M B) w e w1 :
  m w = (Raised e, w1) → bind m k w = (Raised e, w1).
Proof. intros H. unfold bind. by rewrite H. Qed.

Lemma bind_inv_next {A B} (m : M A) (k : A → M B) w b w' :
  bind m k w = (Next b, w') →
  ∃ a w1, m w = (Next a, w1) ∧ k a w1 = (Next b, w').
Proof.
  unfold bind. destruct (m w) as [[a| |e|] w1]; intros H; try done. eauto.
Qed.

Lemma bind_assoc {A B C} (m : M A) (k : A → M B) (h : B → M C) w :
  bind (bind m k) h w = bind m (λ a, bind (k a) h) w.
Proof. unfold bind. by destruct (m w) as [[a| |e|] w1]. Qed.

Lemma bind_ext {A B} (m : M A) (k k' : A → M B) w :
  (∀ a w1, k a w1 = k' a w1) → bind m k w = bind m k' w.
Proof. intros H. unfold bind. by destruct (m w) as [[a| |e|] w1]. Qed.

Lemma bind_ret_unit (m : M unit) w : (m ;; ret ()) w = m w.
Proof. unfold bind. by destruct (m w) as [[[]| |e|] w1]. Qed.

(** A batch in two parts. *)
Lemma Parallel_1_app (a b : list (M unit)) w :
  Parallel_1 (a ++ b) w = (Parallel_1 a ;; Parallel_1 b) w.
Proof.
  revert w. induction a as [|job a IH]; intros w; [done|].
  cbn [Parallel_1 app]. rewrite bind_assoc. apply bind_ext. intros _ w1.
  apply IH.
Qed.

(** ** Runs that end well *)

Section Fine.

Context (allowed : Exc → Prop).

Lemma runs_fine_bind {A B} (m : M A) (k : A → M B) :
  runs_fine allowed m → (∀ a, runs_fine allowed (k a)) →
  runs_fine allowed (bind m k).
Proof.
  intros Hm Hk w. unfold bind. specialize (Hm w).
  destruct (m w) as [[a| |e|] w1]; simpl in *; try done. apply Hk.
Qed.

Lemma runs_fine_call (m : M unit) :
  runs_fine allowed m → runs_fine allowed (call m).
Proof.
  intros Hm w. unfold call. specialize (Hm w).
  by destruct (m w) as [[a| |e|] w1].
Qed.

Lemma runs_fine_ret {A} (a : A) : runs_fine allowed (ret a).
Proof. by intros w. Qed.

Lemma runs_fine_return {A} : runs_fine allowed (@return_ A).
Proof. by intros w. Qed.

Lemma runs_fine_print m : runs_fine allowed (print m).
Proof. by intros w. Qed.

Lemma runs_fine_sleep s : runs_fine allowed (sleep s).
Proof. by intros w. Qed.

Lemma runs_fine_print_return {A} m :
  runs_fine allowed (print m ;; @return_ A).
Proof. by intros w. Qed.

Context (env : Env).

Lemma runs_fine_query_loop fuel TIC maxq tries :
  (Z.to_nat (maxq - tries + 1) < fuel)%nat →
  runs_fine allowed (query_loop env fuel TIC maxq tries).
Proof.
  revert tries. induction fuel as [|fuel IH]; intros tries Hfuel; [lia|].
  simpl. destruct (Z.gtb_spec tries maxq) as [Hgt|Hle].
  { apply runs_fine_print_return. }
  apply runs_fine_bind; [by intros w|]. intros [e|t]; [|apply runs_fine_ret].
  apply runs_fine_bind; [apply runs_fine_print|]. intros _. apply IH. lia.
Qed.

Lemma runs_fine_fetch_loop fuel TIC t sz mt tries :
  (Z.to_nat (mt - tries + 1) < fuel)%nat →
  runs_fine allowed (fetch_loop env fuel TIC t sz mt tries).
Proof.
  revert tries. induction fuel as [|fuel IH]; intros tries Hfuel; [lia|].
  simpl. destruct (Z.gtb_spec tries mt) as [Hgt|Hle].
  { apply runs_fine_print_return. }
  apply runs_fine_bind; [by intros w|]. intros [e|tpfs]; [|apply runs_fine_ret].
  destruct (isinstance_TypeError e); [apply runs_fine_print_return|].
  destruct (bool_decide _); [apply runs_fine_print_return|].
  apply runs_fine_bind; [apply runs_fine_print|]. intros _. apply IH. lia.
Qed.

Lemma runs_fine_write_loop fuel TIC mc tpf p ow counter :
  (Z.to_nat (5 - counter + 1) < fuel)%nat →
  runs_fine allowed (write_loop env fuel TIC mc tpf p ow counter).
Proof.
  revert counter. induction fuel as [|fuel IH]; intros counter Hfuel; [lia|].
  simpl. destruct (Z.gtb_spec counter 5) as [Hgt|Hle].
  { apply runs_fine_print_return. }
  apply runs_fine_bind.
  { intros w. unfold try_to_fits. by destruct (to_fits_fault _ _ _ _ _). }
  intros [e|]; [|apply runs_fine_ret].
  apply runs_fine_bind; [apply runs_fine_print|]. intros _.
  apply runs_fine_bind; [apply runs_fine_sleep|]. intros _. apply IH. lia.
Qed.

Lemma runs_fine_save_all TIC dir ow mc tpfs :
  runs_fine allowed (save_all env TIC dir ow mc tpfs).
Proof.
  induction tpfs as [|tpf rest IH]; cbn [save_all]; [apply runs_fine_ret|].
  apply runs_fine_bind.
  { apply runs_fine_write_loop. unfold write_fuel. lia. }
  intros _. apply runs_fine_bind; [apply runs_fine_print | intros; apply IH].
Qed.

Lemma runs_fine_fetch_and_save TIC dir sz kw t :
  runs_fine allowed (fetch_and_save env TIC dir sz kw t).
Proof.
  unfold fetch_and_save. apply runs_fine_bind.
  { apply runs_fine_fetch_loop. unfold fetch_fuel. lia. }
  intros tpfs. apply runs_fine_save_all.
Qed.

Lemma runs_fine_dedup TIC sectors outputnames t :
  runs_fine allowed (dedup TIC sectors outputnames t).
Proof.
  intros w. unfold dedup. destruct (_ <? _)%nat; [|done].
  refine (runs_fine_bind _ _ _ _ w); [apply runs_fine_print|]. intros _.
  destruct (_ =? _)%nat; [apply runs_fine_print_return | apply runs_fine_ret].
Qed.

Lemma runs_fine_re_match_group1 prefix s :
  allowed no_group ∨ is_Some (re_match_digits env prefix s) →
  runs_fine allowed (re_match_group1 env prefix s).
Proof.
  intros H w. unfold re_match_group1.
  destruct (re_match_digits env prefix s); [done|].
  destruct H as [H|[? H]]; [exact H | done].
Qed.

Lemma runs_fine_re_match_group1_all prefix texts :
  allowed no_group ∨ Forall (λ s, is_Some (re_match_digits env prefix s)) texts →
  runs_fine allowed (re_match_group1_all env prefix texts).
Proof.
  intros H. induction texts as [|t rest IH]; simpl; [apply runs_fine_ret|].
  apply runs_fine_bind.
  { apply runs_fine_re_match_group1. destruct H as [H|H]; [by left|].
    right. by inversion H. }
  intros d. apply runs_fine_bind; [|intros; apply runs_fine_ret].
  apply IH. destruct H as [H|H]; [by left|]. right. by inversion H.
Qed.

End Fine.

(** ** [np.unique] *)

Lemma elem_of_np_unique x l : x ∈ np_unique l ↔ x ∈ l.
Proof.
  unfold np_unique. rewrite merge_sort_Permutation. apply elem_of_remove_dups.
Qed.

Lemma NoDup_np_unique l : NoDup (np_unique l).
Proof.
  unfold np_unique. rewrite merge_sort_Permutation. apply NoDup_remove_dups.
Qed.

(** One distinct value: every element is that value. *)
Lemma np_unique_singleton l id :
  np_unique l = [id] → ∀ x, x ∈ l → x = id.
Proof.
  intros H x Hx. apply elem_of_np_unique in Hx. rewrite H in Hx.
  by apply list_elem_of_singleton in Hx.
Qed.

(** Two elements that differ: more than one distinct value. *)
Lemma np_unique_two l a b :
  a ∈ l → b ∈ l → a ≠ b → ∀ id, np_unique l ≠ [id].
Proof.
  intros Ha Hb Hab id H.
  rewrite (np_unique_singleton _ _ H a Ha) in Hab.
  by rewrite (np_unique_singleton _ _ H b Hb) in Hab.
Qed.

(** ** Frames of the loops *)

Local Ltac prim :=
  intros; intros ?; unfold grows, mkdir; simpl;
  try destruct (mkdir_fault _ _ _); done.



Lemma query_loop_frame env fuel TIC maxq tries w :
  let w' := (query_loop env fuel TIC maxq tries w).2 in
  fs w' = fs w ∧ n_download w' = n_download w ∧
  n_to_fits w' = n_to_fits w ∧ slept w' = slept w.
Proof.
  repeat split; symmetry.
  - apply (run_rel_query_loop (grows eq fs)); prim.
  - apply (run_rel_query_loop (grows eq n_download)); prim.
  - apply (run_rel_query_loop (grows eq n_to_fits)); prim.
  - apply (run_rel_query_loop (grows eq slept)); prim.
Qed.

Lemma fetch_loop_frame env fuel TIC t sz mt tries w :
  let w' := (fetch_loop env fuel TIC t sz mt tries w).2 in
  fs w' = fs w ∧ n_search w' = n_search w ∧
  n_to_fits w' = n_to_fits w ∧ slept w' = slept w.
Proof.
  repeat split; symmetry.
  - apply (run_rel_fetch_loop (grows eq fs)); prim.
  - apply (run_rel_fetch_loop (grows eq n_search)); prim.
  - apply (run_rel_fetch_loop (grows eq n_to_fits)); prim.
  - apply (run_rel_fetch_loop (grows eq slept)); prim.
Qed.

Lemma ensure_outputdir_frame env dir w :
  let w' := (ensure_outputdir env dir w).2 in
  stdout w' = stdout w ∧ n_search w' = n_search w ∧
  n_download w' = n_download w ∧ n_to_fits w' = n_to_fits w ∧
  slept w' = slept w ∧ fits_files w' = fits_files w.
Proof.
  unfold ensure_outputdir, bind, path_exists, path_is_dir, mkdir. simpl.
  case_bool_decide as Hex.
  - by destruct (fs w !! dir) as [[]|].
  - destruct (mkdir_fault env (fs w) dir); simpl; [done|].
    repeat split. unfold fits_files. simpl.
    apply map_eq. intros p. rewrite !lookup_omap.
    destruct (decide (p = dir)) as [->|Hne].
    + rewrite lookup_insert_eq. apply eq_None_not_Some in Hex. by rewrite Hex.
    + by rewrite lookup_insert_ne.
Qed.

(** On a usable directory the set-up falls through, and leaves a
    directory. *)
Lemma ensure_outputdir_usable env dir w :
  dir_usable env dir w →
  (ensure_outputdir env dir w).1 = Next () ∧
  fs (ensure_outputdir env dir w).2 !! dir = Some Dir.
Proof.
  unfold ensure_outputdir, bind, path_exists, path_is_dir, mkdir. simpl.
  intros [[H Hmk]|H]; rewrite H; simpl.
  - rewrite Hmk. simpl. by rewrite lookup_insert_eq.
  - by rewrite H.
Qed.

(** The set-up either falls through, or raises with the world untouched:
    the [ValueError] of line 55 when something that is not a directory is
    at the path, the fault of [mkdir] when nothing is there and the
    directory cannot be made. *)
Lemma ensure_outputdir_cases env dir w :
  (dir_usable env dir w ∧ (ensure_outputdir env dir w).1 = Next ()) ∨
  (¬ dir_usable env dir w ∧
   ∃ e, ensure_outputdir env dir w = (Raised e, w) ∧
        ((∃ node, fs w !! dir = Some node ∧ node ≠ Dir ∧
                  e = outputdir_not_dir) ∨
         (fs w !! dir = None ∧ mkdir_fault env (fs w) dir = Some e))).
Proof.
  destruct (fs w !! dir) as [node|] eqn:Hfs.
  - destruct (decide (node = Dir)) as [->|Hnode].
    + left. assert (Hdir : dir_usable env dir w) by by right.
      split; [exact Hdir | by apply ensure_outputdir_usable].
    + right. split.
      { intros [[H _]|H]; rewrite Hfs in H; congruence. }
      exists outputdir_not_dir. split; [|left; by exists node].
      unfold ensure_outputdir, bind, path_exists, path_is_dir.
      rewrite bool_decide_eq_true_2 by (rewrite Hfs; eauto).
      cbv beta. rewrite Hfs. by destruct node.
  - destruct (mkdir_fault env (fs w) dir) as [e|] eqn:Hmk.
    + right. split.
      { intros [[_ H]|H]; [rewrite Hmk in H | rewrite Hfs in H]; congruence. }
      exists e. split; [|by right].
      unfold ensure_outputdir, bind, path_exists, mkdir.
      rewrite bool_decide_eq_false_2 by (rewrite Hfs; by intros [? ?]).
      by rewrite Hmk.
    + left. assert (Hdir : dir_usable env dir w) by by left.
      split; [exact Hdir | by apply ensure_outputdir_usable].
Qed.

(** ** The query loop, attempt by attempt *)

Section QueryLoop.

Context (env : Env) (TIC : string) (maxq : Z).

Let q := "TIC " +:+ TIC.

Lemma query_loop_succeeds (k : nat) : ∀ fuel tries w t,
  (k < fuel)%nat → tries + Z.of_nat k ≤ maxq →
  (∀ i, (i < k)%nat → ∃ e, search_tesscut env (n_search w + i) q = inl e) →
  search_tesscut env (n_search w + k) q = inr t →
  ∃ w', query_loop env fuel TIC maxq tries w = (Next t, w') ∧
        n_search w' = (n_search w + k + 1)%nat.
Proof.
  induction k as [|k IH]; intros fuel tries w t Hfuel Hle Hfail Hok;
    (destruct fuel as [|fuel]; [lia|]); simpl;
    (destruct (Z.gtb_spec tries maxq) as [Hgt|_]; [lia|]);
    unfold bind at 1, try_search_tesscut at 1; fold q.
  - rewrite Nat.add_0_r in Hok. rewrite Hok. eexists. split; [done|]. simpl. lia.
  - destruct (Hfail 0%nat) as [e He]; [lia|]. rewrite Nat.add_0_r in He.
    rewrite He. unfold bind at 1. simpl.
    match goal with
    | |- ∃ w', query_loop _ _ _ _ _ ?w1 = _ ∧ _ =>
        destruct (IH fuel (tries + 1) w1 t) as (w' & Hrun & Hn);
          [lia | lia | | | exists w'; split; [exact Hrun|]]
    end.
    + intros i Hi. simpl. destruct (Hfail (S i)) as [e' He']; [lia|].
      exists e'. rewrite <- He'. f_equal. lia.
    + simpl. rewrite <- Hok. f_equal. lia.
    + rewrite Hn. simpl. lia.
Qed.

Lemma query_loop_exhausted (n : nat) : ∀ fuel tries w,
  n = Z.to_nat (maxq - tries + 1) → (n < fuel)%nat →
  (∀ i, (i < n)%nat → ∃ e, search_tesscut env (n_search w + i) q = inl e) →
  ∃ w', query_loop env fuel TIC maxq tries w = (Returned, w') ∧
        n_search w' = (n_search w + n)%nat ∧
        last (stdout w') = Some (MsgQuerySkipped TIC maxq).
Proof.
  induction n as [|n IH]; intros fuel tries w Hn Hfuel Hfail;
    (destruct fuel as [|fuel]; [lia|]); simpl;
    (destruct (Z.gtb_spec tries maxq) as [Hgt|Hle]; [|try lia]).
  - eexists. split; [done|]. simpl. split; [lia|]. by rewrite last_snoc.
  - lia.
  - unfold bind at 1, try_search_tesscut at 1; fold q.
    destruct (Hfail 0%nat) as [e He]; [lia|]. rewrite Nat.add_0_r in He.
    rewrite He. unfold bind at 1. simpl.
    match goal with
    | |- ∃ w', query_loop _ _ _ _ _ ?w1 = _ ∧ _ =>
        destruct (IH fuel (tries + 1) w1) as (w' & Hrun & Hcount & Hlast);
          [lia | lia | | exists w'; split; [exact Hrun|]]
    end.
    + intros i Hi. simpl. destruct (Hfail (S i)) as [e' He']; [lia|].
      exists e'. rewrite <- He'. f_equal. lia.
    + split; [|exact Hlast]. rewrite Hcount. simpl. lia.
Qed.

(** With a cap below the counter no query is made. *)
Lemma query_loop_cap_below fuel tries w :
  maxq < tries → fuel ≠ 0%nat →
  query_loop env fuel TIC maxq tries w
  = (Returned, (print (MsgQuerySkipped TIC maxq) w).2).
Proof.
  intros Hlt Hfuel. destruct fuel as [|fuel]; [done|]. simpl.
  destruct (Z.gtb_spec tries maxq) as [_|Hle]; [done | lia].
Qed.

(** When the loop returns, its last line says so. *)
Lemma query_loop_returned_last fuel : ∀ tries w w',
  query_loop env fuel TIC maxq tries w = (Returned, w') →
  last (stdout w') = Some (MsgQuerySkipped TIC maxq).
Proof.
  induction fuel as [|fuel IH]; intros tries w w'; simpl; [done|].
  destruct (tries >? maxq).
  { intros [= <-]. simpl. by rewrite last_snoc. }
  unfold bind at 1, try_search_tesscut at 1.
  destruct (search_tesscut env (n_search w) _) as [e|t0]; [|done].
  unfold bind at 1. simpl. apply IH.
Qed.

(** A table the loop hands on is an answer of the archive. *)
Lemma query_loop_answer fuel : ∀ tries w t w',
  query_loop env fuel TIC maxq tries w = (Next t, w') →
  ∃ n, (n_search w ≤ n < n_search w')%nat ∧ search_tesscut env n q = inr t.
Proof.
  induction fuel as [|fuel IH]; intros tries w t w'; simpl; [done|].
  destruct (tries >? maxq); [done|].
  unfold bind at 1, try_search_tesscut at 1; fold q.
  destruct (search_tesscut env (n_search w) q) as [e|t0] eqn:Hs.
  - unfold bind at 1. simpl. intros H. apply IH in H as (n & Hn & H).
    simpl in Hn. exists n. split; [lia | done].
  - intros [= -> <-]. exists (n_search w). simpl. split; [lia | done].
Qed.

End QueryLoop.

(** ** The fetch loop, attempt by attempt *)

Section FetchLoop.

Context (env : Env) (TIC : string) (t : list Row) (sz mt : Z).

(** [k] failures that are not terminal use up [k] attempts and nothing
    else. *)
Lemma fetch_loop_retries (k : nat) : ∀ tries w,
  (k ≠ 0%nat → tries + Z.of_nat k ≤ mt + 1) →
  (∀ i, (i < k)%nat →
     ∃ e, download_all env (n_download w + i) t sz = inl e ∧
          fetch_terminal e = false) →
  ∃ wk, n_download wk = (n_download w + k)%nat ∧
        fs wk = fs w ∧ n_to_fits wk = n_to_fits w ∧
        ∀ fuel, fetch_loop env (k + fuel) TIC t sz mt tries w
                = fetch_loop env fuel TIC t sz mt (tries + Z.of_nat k) wk.
Proof.
  induction k as [|k IH]; intros tries w Hle Hfail.
  { exists w. repeat split; [lia|]. intros fuel. simpl. f_equal. lia. }
  destruct (Hfail 0%nat) as (e & He & Hterm); [lia|].
  rewrite Nat.add_0_r in He.
  apply orb_false_iff in Hterm as [Hty Hname].
  set (w1 := (print (MsgFetchAttempt tries TIC e)
                (try_download_all env t sz w).2).2).
  destruct (IH (tries + 1) w1) as (wk & Hcount & Hfs & Hfits & Hrun); [lia| |].
  { intros i Hi. destruct (Hfail (S i)) as (e' & He' & Hterm'); [lia|].
    exists e'. split; [|done]. rewrite <- He'. simpl. f_equal. lia. }
  exists wk. repeat split; [simpl in Hcount; lia | done | done |].
  intros fuel. simpl.
  destruct (Z.gtb_spec tries mt) as [Hgt|_]; [lia|].
  unfold bind at 1, try_download_all at 1. rewrite He, Hty, Hname.
  unfold bind at 1. simpl. rewrite Hrun. f_equal. lia.
Qed.

Lemma fetch_loop_terminal fuel tries w e :
  tries ≤ mt →
  download_all env (n_download w) t sz = inl e → fetch_terminal e = true →
  fetch_loop env (S fuel) TIC t sz mt tries w
  = (Returned, (print (MsgFetchProblem TIC e) (try_download_all env t sz w).2).2).
Proof.
  intros Hle He Hterm. simpl.
  destruct (Z.gtb_spec tries mt) as [Hgt|_]; [lia|].
  unfold bind at 1, try_download_all at 1. rewrite He.
  unfold fetch_terminal in Hterm.
  destruct (isinstance_TypeError e); [done|].
  simpl in Hterm. by rewrite Hterm.
Qed.

Lemma fetch_loop_ok fuel tries w tpfs :
  tries ≤ mt →
  download_all env (n_download w) t sz = inr tpfs →
  fetch_loop env (S fuel) TIC t sz mt tries w
  = (Next tpfs, (try_download_all env t sz w).2).
Proof.
  intros Hle He. simpl.
  destruct (Z.gtb_spec tries mt) as [Hgt|_]; [lia|].
  unfold bind at 1, try_download_all at 1. by rewrite He.
Qed.

Lemma fetch_loop_cap_below fuel tries w :
  mt < tries →
  fetch_loop env (S fuel) TIC t sz mt tries w
  = (Returned, (print (MsgFetchSkipped TIC mt) w).2).
Proof.
  intros Hlt. simpl. destruct (Z.gtb_spec tries mt) as [_|Hle]; [done | lia].
Qed.

(** The payloads the loop hands on are an answer of the archive. *)
Lemma fetch_loop_answer fuel : ∀ tries w tpfs w',
  fetch_loop env fuel TIC t sz mt tries w = (Next tpfs, w') →
  ∃ n, download_all env n t sz = inr tpfs.
Proof.
  induction fuel as [|fuel IH]; intros tries w tpfs w'; simpl; [done|].
  destruct (tries >? mt); [done|].
  unfold bind at 1, try_download_all at 1.
  destruct (download_all env (n_download w) t sz) as [e|tpfs0] eqn:Hs.
  - destruct (isinstance_TypeError e); [done|].
    destruct (bool_decide _); [done|].
    unfold bind at 1. simpl. apply IH.
  - intros [= -> <-]. eauto.
Qed.

End FetchLoop.

(** ** The write loop, attempt by attempt *)

Section WriteLoop.

Context (env : Env) (TIC : string) (mc : Z) (tpf : Tpf) (p : string)
        (ow : bool).

(** [k] failed writes use up [k] attempts and [k] seconds, and leave the
    disk as it was. *)
Lemma write_loop_retries (k : nat) : ∀ counter w,
  counter + Z.of_nat k ≤ 6 →
  (∀ i, (i < k)%nat →
     is_Some (to_fits_fault env (n_to_fits w + i) (fs w) p ow)) →
  ∃ wk, n_to_fits wk = (n_to_fits w + k)%nat ∧
        slept wk = slept w + Z.of_nat k ∧
        fs wk = fs w ∧ n_search wk = n_search w ∧
        n_download wk = n_download w ∧
        ∀ fuel, write_loop env (k + fuel) TIC mc tpf p ow counter w
                = write_loop env fuel TIC mc tpf p ow (counter + Z.of_nat k) wk.
Proof.
  induction k as [|k IH]; intros counter w Hle Hfail.
  { exists w. repeat split; [lia | lia |]. intros fuel. simpl. f_equal. lia. }
  destruct (Hfail 0%nat) as [e He]; [lia|]. rewrite Nat.add_0_r in He.
  set (w1 := (sleep 1 (print (MsgSaveAttempt counter TIC e)
                (try_to_fits env tpf p ow w).2).2).2).
  assert (Hw1 : fs w1 = fs w ∧ n_to_fits w1 = S (n_to_fits w) ∧
                slept w1 = slept w + 1 ∧ n_search w1 = n_search w ∧
                n_download w1 = n_download w).
  { subst w1. unfold try_to_fits. rewrite He. done. }
  destruct Hw1 as (Hfs1 & Hn1 & Hs1 & Hq1 & Hd1).
  destruct (IH (counter + 1) w1) as (wk & Hcount & Hslept & Hfs & Hq & Hd & Hrun);
    [lia| |].
  { intros i Hi. rewrite Hfs1, Hn1.
    replace (S (n_to_fits w) + i)%nat with (n_to_fits w + S i)%nat by lia.
    apply Hfail. lia. }
  exists wk. repeat split; [lia | lia | congruence | congruence | congruence |].
  intros fuel. simpl.
  destruct (Z.gtb_spec counter 5) as [Hgt|_]; [lia|].
  unfold bind at 1, try_to_fits at 1. rewrite He.
  unfold bind at 1. simpl. unfold bind at 1. simpl.
  trans (write_loop env (k + fuel) TIC mc tpf p ow (counter + 1) w1).
  { subst w1. unfold try_to_fits. by rewrite He. }
  rewrite Hrun. f_equal. lia.
Qed.

Lemma write_loop_ok fuel counter w :
  counter ≤ 5 →
  to_fits_fault env (n_to_fits w) (fs w) p ow = None →
  write_loop env (S fuel) TIC mc tpf p ow counter w
  = (Next (), (try_to_fits env tpf p ow w).2) ∧
  fs (try_to_fits env tpf p ow w).2 = <[p := Fits tpf]> (fs w).
Proof.
  intros Hle He. simpl.
  destruct (Z.gtb_spec counter 5) as [Hgt|_]; [lia|].
  unfold bind at 1, try_to_fits. by rewrite He.
Qed.

Lemma write_loop_cap_above fuel counter w :
  5 < counter →
  write_loop env (S fuel) TIC mc tpf p ow counter w
  = (Returned, (print (MsgSaveSkipped TIC mc) w).2).
Proof.
  intros Hlt. simpl. destruct (Z.gtb_spec counter 5) as [_|Hle]; [done | lia].
Qed.

(** Five failed writes in a row end the function, whatever [max_counter]
    is. *)
Lemma write_loop_five_failures w :
  (∀ i, (i < 5)%nat →
     is_Some (to_fits_fault env (n_to_fits w + i) (fs w) p ow)) →
  ∃ w', write_loop env write_fuel TIC mc tpf p ow 1 w = (Returned, w') ∧
        n_to_fits w' = (n_to_fits w + 5)%nat ∧ slept w' = slept w + 5 ∧
        fs w' = fs w ∧ n_search w' = n_search w ∧
        n_download w' = n_download w ∧
        last (stdout w') = Some (MsgSaveSkipped TIC mc).
Proof.
  intros Hfail.
  destruct (write_loop_retries 5 1 w) as (wk & Hn & Hs & Hfs & Hq & Hd & Hrun);
    [lia | done |].
  eexists. split.
  { change write_fuel with (5 + 1)%nat. rewrite Hrun.
    apply write_loop_cap_above. lia. }
  simpl. repeat split; try done. by rewrite last_snoc.
Qed.

(** When the loop falls through, the file is there. *)
Lemma write_loop_written fuel : ∀ counter w w',
  write_loop env fuel TIC mc tpf p ow counter w = (Next (), w') →
  fs w' !! p = Some (Fits tpf) ∧
  ∀ p', p' ≠ p → fs w' !! p' = fs w !! p'.
Proof.
  induction fuel as [|fuel IH]; intros counter w w'; simpl; [done|].
  destruct (counter >? 5); [done|].
  unfold bind at 1, try_to_fits at 1.
  destruct (to_fits_fault env (n_to_fits w) (fs w) p ow) as [e|] eqn:He.
  - unfold bind at 1. simpl. unfold bind at 1. simpl.
    intros H. apply IH in H. exact H.
  - intros [= <-]. simpl. split; [by rewrite lookup_insert_eq|].
    intros p' Hp'. by rewrite lookup_insert_ne.
Qed.

End WriteLoop.

(** * The statements of the specification, C1 to C10 *)

(** The scenario of the specification: target 130415266, one unit labelled
    sector 14, the fetch and the write succeed at the first attempt.  The
    file [tess130415266_sec14.fits] is in the output directory and its
    header card [TICID] is the target. *)
Example scenario_130415266 :
  let r := download_tesscuts_single env_nominal (PyStr "130415266") kw_tpfs
             w_empty in
  r.1 = Next () ∧
  n_search r.2 = 1%nat ∧ n_download r.2 = 1%nat ∧ n_to_fits r.2 = 1%nat ∧
  stdout r.2 = [MsgSaved "tpfs/tess130415266_sec14.fits"] ∧
  ∃ tpf, fs r.2 !! "tpfs/tess130415266_sec14.fits" = Some (Fits tpf) ∧
         sector tpf = 14 ∧ header tpf !! "TICID" = Some "130415266".
Proof.
  vm_compute. repeat split. eexists. split; [reflexivity|]. done.
Qed.

(** ** Write attempts (C3) *)

(** C3.  The claim: for every value of [max_counter], a payload gets at
    most [max_counter] write attempts.  The code compares the counter with
    the constant 5 and uses [max_counter] only in the line it prints: with
    [max_counter = 2] and a full disk, the payload gets five write
    attempts, one second apart, and the line printed then names 2 as the
    maximum that was exceeded. *)
Theorem C3_max_counter_2_gets_5_write_attempts :
  let kw := mkKwargs (PyPath "tpfs") (PyInt 20) false 10 2 3 in
  let r := download_tesscuts_single env_disk_full (PyStr "130415266") kw
             w_empty in
  max_counter kw = 2 ∧
  r.1 = Returned ∧ n_to_fits r.2 = 5%nat ∧ slept r.2 = 5 ∧
  last (stdout r.2) = Some (MsgSaveSkipped "130415266" 2).
Proof. vm_compute. done. Qed.

(** ** The fetch loop (C4) *)

(** C4.  In the bulk-fetch phase, an exception that is an instance of
    [TypeError] or whose class is named [SearchError] ends the target at
    once, whatever the attempt it comes at: after [k] retried failures and
    one such exception, [k + 1] fetches were made, none follows, and
    nothing is written (at the first attempt: exactly one fetch).  Any
    other exception is retried: [k < max_tries] of them followed by an
    answer lead to the saving of that answer after [k + 1] fetches, and
    [max_tries] of them end the target after [max_tries] fetches with
    nothing written. *)
Theorem C4_fetch_terminal_or_retried env TIC dir sz kw t w :
  let transient (k : nat) :=
    ∀ i, (i < k)%nat →
      ∃ e, download_all env (n_download w + i) t sz = inl e ∧
           fetch_terminal e = false in
  (∀ (k : nat) e,
     Z.of_nat k < max_tries kw → transient k →
     download_all env (n_download w + k) t sz = inl e →
     fetch_terminal e = true →
     ∃ w', fetch_and_save env TIC dir sz kw t w = (Returned, w') ∧
           n_download w' = (n_download w + k + 1)%nat ∧
           last (stdout w') = Some (MsgFetchProblem TIC e) ∧
           n_to_fits w' = n_to_fits w ∧ fs w' = fs w) ∧
  (∀ (k : nat) tpfs,
     Z.of_nat k < max_tries kw → transient k →
     download_all env (n_download w + k) t sz = inr tpfs →
     ∃ w1, n_download w1 = (n_download w + k + 1)%nat ∧ fs w1 = fs w ∧
           fetch_and_save env TIC dir sz kw t w
           = save_all env TIC dir (overwrite kw) (max_counter kw) tpfs w1) ∧
  (transient (Z.to_nat (max_tries kw)) →
     ∃ w', fetch_and_save env TIC dir sz kw t w = (Returned, w') ∧
           n_download w' = (n_download w + Z.to_nat (max_tries kw))%nat ∧
           last (stdout w') = Some (MsgFetchSkipped TIC (max_tries kw)) ∧
           n_to_fits w' = n_to_fits w ∧ fs w' = fs w).
Proof.
  intros transient. unfold fetch_and_save, fetch_fuel.
  split; [|split].
  - intros k e Hk Htr He Hterm.
    destruct (fetch_loop_retries env TIC t sz (max_tries kw) k 1 w)
      as (wk & Hn & Hfs & Hfits & Hrun); [lia | exact Htr |].
    rewrite <- Hn in He.
    pose proof (fetch_loop_terminal env TIC t sz (max_tries kw)
                  (Z.to_nat (max_tries kw) - k) (1 + Z.of_nat k) wk e
                  ltac:(lia) He Hterm) as Hend.
    eexists. split.
    { apply bind_returned.
      replace (S (Z.to_nat (max_tries kw)))
        with (k + S (Z.to_nat (max_tries kw) - k))%nat by lia.
      rewrite Hrun. exact Hend. }
    simpl. rewrite last_snoc. repeat split; [lia | done | done].
  - intros k tpfs Hk Htr He.
    destruct (fetch_loop_retries env TIC t sz (max_tries kw) k 1 w)
      as (wk & Hn & Hfs & Hfits & Hrun); [lia | exact Htr |].
    rewrite <- Hn in He.
    pose proof (fetch_loop_ok env TIC t sz (max_tries kw)
                  (Z.to_nat (max_tries kw) - k) (1 + Z.of_nat k) wk tpfs
                  ltac:(lia) He) as Hend.
    eexists. split; [|split]; [| |apply bind_next].
    3:{ replace (S (Z.to_nat (max_tries kw)))
          with (k + S (Z.to_nat (max_tries kw) - k))%nat by lia.
        rewrite Hrun. exact Hend. }
    + simpl. lia.
    + done.
  - intros Htr.
    destruct (fetch_loop_retries env TIC t sz (max_tries kw)
                (Z.to_nat (max_tries kw)) 1 w)
      as (wk & Hn & Hfs & Hfits & Hrun); [lia | exact Htr |].
    eexists. split.
    { apply bind_returned.
      replace (S (Z.to_nat (max_tries kw)))
        with (Z.to_nat (max_tries kw) + 1)%nat by lia.
      rewrite Hrun. apply fetch_loop_cap_below. lia. }
    simpl. rewrite last_snoc. repeat split; [lia | done | done].
Qed.

(** A malformed request at the first attempt: one fetch, no file; a
    network failure and then no match: two fetches, no file; two network
    failures and an answer: three fetches and the file; a network that
    stays down: ten fetches, no file. *)
Lemma C4_fetch_terminal_or_retried_witness :
  (∃ w', fetch_and_save env_fetch_malformed "130415266" "tpfs" 20 kw_tpfs
           [row "14"] w_empty = (Returned, w') ∧
         n_download w' = 1%nat ∧ fs w' = fs w_empty) ∧
  (∃ w', fetch_and_save env_fetch_no_match "130415266" "tpfs" 20 kw_tpfs
           [row "14"] w_empty = (Returned, w') ∧
         n_download w' = 2%nat ∧ fs w' = fs w_empty) ∧
  (∃ w1, n_download w1 = 3%nat ∧
         fetch_and_save env_fetch_flaky "130415266" "tpfs" 20 kw_tpfs
           [row "14"] w_empty
         = save_all env_fetch_flaky "130415266" "tpfs" false 5 [tpf_of 14] w1) ∧
  (∃ w', fetch_and_save env_fetch_down "130415266" "tpfs" 20 kw_tpfs
           [row "14"] w_empty = (Returned, w') ∧
         n_download w' = 10%nat ∧ fs w' = fs w_empty).
Proof.
  split; [|split; [|split]].
  - destruct (C4_fetch_terminal_or_retried env_fetch_malformed "130415266"
                "tpfs" 20 kw_tpfs [row "14"] w_empty) as (H & _ & _).
    destruct (H 0%nat BadCutoutSize) as (w' & Hrun & Hn & _ & _ & Hfs);
      [reflexivity | intros i Hi; lia | reflexivity | reflexivity |].
    exists w'. split; [exact Hrun|]. split; [exact Hn | exact Hfs].
  - destruct (C4_fetch_terminal_or_retried env_fetch_no_match "130415266"
                "tpfs" 20 kw_tpfs [row "14"] w_empty) as (H & _ & _).
    destruct (H 1%nat SearchError) as (w' & Hrun & Hn & _ & _ & Hfs);
      [reflexivity | | reflexivity | reflexivity |].
    { intros i Hi. exists ConnectionError.
      destruct i as [|i]; [split; reflexivity | lia]. }
    exists w'. split; [exact Hrun|]. split; [exact Hn | exact Hfs].
  - destruct (C4_fetch_terminal_or_retried env_fetch_flaky "130415266"
                "tpfs" 20 kw_tpfs [row "14"] w_empty) as (_ & H & _).
    destruct (H 2%nat [tpf_of 14]) as (w1 & Hn & _ & Hrun);
      [reflexivity | | reflexivity |].
    { intros i Hi. exists ConnectionError.
      destruct i as [|[|i]]; [split; reflexivity | split; reflexivity | lia]. }
    exists w1. split; [exact Hn | exact Hrun].
  - destruct (C4_fetch_terminal_or_retried env_fetch_down "130415266"
                "tpfs" 20 kw_tpfs [row "14"] w_empty) as (_ & _ & H).
    destruct H as (w' & Hrun & Hn & _ & _ & Hfs).
    { intros i Hi. exists ConnectionError. split; reflexivity. }
    exists w'. split; [exact Hrun|]. split; [exact Hn | exact Hfs].
Defined.

(** ** The query loop (C5, C10) *)

(** With well-typed arguments and a usable output directory, the function
    is its query loop followed by the rest, run in the world the set-up of
    the directory leaves. *)
Lemma download_tesscuts_single_valid env tic dir kw w :
  outputdir kw = PyPath dir → isinstance_int (imsize kw) = true →
  dir_usable env dir w →
  download_tesscuts_single env (PyStr tic) kw w
  = (tesscuts <- query_loop env (query_fuel (max_tries_MASTquery kw)) tic
                   (max_tries_MASTquery kw) 1 ;;
     after_query env tic dir (int_value (imsize kw)) kw tesscuts)
      (ensure_outputdir env dir w).2.
Proof.
  intros Hout Hint Hdir. unfold download_tesscuts_single.
  rewrite Hout, Hint. cbn [negb].
  destruct (ensure_outputdir_usable env dir w Hdir) as [H1 _].
  by rewrite (bind_fst_next _ _ _ () H1).
Qed.

(** C5.  With well-typed arguments and a usable output directory (it is
    there, or nothing is at its path and [mkdir] makes it): a catalog
    query that fails [k < max_tries_MASTquery] times and then
    answers completes the resolution after [k + 1] queries, and the
    function goes on with the answer; a query that fails
    [max_tries_MASTquery] times makes the function return after that many
    queries, without a fetch or a write and with the FITS files on disk as
    they were. *)
Theorem C5_query_retry_boundary env tic dir kw w :
  outputdir kw = PyPath dir → isinstance_int (imsize kw) = true →
  dir_usable env dir w →
  let q := "TIC " +:+ tic in
  let maxq := max_tries_MASTquery kw in
  let fails (k : nat) :=
    ∀ i, (i < k)%nat → ∃ e, search_tesscut env (n_search w + i) q = inl e in
  (∀ (k : nat) t,
     Z.of_nat k < maxq → fails k →
     search_tesscut env (n_search w + k) q = inr t →
     ∃ w1, query_loop env (query_fuel maxq) tic maxq 1 (ensure_outputdir env dir w).2
           = (Next t, w1) ∧
           n_search w1 = (n_search w + k + 1)%nat ∧
           download_tesscuts_single env (PyStr tic) kw w
           = after_query env tic dir (int_value (imsize kw)) kw t w1) ∧
  (fails (Z.to_nat maxq) →
     ∃ w', download_tesscuts_single env (PyStr tic) kw w = (Returned, w') ∧
           n_search w' = (n_search w + Z.to_nat maxq)%nat ∧
           last (stdout w') = Some (MsgQuerySkipped tic maxq) ∧
           n_download w' = n_download w ∧ n_to_fits w' = n_to_fits w ∧
           fits_files w' = fits_files w).
Proof.
  intros Hout Hint Hdir q maxq fails.
  rewrite (download_tesscuts_single_valid env tic dir kw w Hout Hint Hdir).
  destruct (ensure_outputdir_frame env dir w) as (_ & Hq0 & Hd0 & Hf0 & _ & Hfits0).
  set (w0 := (ensure_outputdir env dir w).2) in *.
  split.
  - intros k t Hk Hfail Hok.
    destruct (query_loop_succeeds env tic maxq k (query_fuel maxq) 1 w0 t)
      as (w1 & Hrun & Hn).
    + unfold query_fuel. lia.
    + lia.
    + rewrite Hq0. exact Hfail.
    + rewrite Hq0. exact Hok.
    + exists w1. split; [exact Hrun|]. split; [lia|].
      by apply bind_next.
  - intros Hfail.
    destruct (query_loop_exhausted env tic maxq (Z.to_nat maxq)
                (query_fuel maxq) 1 w0) as (w' & Hrun & Hn & Hlast).
    + f_equal. lia.
    + unfold query_fuel. lia.
    + rewrite Hq0. exact Hfail.
    + exists w'. split; [by apply bind_returned|].
      pose proof (query_loop_frame env (query_fuel maxq) tic maxq 1 w0) as Hfr.
      rewrite Hrun in Hfr. simpl in Hfr. destruct Hfr as (Hfs & Hd & Hf & _).
      repeat split; [lia | done | congruence | congruence |].
      unfold fits_files in *. by rewrite Hfs.
Qed.

(** Two failed queries under the default cap of three: the third query
    answers and the function goes on with its table.  An archive that
    stays down: three queries, then the function returns and no file is
    there. *)
Lemma C5_query_retry_boundary_witness :
  (∃ w1, n_search w1 = 3%nat ∧
         download_tesscuts_single env_search_flaky (PyStr "130415266")
           kw_tpfs w_empty
         = after_query env_search_flaky "130415266" "tpfs" 20 kw_tpfs
             [row "14"] w1) ∧
  (∃ w', download_tesscuts_single env_search_down (PyStr "130415266")
           kw_tpfs w_empty = (Returned, w') ∧
         n_search w' = 3%nat ∧ n_to_fits w' = 0%nat ∧ fits_files w' = ∅).
Proof.
  split.
  - destruct (C5_query_retry_boundary env_search_flaky "130415266" "tpfs"
                kw_tpfs w_empty eq_refl eq_refl
                (or_introl (conj eq_refl eq_refl))) as [H _].
    destruct (H 2%nat [row "14"]) as (w1 & _ & Hn & Hrun);
      [reflexivity | | reflexivity |].
    { intros i Hi. exists ConnectionError.
      destruct i as [|[|i]]; [reflexivity | reflexivity | lia]. }
    exists w1. split; [exact Hn | exact Hrun].
  - destruct (C5_query_retry_boundary env_search_down "130415266" "tpfs"
                kw_tpfs w_empty eq_refl eq_refl
                (or_introl (conj eq_refl eq_refl))) as [_ H].
    destruct H as (w' & Hrun & Hn & _ & _ & Hf & Hfits).
    { intros i Hi. exists ConnectionError. reflexivity. }
    exists w'. split; [exact Hrun|]. split; [exact Hn|].
    split; [exact Hf | exact Hfits].
Defined.

(** ** Between the query and the fetch *)

Lemma re_match_group1_all_eq env prefix texts w :
  re_match_group1_all env prefix texts w
  = (match mapM (re_match_digits env prefix) texts with
     | Some ds => Next ds
     | None => Raised no_group
     end, w).
Proof.
  induction texts as [|t rest IH]; simpl; [done|].
  unfold bind at 1, re_match_group1.
  destruct (re_match_digits env prefix t) as [d|]; simpl; [|done].
  unfold bind at 1. rewrite IH. by destruct (mapM _ rest).
Qed.

Lemma elem_of_argwhere_from files v : ∀ j i,
  i ∈ argwhere_from j files v ↔ (j ≤ i)%nat ∧ files !! (i - j)%nat = Some v.
Proof.
  induction files as [|b rest IH]; intros j i; simpl.
  { split; [by intros ?%elem_of_nil | by intros [_ ?]]. }
  assert (Hrest : i ∈ argwhere_from (S j) rest v ↔
                  (j < i)%nat ∧ (b :: rest) !! (i - j)%nat = Some v).
  { rewrite IH. split; intros [Hle H]; (split; [lia|]).
    - replace (i - j)%nat with (S (i - S j)) by lia. done.
    - replace (i - j)%nat with (S (i - S j)) in H by lia. done. }
  case_bool_decide as Hb.
  - rewrite elem_of_cons, Hrest. split.
    + intros [->|[Hlt H]]; [|split; [lia | done]].
      split; [lia|]. rewrite Nat.sub_diag. simpl. by rewrite Hb.
    + intros [Hle H]. destruct (decide (i = j)) as [->|Hne]; [by left|].
      right. split; [lia | done].
  - rewrite Hrest. split; [intros [Hlt H]; split; [lia | done]|].
    intros [Hle H]. split; [|done].
    destruct (decide (i = j)) as [->|Hne]; [|lia].
    rewrite Nat.sub_diag in H. simpl in H. congruence.
Qed.

Lemma elem_of_argwhere files v i :
  i ∈ argwhere files v ↔ files !! i = Some v.
Proof.
  unfold argwhere. rewrite elem_of_argwhere_from, Nat.sub_0_r.
  split; [by intros [_ ?] | intros; split; [lia | done]].
Qed.

Lemma elem_of_take_indices {A} (a : list A) ind x :
  x ∈ take_indices a ind ↔ ∃ i, i ∈ ind ∧ a !! i = Some x.
Proof. unfold take_indices. apply list_elem_of_omap. Qed.

Lemma dedup_frame TIC sectors names t w :
  let w' := (dedup TIC sectors names t w).2 in
  fs w' = fs w ∧ n_search w' = n_search w ∧
  n_download w' = n_download w ∧ n_to_fits w' = n_to_fits w.
Proof.
  repeat split; symmetry.
  - apply (run_rel_dedup (grows eq fs)); prim.
  - apply (run_rel_dedup (grows eq n_search)); prim.
  - apply (run_rel_dedup (grows eq n_download)); prim.
  - apply (run_rel_dedup (grows eq n_to_fits)); prim.
Qed.

(** What the filter hands on: the rows whose output name is not on disk. *)
Lemma dedup_next TIC sectors names t w t' w' :
  length names = length t →
  dedup TIC sectors names t w = (Next t', w') →
  ∀ r, r ∈ t' ↔
       ∃ i name, t !! i = Some r ∧ names !! i = Some name ∧
                 fs w !! name = None.
Proof.
  intros Hlen. unfold dedup.
  set (files := (λ file, bool_decide (is_Some (fs w !! file))) <$> names).
  assert (Hfiles : ∀ i b, files !! i = Some b ↔
            ∃ name, names !! i = Some name ∧
                    b = bool_decide (is_Some (fs w !! name))).
  { intros i b. subst files. rewrite list_lookup_fmap.
    destruct (names !! i) as [name|]; simpl;
      [|split; [done | by intros (? & ? & _)]].
    split; [intros [= <-]; eauto | intros (? & [= <-] & ->); done]. }
  assert (Habsent : ∀ i, files !! i = Some false ↔
            ∃ name, names !! i = Some name ∧ fs w !! name = None).
  { intros i. rewrite Hfiles. split; intros (name & Hn & H); exists name;
      (split; [done|]).
    - symmetry in H. apply bool_decide_eq_false in H.
      by apply eq_None_not_Some.
    - symmetry. apply bool_decide_eq_false. by apply eq_None_not_Some. }
  destruct (0 <? length (argwhere files true))%nat eqn:Hany.
  - unfold bind at 1. simpl.
    destruct (length (take_indices t (argwhere files false)) =? 0)%nat;
      [done|].
    intros [= <- _] r. rewrite elem_of_take_indices.
    setoid_rewrite elem_of_argwhere. setoid_rewrite Habsent.
    split; [intros (i & (name & ? & ?) & ?) | intros (i & name & ? & ? & ?)];
      eauto 10.
  - intros [= <- _] r. apply Nat.ltb_ge in Hany.
    assert (Hnone : argwhere files true = []).
    { destruct (argwhere files true); [done | simpl in Hany; lia]. }
    rewrite list_elem_of_lookup. split.
    + intros [i Hi]. exists i.
      destruct (lookup_lt_is_Some_2 names i) as [name Hname].
      { rewrite Hlen. by eapply lookup_lt_Some. }
      exists name. split; [done|]. split; [done|].
      destruct (fs w !! name) as [n|] eqn:Hfs; [|done].
      assert (Hin : i ∈ argwhere files true).
      { apply elem_of_argwhere, Hfiles. exists name. split; [done|].
        symmetry. apply bool_decide_eq_true. rewrite Hfs. eauto. }
      rewrite Hnone in Hin. by apply elem_of_nil in Hin.
    + intros (i & name & Hi & _). eauto.
Qed.

(** When every output name is on disk, the filter returns: nothing is
    left to fetch. *)
Lemma dedup_all_present TIC sectors names t w :
  names ≠ [] → (∀ name, name ∈ names → is_Some (fs w !! name)) →
  ∃ w', dedup TIC sectors names t w = (Returned, w') ∧
        last (stdout w') = Some (MsgNoNewImages TIC).
Proof.
  intros Hne Hall. unfold dedup.
  set (files := (λ file, bool_decide (is_Some (fs w !! file))) <$> names).
  assert (Hfiles : ∀ i b, files !! i = Some b → b = true).
  { intros i b. subst files. rewrite list_lookup_fmap.
    destruct (names !! i) as [name|] eqn:Hn; simpl; [|done].
    intros [= <-]. apply bool_decide_eq_true, Hall.
    apply list_elem_of_lookup. eauto. }
  assert (Hsome : (0 <? length (argwhere files true))%nat = true).
  { apply Nat.ltb_lt. destruct names as [|name names]; [done|].
    assert (H0 : 0%nat ∈ argwhere files true).
    { apply elem_of_argwhere. subst files. simpl.
      f_equal. apply bool_decide_eq_true, Hall. left. }
    destruct (argwhere files true); [by apply elem_of_nil in H0|].
    simpl. lia. }
  assert (Hnone : argwhere files false = []).
  { destruct (argwhere files false) as [|i rest] eqn:Harg; [done|].
    assert (Hi : i ∈ argwhere files false) by (rewrite Harg; left).
    apply elem_of_argwhere, Hfiles in Hi. done. }
  rewrite Hsome, Hnone. unfold bind at 1. simpl.
  eexists. split; [done|]. simpl. by rewrite last_snoc.
Qed.

(** The ways through [after_query]: either it ends before the fetch, the
    disk and the call counts as it found them, or the table has one
    identity, the target's, every descriptor yields its sector, and the
    function goes on to fetch what the filter left. *)
Lemma after_query_cases env TIC dir sz kw t w :
  let r := after_query env TIC dir sz kw t w in
  (r.1 ≠ Next () ∧ r.1 ≠ OutOfFuel ∧ fs r.2 = fs w ∧
   n_search r.2 = n_search w ∧ n_download r.2 = n_download w ∧
   n_to_fits r.2 = n_to_fits w) ∨
  (∃ id sectors t' w1,
     t ≠ [] ∧
     np_unique (targetid <$> t) = [id] ∧
     re_match_digits env "TIC " id = Some TIC ∧
     mapM (re_match_digits env "TESS Sector ") (observation <$> t) = Some sectors ∧
     dedup TIC sectors ((λ s, joinpath dir (fits_name TIC s)) <$> sectors) t w
     = (Next t', w1) ∧
     r = fetch_and_save env TIC dir sz kw t' w1).
Proof.
  intros r. assert (Hr : after_query env TIC dir sz kw t w = r) by done.
  clearbody r. revert Hr. unfold after_query.
  destruct (length t =? 0)%nat eqn:Hlen.
  { intros <-. left. by simpl. }
  assert (Ht : t ≠ []).
  { intros ->. done. }
  destruct (np_unique (targetid <$> t)) as [|id [|id' ids]] eqn:Hids;
    [intros <-; left; by simpl | | intros <-; left; by simpl].
  unfold bind at 1, re_match_group1.
  destruct (re_match_digits env "TIC " id) as [_TIC|] eqn:Hid;
    [|intros <-; left; by simpl].
  simpl. case_bool_decide as Heq; simpl; [|intros <-; left; by simpl].
  subst _TIC. unfold bind at 1. rewrite re_match_group1_all_eq.
  destruct (mapM _ (observation <$> t)) as [sectors|] eqn:Hsec;
    [|intros <-; left; by simpl].
  unfold bind at 1.
  pose proof (dedup_frame TIC sectors
                ((λ s, joinpath dir (fits_name TIC s)) <$> sectors) t w) as Hfr.
  pose proof (runs_fine_dedup (λ _, False) TIC sectors
                ((λ s, joinpath dir (fits_name TIC s)) <$> sectors) t w) as Hfine.
  destruct (dedup TIC sectors _ t w) as [[t'| |e|] w1] eqn:Hdedup;
    simpl in Hfr, Hfine; try done; intros <-.
  - right. exists id, sectors, t', w1. done.
  - left. simpl. destruct Hfr as (? & ? & ? & ?). done.
Qed.

(** ** The ways through [download_tesscuts_single] *)

(** Either an argument is rejected and the world is untouched, or the
    output directory is set up and the query loop runs; the loop either
    returns or hands an answer of the archive to [after_query]. *)
Lemma download_tesscuts_single_cases env TIC kw w :
  let r := download_tesscuts_single env TIC kw w in
  (∃ e, r = (Raised e, w) ∧
        (isinstance_str TIC = false ∨ isinstance_Path (outputdir kw) = false ∨
         isinstance_int (imsize kw) = false ∨
         ∃ dir, outputdir kw = PyPath dir ∧ ¬ dir_usable env dir w)) ∨
  (∃ tic dir,
     TIC = PyStr tic ∧ outputdir kw = PyPath dir ∧
     isinstance_int (imsize kw) = true ∧ dir_usable env dir w ∧
     let w0 := (ensure_outputdir env dir w).2 in
     let maxq := max_tries_MASTquery kw in
     ((∃ w1, query_loop env (query_fuel maxq) tic maxq 1 w0 = (Returned, w1) ∧
             r = (Returned, w1)) ∨
      (∃ t w1 n, query_loop env (query_fuel maxq) tic maxq 1 w0 = (Next t, w1) ∧
                 search_tesscut env n ("TIC " +:+ tic) = inr t ∧
                 r = after_query env tic dir (int_value (imsize kw)) kw t w1))).
Proof.
  intros r. subst r.
  destruct TIC as [| | | |tic| |];
    try (left; eexists; split; [reflexivity|]; by left).
  destruct (outputdir kw) as [| | | | |dir|] eqn:Hout;
    try (left; unfold download_tesscuts_single; rewrite Hout;
         eexists; split; [reflexivity|]; right; by left).
  destruct (isinstance_int (imsize kw)) eqn:Hint.
  2:{ left. unfold download_tesscuts_single. rewrite Hout, Hint.
      eexists. split; [reflexivity|]. right; right; by left. }
  destruct (ensure_outputdir_cases env dir w)
    as [[Hdir _]|(Hbad & e & He & _)].
  2:{ left. unfold download_tesscuts_single. rewrite Hout, Hint. cbn [negb].
      exists e. split; [by apply bind_raised|].
      right; right; right. by exists dir. }
  right. exists tic, dir.
  do 3 (split; [done|]). split; [exact Hdir|].
  rewrite (download_tesscuts_single_valid env tic dir kw w Hout Hint Hdir).
  intros w0 maxq.
  pose proof (runs_fine_query_loop (λ _, False) env (query_fuel maxq) tic
                  maxq 1 ltac:(unfold query_fuel; lia) w0) as Hfine.
  destruct (query_loop env (query_fuel maxq) tic maxq 1 w0)
    as [[t| |e|] w1] eqn:Hq; simpl in Hfine; try done.
  - right. destruct (query_loop_answer _ _ _ _ _ _ _ _ Hq) as (n & _ & Hn).
    exists t, w1, n. split; [done|]. split; [done|].
    exact (bind_next _ _ _ _ _ Hq).
  - left. exists w1. split; [done|]. exact (bind_returned _ _ _ _ Hq).
Qed.

(** ** Caps below one (C10) *)

Lemma fetch_and_save_cap_below env TIC dir sz kw t w :
  max_tries kw < 1 →
  fetch_and_save env TIC dir sz kw t w
  = (Returned, (print (MsgFetchSkipped TIC (max_tries kw)) w).2).
Proof.
  intros Hcap. unfold fetch_and_save, fetch_fuel.
  apply bind_returned. by apply fetch_loop_cap_below.
Qed.

Lemma after_query_cap_below env TIC dir sz kw t w :
  max_tries kw < 1 →
  let r := after_query env TIC dir sz kw t w in
  r.1 ≠ Next () ∧ fs r.2 = fs w ∧ n_search r.2 = n_search w ∧
  n_download r.2 = n_download w ∧ n_to_fits r.2 = n_to_fits w.
Proof.
  intros Hcap r.
  destruct (after_query_cases env TIC dir sz kw t w)
    as [(H1 & _ & H)|(id & sectors & t' & w1 & _ & _ & _ & _ & Hdedup & Hr)].
  { done. }
  fold r in Hr. rewrite Hr, (fetch_and_save_cap_below _ _ _ _ _ _ _ Hcap).
  pose proof (dedup_frame TIC sectors
                ((λ s, joinpath dir (fits_name TIC s)) <$> sectors) t w) as Hfr.
  rewrite Hdedup in Hfr. simpl in *. destruct Hfr as (? & ? & ? & ?). done.
Qed.

(** C10.  With [max_tries_MASTquery < 1] the function makes no archive
    search at all, and, when its arguments are accepted and the output
    directory is there or [mkdir] makes it, returns after printing that
    the target is skipped.  With [max_tries < 1] it makes no
    bulk fetch and no write: it never gets to saving, and once the filter
    has left rows to fetch, the fetch phase returns at once after printing
    that the target is skipped. *)
Theorem C10_cap_below_one_no_attempt env TIC kw w :
  let r := download_tesscuts_single env TIC kw w in
  (max_tries_MASTquery kw < 1 →
     n_search r.2 = n_search w ∧
     ∀ tic dir,
       TIC = PyStr tic → outputdir kw = PyPath dir →
       isinstance_int (imsize kw) = true → dir_usable env dir w →
       r.1 = Returned ∧
       stdout r.2 = stdout w ++ [MsgQuerySkipped tic (max_tries_MASTquery kw)]) ∧
  (max_tries kw < 1 →
     n_download r.2 = n_download w ∧ n_to_fits r.2 = n_to_fits w ∧
     r.1 ≠ Next () ∧
     ∀ tic dir sz t w1,
       fetch_and_save env tic dir sz kw t w1
       = (Returned, (print (MsgFetchSkipped tic (max_tries kw)) w1).2)).
Proof.
  intros r.
  pose proof (download_tesscuts_single_cases env TIC kw w) as Hcases.
  cbv zeta in Hcases. fold r in Hcases. split.
  - intros Hcap.
    assert (Hskip : ∀ tic dir,
              query_loop env (query_fuel (max_tries_MASTquery kw)) tic
                (max_tries_MASTquery kw) 1 (ensure_outputdir env dir w).2
              = (Returned,
                 (print (MsgQuerySkipped tic (max_tries_MASTquery kw))
                    (ensure_outputdir env dir w).2).2)).
    { intros tic dir. apply query_loop_cap_below; [lia | done]. }
    split.
    + destruct Hcases as [(e & -> & _)|(tic & dir & _ & _ & _ & _ & Hq)];
        [done|].
      rewrite Hskip in Hq.
      destruct Hq as [(w1 & [= <-] & ->)|(t & w1 & n & [=] & _)].
      simpl. by destruct (ensure_outputdir_frame env dir w) as (_ & -> & _).
    + intros tic dir -> Hout Hint Hdir. subst r.
      rewrite (download_tesscuts_single_valid env tic dir kw w Hout Hint Hdir).
      rewrite (bind_returned _ _ _ _ (Hskip tic dir)). simpl.
      by destruct (ensure_outputdir_frame env dir w) as (-> & _).
  - intros Hcap. split; [|split; [|split]].
    4:{ intros. by apply fetch_and_save_cap_below. }
    all: destruct Hcases as [(e & -> & _)|(tic & dir & _ & _ & _ & _ & Hq)];
      [done|];
      destruct (ensure_outputdir_frame env dir w) as (_ & _ & Hd0 & Hf0 & _);
      pose proof (query_loop_frame env (query_fuel (max_tries_MASTquery kw))
                    tic (max_tries_MASTquery kw) 1 (ensure_outputdir env dir w).2)
        as Hfr;
      destruct Hq as [(w1 & Hq & ->)|(t & w1 & n & Hq & _ & ->)];
      rewrite Hq in Hfr; simpl in Hfr; destruct Hfr as (_ & Hd1 & Hf1 & _);
      try (simpl; congruence);
      destruct (after_query_cap_below env tic dir (int_value (imsize kw)) kw
                  t w1 Hcap) as (Hn & _ & _ & Hd2 & Hf2);
      first [exact Hn | congruence].
Qed.

(** Caps of 0: no search and no fetch, on an archive that would answer. *)
Lemma C10_cap_below_one_no_attempt_witness :
  let kw0 := mkKwargs (PyPath "tpfs") (PyInt 20) false 10 5 0 in
  let kw1 := mkKwargs (PyPath "tpfs") (PyInt 20) false 0 5 3 in
  let r0 := download_tesscuts_single env_nominal (PyStr "130415266") kw0
              w_empty in
  let r1 := download_tesscuts_single env_nominal (PyStr "130415266") kw1
              w_empty in
  (n_search r0.2 = 0%nat ∧ r0.1 = Returned ∧
   stdout r0.2 = [MsgQuerySkipped "130415266" 0]) ∧
  (n_download r1.2 = 0%nat ∧ n_to_fits r1.2 = 0%nat ∧ r1.1 ≠ Next ()).
Proof.
  intros kw0 kw1 r0 r1. split.
  - destruct (C10_cap_below_one_no_attempt env_nominal (PyStr "130415266")
                kw0 w_empty) as [H _].
    destruct H as [Hn H]; [reflexivity|].
    destruct (H "130415266" "tpfs" eq_refl eq_refl eq_refl) as [Hr Hout];
      [left; split; reflexivity|].
    split; [exact Hn|]. split; [exact Hr | exact Hout].
  - destruct (C10_cap_below_one_no_attempt env_nominal (PyStr "130415266")
                kw1 w_empty) as [_ H].
    destruct H as (Hd & Hf & Hr & _); [reflexivity|].
    split; [exact Hd|]. split; [exact Hf | exact Hr].
Defined.

(** ** Identity of the search results (C6) *)

(** C6.  When the rows of the search table carry more than one identity,
    or some row carries an identity whose number is not the target's,
    [after_query] ends without a fetch and without a write, the disk as it
    found it.  And whenever a run of [download_tesscuts_single] changes
    the FITS files on disk, it was handed a search table every row of
    which carries the target's number in its identity field. *)
Theorem C6_identity_mismatch_no_output env tic dir kw :
  (∀ sz t w,
     (∃ r1 r2, r1 ∈ t ∧ r2 ∈ t ∧ targetid r1 ≠ targetid r2) ∨
     (∃ r0, r0 ∈ t ∧ re_match_digits env "TIC " (targetid r0) ≠ Some tic) →
     let r := after_query env tic dir sz kw t w in
     r.1 ≠ Next () ∧ n_download r.2 = n_download w ∧
     n_to_fits r.2 = n_to_fits w ∧ fs r.2 = fs w) ∧
  (∀ w,
     outputdir kw = PyPath dir →
     let r := download_tesscuts_single env (PyStr tic) kw w in
     fits_files r.2 ≠ fits_files w →
     ∃ n t, search_tesscut env n ("TIC " +:+ tic) = inr t ∧
            ∀ r0, r0 ∈ t → re_match_digits env "TIC " (targetid r0) = Some tic).
Proof.
  assert (Hmis : ∀ sz t w,
     (∃ r1 r2, r1 ∈ t ∧ r2 ∈ t ∧ targetid r1 ≠ targetid r2) ∨
     (∃ r0, r0 ∈ t ∧ re_match_digits env "TIC " (targetid r0) ≠ Some tic) →
     let r := after_query env tic dir sz kw t w in
     r.1 ≠ Next () ∧ n_download r.2 = n_download w ∧
     n_to_fits r.2 = n_to_fits w ∧ fs r.2 = fs w).
  { intros sz t w Hbad r.
    destruct (after_query_cases env tic dir sz kw t w)
      as [(H1 & _ & Hfs & _ & Hd & Hf)|
          (id & sectors & t' & w1 & _ & Hids & Hid & _)]; [done|].
    exfalso. destruct Hbad as [(r1 & r2 & Hr1 & Hr2 & Hne)|(r0 & Hr0 & Hne)].
    - eapply (np_unique_two (targetid <$> t) (targetid r1) (targetid r2));
        [by apply list_elem_of_fmap_2 | by apply list_elem_of_fmap_2
        | done | exact Hids].
    - apply Hne. rewrite <- Hid. f_equal.
      apply (np_unique_singleton _ _ Hids). by apply list_elem_of_fmap_2. }
  split; [exact Hmis|].
  intros w Hout r Hchanged.
  pose proof (download_tesscuts_single_cases env (PyStr tic) kw w) as Hcases.
  cbv zeta in Hcases. fold r in Hcases.
  destruct Hcases as [(e & Hr & _)|(tic' & dir' & Htic & Hout' & _ & _ & Hq)].
  { rewrite Hr in Hchanged. done. }
  injection Htic as <-. rewrite Hout in Hout'. injection Hout' as <-.
  destruct (ensure_outputdir_frame env dir w) as (_ & _ & _ & _ & _ & Hfits0).
  pose proof (query_loop_frame env (query_fuel (max_tries_MASTquery kw))
                tic (max_tries_MASTquery kw) 1 (ensure_outputdir env dir w).2)
    as Hfr.
  destruct Hq as [(w1 & Hq & Hr)|(t & w1 & n & Hq & Hn & Hr)];
    rewrite Hq in Hfr; simpl in Hfr; destruct Hfr as (Hfs1 & _).
  { exfalso. apply Hchanged. rewrite Hr. simpl. rewrite <- Hfits0.
    unfold fits_files. by rewrite Hfs1. }
  exists n, t. split; [exact Hn|]. intros r0 Hr0.
  destruct (decide (re_match_digits env "TIC " (targetid r0) = Some tic))
    as [Hok|Hbad]; [exact Hok|].
  exfalso. apply Hchanged.
  destruct (Hmis (int_value (imsize kw)) t w1) as (_ & _ & _ & Hfs2).
  { right. by exists r0. }
  rewrite Hr, <- Hfits0. unfold fits_files. by rewrite Hfs2, Hfs1.
Qed.

(** A table with the identity of another target: no fetch, no write.  A
    run that leaves a file: the table carried the target's number. *)
Lemma C6_identity_mismatch_no_output_witness :
  (let r := after_query env_nominal "324123409" "tpfs" 20 kw_tpfs
              [row "14"] w_empty in
   r.1 ≠ Next () ∧ n_download r.2 = 0%nat ∧ n_to_fits r.2 = 0%nat ∧
   fs r.2 = ∅) ∧
  (∃ n t, search_tesscut env_nominal n "TIC 130415266" = inr t ∧
          ∀ r0, r0 ∈ t →
                re_match_digits env_nominal "TIC " (targetid r0) = Some "130415266").
Proof.
  split.
  - destruct (C6_identity_mismatch_no_output env_nominal "324123409" "tpfs"
                kw_tpfs) as [H _].
    apply (H 20 [row "14"] w_empty). right. exists (row "14").
    split; [left | discriminate].
  - destruct (C6_identity_mismatch_no_output env_nominal "130415266" "tpfs"
                kw_tpfs) as [_ H].
    apply (H w_empty eq_refl). vm_compute. discriminate.
Defined.

(** ** Arguments of the wrong type (C8) *)




(** ** Saving the payloads (C1) *)

Lemma save_all_app env TIC dir ow mc pre rest w :
  save_all env TIC dir ow mc (pre ++ rest) w
  = (save_all env TIC dir ow mc pre ;; save_all env TIC dir ow mc rest) w.
Proof.
  revert w. induction pre as [|tpf pre IH]; intros w; [done|].
  cbn [save_all app]. rewrite bind_assoc.
  apply bind_ext. intros [] wa. rewrite bind_assoc.
  apply bind_ext. intros [] wb. apply IH.
Qed.

(** No path leaves the disk. *)
Lemma paths_grow_to_fits env tpf p ow :
  run_rel (grows (⊆) paths) (try_to_fits env tpf p ow).
Proof.
  intros w. unfold grows, paths, try_to_fits.
  destruct (to_fits_fault _ _ _ _ _); simpl; [done|].
  rewrite dom_insert_L. set_solver.
Qed.

Lemma paths_grow_save_all env TIC dir ow mc tpfs :
  run_rel (grows (⊆) paths) (save_all env TIC dir ow mc tpfs).
Proof.
  apply (run_rel_save_all (grows (⊆) paths)); try prim.
  intros. apply paths_grow_to_fits.
Qed.

(** When the saving falls through, every payload has its file. *)
Lemma save_all_present env TIC dir ow mc tpfs : ∀ w w1,
  save_all env TIC dir ow mc tpfs w = (Next (), w1) →
  ∀ tpf, tpf ∈ tpfs → saved_as TIC dir tpf ∈ paths w1.
Proof.
  induction tpfs as [|tpf0 rest IH]; intros w w1 Hrun tpf Hin.
  { by apply elem_of_nil in Hin. }
  cbn [save_all] in Hrun.
  apply bind_inv_next in Hrun as ([] & wa & Hwrite & Hrun).
  apply bind_inv_next in Hrun as ([] & wb & Hprint & Hrun).
  apply elem_of_cons in Hin as [->|Hin]; [|by eapply IH].
  apply write_loop_written in Hwrite as [Hthere _].
  assert (Hwb : saved_as TIC dir tpf0 ∈ paths wb).
  { injection Hprint as <-. unfold paths. simpl. apply elem_of_dom.
    unfold saved_as. simpl in Hthere. rewrite Hthere. eauto. }
  pose proof (paths_grow_save_all env TIC dir ow mc rest wb) as Hgrow.
  rewrite Hrun in Hgrow. unfold grows in Hgrow. simpl in Hgrow. set_solver.
Qed.

(** C1, as the code has it.  When the five write attempts of a payload
    all fail, the function returns there: the payloads written before it
    keep their files, the disk is as those writes left it, and no write is
    attempted for any payload after it. *)
Theorem C1_failed_payload_ends_the_target env TIC dir ow mc pre tpf post w w1 :
  save_all env TIC dir ow mc pre w = (Next (), w1) →
  (∀ i, (i < 5)%nat →
     is_Some (to_fits_fault env (n_to_fits w1 + i) (fs w1)
                (saved_as TIC dir tpf) ow)) →
  ∃ w2, save_all env TIC dir ow mc (pre ++ tpf :: post) w = (Returned, w2) ∧
        fs w2 = fs w1 ∧ n_to_fits w2 = (n_to_fits w1 + 5)%nat ∧
        (∀ tpf0, tpf0 ∈ pre → saved_as TIC dir tpf0 ∈ paths w2) ∧
        last (stdout w2) = Some (MsgSaveSkipped TIC mc).
Proof.
  intros Hpre Hfail.
  destruct (write_loop_five_failures env TIC mc (header_set "TICID" TIC tpf)
              (saved_as TIC dir tpf) ow w1 Hfail)
    as (w2 & Hrun & Hn & _ & Hfs & _ & _ & Hlast).
  exists w2. split.
  - rewrite save_all_app, (bind_next _ _ _ _ _ Hpre).
    cbn [save_all]. by apply bind_returned.
  - split; [exact Hfs|]. split; [exact Hn|]. split; [|exact Hlast].
    intros tpf0 Hin. unfold paths. rewrite Hfs.
    by apply (save_all_present env TIC dir ow mc pre w w1 Hpre).
Qed.

(** Three payloads, the second unwritable: the first is saved, the
    function returns at the second. *)
Lemma C1_failed_payload_ends_the_target_witness :
  ∃ w1 w2,
    save_all env_unit2_unwritable "130415266" "tpfs" false 5
      [tpf_of 14] w_empty = (Next (), w1) ∧
    save_all env_unit2_unwritable "130415266" "tpfs" false 5
      ([tpf_of 14] ++ tpf_of 15 :: [tpf_of 16]) w_empty = (Returned, w2) ∧
    fs w2 = fs w1 ∧ n_to_fits w2 = 6%nat.
Proof.
  eexists.
  destruct (C1_failed_payload_ends_the_target env_unit2_unwritable
              "130415266" "tpfs" false 5 [tpf_of 14] (tpf_of 15) [tpf_of 16]
              w_empty _ eq_refl) as (w2 & Hrun & Hfs & Hn & _).
  { intros i Hi. simpl. eauto. }
  exists w2. split; [reflexivity|]. split; [exact Hrun|].
  split; [exact Hfs | exact Hn].
Defined.

(** C1, as the claim has it: three units are fetched, every write of the
    second fails, the writes of the first and the third would succeed.
    The file of the first unit is there; the file of the third is not, and
    no write was attempted for it: one write for the first unit, five for
    the second. *)
Lemma C1_third_unit_not_written :
  let r := download_tesscuts_single env_unit2_unwritable (PyStr "130415266")
             kw_tpfs w_empty in
  r.1 = Returned ∧
  is_Some (fs r.2 !! "tpfs/tess130415266_sec14.fits") ∧
  fs r.2 !! "tpfs/tess130415266_sec16.fits" = None ∧
  n_to_fits r.2 = 6%nat ∧
  to_fits_fault env_unit2_unwritable 6 (fs r.2)
    "tpfs/tess130415266_sec16.fits" false = None.
Proof. vm_compute. repeat split; eauto. Qed.

(** ** The progress marker (C9) *)

Lemma stdout_grows_single env TIC kw :
  run_rel (grows prefix stdout) (download_tesscuts_single env TIC kw).
Proof.
  set (dir := match outputdir kw with PyPath p => p | _ => EmptyString end).
  apply (run_rel_download_tesscuts_single (grows prefix stdout) env dir);
    try prim.
  - intros m _ w0. unfold grows. simpl. by apply prefix_app_r.
  - intros tpf name ow w0. unfold grows, try_to_fits.
    by destruct (to_fits_fault _ _ _ _ _).
  - intros p Hp. subst dir. by rewrite Hp.
Qed.

Global Instance no_new_marker_preorder : PreOrder no_new_marker.
Proof.
  split; unfold no_new_marker; [intros w | intros w1 w2 w3 H12 H23]; auto.
Qed.

(** The pipeline of a target prints no progress line. *)
Lemma no_new_marker_single env TIC kw :
  run_rel no_new_marker (download_tesscuts_single env TIC kw).
Proof.
  set (dir := match outputdir kw with PyPath p => p | _ => EmptyString end).
  apply (run_rel_download_tesscuts_single no_new_marker env dir);
    try (intros; intros w0 i n T H0; exact H0).
  - intros m Hm w0 i n T Hin. simpl in Hin.
    apply elem_of_app in Hin as [Hin|Hin]; [done|].
    apply list_elem_of_singleton in Hin. subst m. done.
  - intros w0. unfold no_new_marker, mkdir.
    by destruct (mkdir_fault _ _ _).
  - intros tpf name ow w0. unfold no_new_marker, try_to_fits.
    by destruct (to_fits_fault _ _ _ _ _).
  - intros p Hp. subst dir. by rewrite Hp.
Qed.

(** In a batch that ends, the line of every job is in what was printed. *)
Lemma Parallel_1_marks (l : list PyVal) : ∀ (mark : nat → PyVal → Msg)
    (body : nat → PyVal → M unit) w w1,
  (∀ i x, run_rel (grows prefix stdout) (body i x)) →
  Parallel_1 (imap (λ i x, print (mark i x) ;; body i x) l) w = (Next (), w1) →
  ∀ i x, l !! i = Some x →
    ∃ pre post, stdout w1 = stdout w ++ pre ++ mark i x :: post.
Proof.
  induction l as [|x0 l IH]; intros mark body w w1 Hbody Hrun i x Hi; [done|].
  cbn [imap Parallel_1] in Hrun.
  apply bind_inv_next in Hrun as ([] & wa & Hjob & Hrest).
  apply bind_inv_next in Hjob as ([] & wp & Hprint & Hb).
  injection Hprint as <-.
  pose proof (Hbody 0%nat x0 (print (mark 0%nat x0) w).2) as Hgrow.
  unfold grows in Hgrow. simpl in Hgrow. rewrite Hb in Hgrow.
  destruct Hgrow as [extra Hextra]. simpl in Hextra.
  assert (Hpost : ∃ rest, stdout w1 = stdout wa ++ rest).
  { clear -Hrest Hbody.
    assert (Hjobs : ∀ (f : nat → PyVal → M unit) l0,
              (∀ i x, run_rel (grows prefix stdout) (f i x)) →
              Forall (run_rel (grows prefix stdout)) (imap f l0)).
    { intros f l0. revert f.
      induction l0 as [|y l0 IH0]; intros f Hf; simpl; constructor;
        [apply Hf | apply IH0; intros; apply Hf]. }
    pose proof (run_rel_Parallel_1 (grows prefix stdout) _
                  (Hjobs _ l (λ i x, run_rel_bind (grows prefix stdout)
                     (print (mark (S i) x)) (λ _, body (S i) x)
                     (λ w0, prefix_app_r _ _ [mark (S i) x] (reflexivity _))
                     (λ _, Hbody (S i) x))) wa) as H.
    change (imap ((λ i x, print (mark i x) ;; body i x) ∘ S) l)
      with (imap (λ i x, print (mark (S i) x) ;; body (S i) x) l) in Hrest.
    rewrite Hrest in H. exact H. }
  destruct i as [|i].
  - injection Hi as <-. destruct Hpost as [rest Hrest'].
    exists [], (extra ++ rest). rewrite Hrest', Hextra. simpl.
    by rewrite <- !app_assoc.
  - simpl in Hi.
    destruct (IH (mark ∘ S) (body ∘ S) wa w1 (λ i x, Hbody (S i) x) Hrest
                i x Hi) as (pre & post & Heq).
    exists (mark 0%nat x0 :: extra ++ pre), post.
    rewrite Heq, Hextra. simpl. by rewrite <- !app_assoc.
Qed.

(** C9, as the code has it.  Handed a collection, the driver prints the
    line [Working on {i+1}/{n}] right before the pipeline of target [i]
    starts, for every target whose turn comes (the jobs before it having
    ended normally); in a batch that ends, the line of every target is in
    what the batch printed.  Handed a single target string, the driver
    prints no such line. *)
Theorem C9_marker_before_each_target_of_a_collection env l kw w :
  (∀ i TIC wi,
     l !! i = Some TIC →
     Parallel_1 (take i (delayed_jobs env l kw)) w = (Next (), wi) →
     Parallel_1 (take (S i) (delayed_jobs env l kw)) w
     = call (download_tesscuts_single env TIC kw)
         (print (MsgWorkingOn (Z.of_nat i + 1) (Z.of_nat (length l)) TIC)
            wi).2) ∧
  (∀ w', download_tesscuts env (PyList l) kw w = (Next (), w') →
     ∀ i TIC, l !! i = Some TIC →
       MsgWorkingOn (Z.of_nat i + 1) (Z.of_nat (length l)) TIC
       ∈ drop (length (stdout w)) (stdout w')) ∧
  (∀ tic, no_new_marker w (download_tesscuts env (PyStr tic) kw w).2).
Proof.
  split; [|split].
  3:{ intros tic. unfold download_tesscuts.
      cbn [isinstance_int isinstance_str].
      apply (run_rel_bind no_new_marker).
      - apply run_rel_call, no_new_marker_single.
      - intros _ w0 i n T Hin. simpl in Hin.
        apply elem_of_app in Hin as [Hin|Hin]; [done|].
        by apply list_elem_of_singleton in Hin. }
  - intros i TIC wi Hi Hbefore.
    assert (Hjob : delayed_jobs env l kw !! i
                   = Some (run_download_tesscuts_single env TIC i (length l) kw)).
    { unfold delayed_jobs. by rewrite list_lookup_imap, Hi. }
    rewrite (take_S_r _ _ _ Hjob), Parallel_1_app.
    rewrite (bind_next _ _ _ _ _ Hbefore). cbn [Parallel_1].
    rewrite bind_ret_unit. unfold run_download_tesscuts_single.
    by rewrite (bind_fst_next (print _) _ wi () eq_refl).
  - intros w' Hrun i TIC Hi. unfold download_tesscuts in Hrun.
    cbn [isinstance_int isinstance_str py_iter] in Hrun.
    apply bind_inv_next in Hrun as ([] & w1 & Hjobs & Hprint).
    injection Hprint as <-. unfold delayed_jobs in Hjobs.
    assert (Hbody : ∀ (j : nat) x,
              run_rel (grows prefix stdout)
                (call (download_tesscuts_single env x kw))).
    { intros j x. apply run_rel_call, stdout_grows_single. }
    destruct (Parallel_1_marks l
                (λ i TIC, MsgWorkingOn (Z.of_nat i + 1) (Z.of_nat (length l)) TIC)
                (λ i TIC, call (download_tesscuts_single env TIC kw)) w w1
                Hbody Hjobs i TIC Hi) as (pre & post & Heq).
    simpl. rewrite Heq, <- app_assoc, drop_app_length.
    rewrite !elem_of_app. left. right. left.
Qed.

(** Two targets: the second pipeline starts right after [Working on 2/2],
    and both lines are in what the batch printed. *)
Lemma C9_marker_before_each_target_of_a_collection_witness :
  let l := [PyStr "130415266"; PyStr "324123409"] in
  let r1 := Parallel_1 (take 1 (delayed_jobs env_nominal l kw_tpfs)) w_empty in
  let r := download_tesscuts env_nominal (PyList l) kw_tpfs w_empty in
  Parallel_1 (take 2 (delayed_jobs env_nominal l kw_tpfs)) w_empty
  = call (download_tesscuts_single env_nominal (PyStr "324123409") kw_tpfs)
      (print (MsgWorkingOn 2 2 (PyStr "324123409")) r1.2).2 ∧
  MsgWorkingOn 2 2 (PyStr "324123409") ∈ drop 0 (stdout r.2).
Proof.
  intros l r1 r.
  destruct (C9_marker_before_each_target_of_a_collection env_nominal l
              kw_tpfs w_empty) as (H1 & H2 & _).
  split.
  - apply (H1 1%nat (PyStr "324123409") r1.2); [reflexivity|].
    vm_compute. reflexivity.
  - apply (H2 r.2 (ltac:(vm_compute; reflexivity)) 1%nat (PyStr "324123409")).
    reflexivity.
Defined.

(** C9, as the claim has it: handed a single target string, the driver
    runs the pipeline of that target, here down to the saved file, and
    prints no [Working on] line at all. *)
Lemma C9_single_string_no_marker :
  let r := download_tesscuts env_nominal (PyStr "130415266") kw_tpfs w_empty in
  r.1 = Next () ∧
  stdout r.2 = [MsgSaved "tpfs/tess130415266_sec14.fits"; MsgCleanCache] ∧
  ∀ i n TIC, MsgWorkingOn i n TIC ∉ stdout r.2.
Proof.
  assert (Hout : stdout (download_tesscuts env_nominal (PyStr "130415266")
                           kw_tpfs w_empty).2
                 = [MsgSaved "tpfs/tess130415266_sec14.fits"; MsgCleanCache])
    by (vm_compute; reflexivity).
  split; [vm_compute; reflexivity|]. split; [exact Hout|].
  intros i n TIC Hin. rewrite Hout in Hin.
  apply elem_of_cons in Hin as [Hin|Hin]; [discriminate|].
  apply elem_of_cons in Hin as [Hin|Hin]; [discriminate|].
  by apply elem_of_nil in Hin.
Qed.

(** ** Which exceptions escape (C2) *)

Lemma joinpath_ne dir name : joinpath dir name ≠ dir.
Proof.
  unfold joinpath. induction dir as [|c dir IH]; simpl; [done|].
  intros H. injection H as H. by apply IH.
Qed.

Global Instance stays_dir_preorder dir : PreOrder (stays_dir dir).
Proof.
  split; unfold stays_dir; [intros w | intros w1 w2 w3 ? ?]; auto.
Qed.

Lemma stays_dir_single env dir TIC kw :
  outputdir kw = PyPath dir →
  run_rel (stays_dir dir) (download_tesscuts_single env TIC kw).
Proof.
  intros Hout.
  apply (run_rel_download_tesscuts_single (stays_dir dir) env dir);
    try (intros; intros w0 H0; exact H0).
  - intros w. unfold stays_dir, mkdir.
    destruct (mkdir_fault _ _ _); simpl; [done|].
    by rewrite lookup_insert_eq.
  - intros tpf name ow w. unfold stays_dir, try_to_fits.
    destruct (to_fits_fault _ _ _ _ _); simpl; [done|].
    by rewrite lookup_insert_ne by apply joinpath_ne.
  - intros p Hp. congruence.
Qed.

Section FineAfterQuery.

Context (allowed : Exc → Prop) (env : Env).

Lemma runs_fine_after_query TIC dir sz kw t :
  allowed no_group ∨ Forall (row_matches env) t →
  runs_fine allowed (after_query env TIC dir sz kw t).
Proof.
  intros Hok. unfold after_query.
  destruct (length t =? 0)%nat; [apply runs_fine_print_return|].
  assert (Hmulti : ∀ ids, runs_fine allowed
            (print (MsgMultipleIds ids) ;; print MsgNoFitsSaved ;; @return_ unit)).
  { intros ids. apply runs_fine_bind; [apply runs_fine_print|]. intros _.
    apply runs_fine_print_return. }
  destruct (np_unique (targetid <$> t)) as [|id [|id' ids]] eqn:Hids;
    try apply Hmulti.
  apply runs_fine_bind.
  { apply runs_fine_re_match_group1. destruct Hok as [Hok|Hok]; [by left|].
    right. assert (Hin : id ∈ targetid <$> t).
    { apply elem_of_np_unique. rewrite Hids. left. }
    apply list_elem_of_fmap in Hin as (r & -> & Hr).
    rewrite Forall_forall in Hok. by destruct (Hok r Hr). }
  intros _TIC. destruct (negb _).
  { apply runs_fine_bind; [apply runs_fine_print|]. intros _.
    apply runs_fine_print_return. }
  apply runs_fine_bind.
  { apply runs_fine_re_match_group1_all.
    destruct Hok as [Hok|Hok]; [by left|]. right.
    apply Forall_fmap. eapply Forall_impl; [exact Hok|].
    by intros r [_ H]. }
  intros sectors. apply runs_fine_bind; [apply runs_fine_dedup|].
  intros t'. apply runs_fine_fetch_and_save.
Qed.

End FineAfterQuery.

(** The function always ends, given the fuel of [query_fuel],
    [fetch_fuel] and [write_fuel]. *)
Lemma download_tesscuts_single_ends env TIC kw w :
  (download_tesscuts_single env TIC kw w).1 ≠ OutOfFuel.
Proof.
  destruct (download_tesscuts_single_cases env TIC kw w)
    as [(e & -> & _)|(tic & dir & _ & _ & _ & _ & [(w1 & _ & ->)|H])];
    [done | done |].
  destruct H as (t & w1 & n & _ & _ & ->).
  pose proof (runs_fine_after_query (λ _, True) env tic dir
                (int_value (imsize kw)) kw t (or_introl I) w1) as Hfine.
  intros H. by rewrite H in Hfine.
Qed.


Lemma stays_dir_after_query env TIC dir sz kw t :
  run_rel (stays_dir dir) (after_query env TIC dir sz kw t).
Proof.
  apply (run_rel_after_query (stays_dir dir) env dir);
    try (intros; intros w0 H0; exact H0).
  intros tpf name ow w. unfold stays_dir, try_to_fits.
  destruct (to_fits_fault _ _ _ _ _); simpl; [done|].
  by rewrite lookup_insert_ne by apply joinpath_ne.
Qed.

Lemma stays_dir_query_then_after env tic dir sz kw :
  run_rel (stays_dir dir)
    (tesscuts <- query_loop env (query_fuel (max_tries_MASTquery kw)) tic
                   (max_tries_MASTquery kw) 1 ;;
     after_query env tic dir sz kw tesscuts).
Proof.
  apply run_rel_bind; [apply _| |intros t; apply stays_dir_after_query].
  apply (run_rel_query_loop (stays_dir dir) env);
    intros; intros w0 H0; exact H0.
Qed.

(** With well-typed arguments and a usable output directory, the output
    directory is a directory when the function ends, however it ends. *)
Lemma download_tesscuts_single_leaves_dir env tic dir kw w :
  outputdir kw = PyPath dir → isinstance_int (imsize kw) = true →
  dir_usable env dir w →
  fs (download_tesscuts_single env (PyStr tic) kw w).2 !! dir = Some Dir.
Proof.
  intros Hout Hint Huse.
  rewrite (download_tesscuts_single_valid env tic dir kw w Hout Hint Huse).
  destruct (ensure_outputdir_usable env dir w Huse) as [_ Hd].
  by apply (stays_dir_query_then_after env tic dir (int_value (imsize kw)) kw
              (ensure_outputdir env dir w).2).
Qed.



(** *** What the retry loops print

    Each loop prints the exception it catches: a line naming it is among
    those the loop adds. *)







(** ** Running twice (C7) *)

Lemma ensure_outputdir_dir env dir w :
  fs w !! dir = Some Dir → ensure_outputdir env dir w = (Next (), w).
Proof.
  intros H. unfold ensure_outputdir, bind, path_exists, path_is_dir.
  rewrite bool_decide_eq_true_2 by (rewrite H; eauto). by rewrite H.
Qed.

(** Once the identity and the descriptors of a table are read, what is
    left of [after_query] is the filter, the fetch and the saving. *)
Lemma after_query_resolved env TIC dir sz kw t id sectors w :
  t ≠ [] →
  np_unique (targetid <$> t) = [id] →
  re_match_digits env "TIC " id = Some TIC →
  mapM (re_match_digits env "TESS Sector ") (observation <$> t) = Some sectors →
  after_query env TIC dir sz kw t w
  = (t' <- dedup TIC sectors
             ((λ s, joinpath dir (fits_name TIC s)) <$> sectors) t ;;
     fetch_and_save env TIC dir sz kw t') w.
Proof.
  intros Ht Hids Hid Hsec. unfold after_query.
  destruct t as [|r0 t]; [done|]. cbn [length Nat.eqb]. rewrite Hids.
  assert (H1 : re_match_group1 env "TIC " id w = (Next TIC, w)).
  { unfold re_match_group1. by rewrite Hid. }
  rewrite (bind_next _ _ _ _ _ H1).
  rewrite bool_decide_eq_true_2 by done. cbn [negb].
  assert (H2 : re_match_group1_all env "TESS Sector " (observation <$> r0 :: t) w
               = (Next sectors, w)).
  { by rewrite re_match_group1_all_eq, Hsec. }
  by rewrite (bind_next _ _ _ _ _ H2).
Qed.

(** The filter reads the disk and nothing else, and leaves it as it is. *)
Lemma dedup_depends_on_fs TIC sectors names t wa wb :
  fs wa = fs wb →
  (dedup TIC sectors names t wa).1 = (dedup TIC sectors names t wb).1 ∧
  fs (dedup TIC sectors names t wa).2 = fs wa.
Proof.
  intros Hfs. split; [|apply dedup_frame].
  unfold dedup. rewrite Hfs.
  destruct (0 <? _)%nat; [|done].
  unfold bind at 1 3. simpl. by destruct (_ =? 0)%nat.
Qed.

Section TwoRuns.

Context (env : Env) (tic dir : string) (kw : Kwargs) (t : list Row).

(** The catalogue is stable: the search, when it answers, answers [t]. *)
Hypothesis Hstable :
  ∀ n t', search_tesscut env n ("TIC " +:+ tic) = inr t' → t' = t.

(** The payloads fetched for rows of [t] carry the sector labels of those
    rows. *)
Hypothesis Hlabels :
  ∀ n t' sz tpfs,
    download_all env n t' sz = inr tpfs → t' ⊆ t →
    ∀ r d, r ∈ t' →
      re_match_digits env "TESS Sector " (observation r) = Some d →
      ∃ tpf, tpf ∈ tpfs ∧ pretty (sector tpf) = d.

Hypothesis Hout : outputdir kw = PyPath dir.

(** After a run that went through the saving, the table is resolved, the
    directory is there and every unit of the table has its file. *)
Lemma first_run_leaves_every_unit w0 w1 :
  download_tesscuts_single env (PyStr tic) kw w0 = (Next (), w1) →
  ∃ id sectors,
    t ≠ [] ∧ np_unique (targetid <$> t) = [id] ∧
    re_match_digits env "TIC " id = Some tic ∧
    mapM (re_match_digits env "TESS Sector ") (observation <$> t) = Some sectors ∧
    isinstance_int (imsize kw) = true ∧
    fs w1 !! dir = Some Dir ∧
    ∀ s, s ∈ sectors → joinpath dir (fits_name tic s) ∈ paths w1.
Proof.
  intros Hrun.
  destruct (download_tesscuts_single_cases env (PyStr tic) kw w0)
    as [(e & He & _)|(tic' & dir' & Htic & Hout' & Hint & Hdir & Hq)].
  { rewrite Hrun in He. done. }
  injection Htic as <-. rewrite Hout in Hout'. injection Hout' as <-.
  cbv zeta in Hq.
  set (maxq := max_tries_MASTquery kw) in *.
  set (we := (ensure_outputdir env dir w0).2) in *.
  destruct Hq as [(wq & _ & Hr)|(t1 & wq & n & Hq & Hn & Hr)].
  { rewrite Hrun in Hr. done. }
  apply Hstable in Hn as ->. rewrite Hrun in Hr. symmetry in Hr.
  assert (Hdirq : fs wq !! dir = Some Dir).
  { pose proof (query_loop_frame env (query_fuel maxq) tic maxq 1 we) as Hfr.
    rewrite Hq in Hfr. simpl in Hfr. destruct Hfr as (-> & _).
    by apply ensure_outputdir_usable. }
  assert (Hdir1 : fs w1 !! dir = Some Dir).
  { pose proof (stays_dir_after_query env tic dir (int_value (imsize kw))
                  kw t wq) as Hst.
    rewrite Hr in Hst. by apply Hst. }
  destruct (after_query_cases env tic dir (int_value (imsize kw)) kw t wq)
    as [(Hnot & _)|(id & sectors & t' & wd & Ht & Hids & Hid & Hsec & Hdedup & Hfs)].
  { rewrite Hr in Hnot. done. }
  rewrite Hr in Hfs. symmetry in Hfs.
  exists id, sectors. do 6 (split; [done|]).
  unfold fetch_and_save in Hfs.
  apply bind_inv_next in Hfs as (tpfs & wf & Hfetch & Hsave).
  pose proof (fetch_loop_frame env (fetch_fuel (max_tries kw)) tic t'
                (int_value (imsize kw)) (max_tries kw) 1 wd) as Hfr.
  rewrite Hfetch in Hfr. simpl in Hfr. destruct Hfr as (Hfsf & _).
  pose proof (dedup_frame tic sectors
                ((λ s, joinpath dir (fits_name tic s)) <$> sectors) t wq)
    as Hfr.
  rewrite Hdedup in Hfr. simpl in Hfr. destruct Hfr as (Hfsd & _).
  apply fetch_loop_answer in Hfetch as [nd Hnd].
  pose proof (mapM_Some_1 _ _ _ Hsec) as Hall.
  assert (Hlen : length ((λ s, joinpath dir (fits_name tic s)) <$> sectors)
                 = length t).
  { rewrite length_fmap. apply Forall2_length in Hall.
    by rewrite length_fmap in Hall. }
  pose proof (dedup_next tic sectors _ t wq t' wd Hlen Hdedup) as Hkept.
  assert (Hsub : t' ⊆ t).
  { intros r Hr'. apply Hkept in Hr' as (i & name & Hi & _).
    apply list_elem_of_lookup. eauto. }
  intros s Hs. apply list_elem_of_lookup in Hs as [i Hi].
  destruct (Forall2_lookup_r _ _ _ _ _ Hall Hi) as (o & Ho & Hmatch).
  rewrite list_lookup_fmap in Ho.
  destruct (t !! i) as [r|] eqn:Hti; [|done]. injection Ho as <-.
  set (name := joinpath dir (fits_name tic s)).
  assert (Hname : ((λ s, joinpath dir (fits_name tic s)) <$> sectors) !! i
                  = Some name).
  { by rewrite list_lookup_fmap, Hi. }
  pose proof (paths_grow_save_all env tic dir (overwrite kw) (max_counter kw)
                tpfs wf) as Hgrow.
  rewrite Hsave in Hgrow. unfold grows in Hgrow. simpl in Hgrow.
  destruct (fs wq !! name) as [node|] eqn:Hfsn.
  - apply Hgrow. unfold paths. rewrite Hfsf, Hfsd. apply elem_of_dom.
    rewrite Hfsn. eauto.
  - assert (Hr' : r ∈ t') by (apply Hkept; eauto 10).
    destruct (Hlabels nd t' _ tpfs Hnd Hsub r s Hr' Hmatch) as (tpf & Htpf & Hl).
    pose proof (save_all_present env tic dir (overwrite kw) (max_counter kw)
                  tpfs wf w1 Hsave tpf Htpf) as Hthere.
    unfold saved_as in Hthere. rewrite Hl in Hthere. exact Hthere.
Qed.

End TwoRuns.

(** C7, as the code has it.  After a run that went through the saving, on
    a stable catalogue (the search, when it answers, answers the table
    [t]) whose payloads carry the sector labels of the rows they were
    fetched for (the decimal print of a payload's sector is the digits of
    a row's descriptor, for each row fetched), every unit of the table has
    its file.  A second run over the same target then ends before any
    fetch: it returns, the disk is what the first run left, no fetch and
    no write is made, and the last line printed is that of the filter
    finding nothing new (or, when the archive no longer answers, that of
    the query giving up).  This holds whatever [overwrite] is, so in
    particular with [overwrite=False].  The filter itself reads the disk
    only and leaves it as it is: on the same disk it gives the same
    answer. *)
Theorem C7_second_run_skips_every_unit env tic dir kw t w0 w1 :
  outputdir kw = PyPath dir →
  (∀ n t', search_tesscut env n ("TIC " +:+ tic) = inr t' → t' = t) →
  (∀ n t' sz tpfs,
     download_all env n t' sz = inr tpfs → t' ⊆ t →
     ∀ r d, r ∈ t' →
       re_match_digits env "TESS Sector " (observation r) = Some d →
       ∃ tpf, tpf ∈ tpfs ∧ pretty (sector tpf) = d) →
  download_tesscuts_single env (PyStr tic) kw w0 = (Next (), w1) →
  let r2 := download_tesscuts_single env (PyStr tic) kw w1 in
  (∀ r d, r ∈ t →
     re_match_digits env "TESS Sector " (observation r) = Some d →
     joinpath dir (fits_name tic d) ∈ paths w1) ∧
  r2.1 = Returned ∧ fs r2.2 = fs w1 ∧
  n_download r2.2 = n_download w1 ∧ n_to_fits r2.2 = n_to_fits w1 ∧
  (last (stdout r2.2) = Some (MsgNoNewImages tic) ∨
   last (stdout r2.2) = Some (MsgQuerySkipped tic (max_tries_MASTquery kw))) ∧
  (∀ TIC sectors names t' wa wb,
     fs wa = fs wb →
     (dedup TIC sectors names t' wa).1 = (dedup TIC sectors names t' wb).1 ∧
     fs (dedup TIC sectors names t' wa).2 = fs wa).
Proof.
  intros Hout Hstable Hlabels Hrun r2.
  destruct (first_run_leaves_every_unit env tic dir kw t Hstable Hlabels Hout
              w0 w1 Hrun)
    as (id & sectors & Ht & Hids & Hid & Hsec & Hint & Hdir1 & Hthere).
  pose proof (mapM_Some_1 _ _ _ Hsec) as Hall.
  split.
  { intros r d Hr Hd. apply Hthere.
    apply list_elem_of_lookup in Hr as [i Hi].
    destruct (Forall2_lookup_l _ (observation <$> t) sectors i (observation r)
                Hall) as (s & Hs & Hmatch).
    { by rewrite list_lookup_fmap, Hi. }
    rewrite Hd in Hmatch. injection Hmatch as ->.
    apply list_elem_of_lookup. eauto. }
  split; [|split; [|split; [|split; [|split]]]].
  6:{ intros. by apply dedup_depends_on_fs. }
  all: subst r2;
    rewrite (download_tesscuts_single_valid env tic dir kw w1 Hout Hint
               (or_intror Hdir1));
    rewrite (ensure_outputdir_dir env dir w1 Hdir1); cbn [snd];
    set (maxq := max_tries_MASTquery kw);
    pose proof (query_loop_frame env (query_fuel maxq) tic maxq 1 w1) as Hfr;
    pose proof (runs_fine_query_loop (λ _, False) env (query_fuel maxq) tic
                  maxq 1 ltac:(unfold query_fuel; lia) w1) as Hfine;
    destruct (query_loop env (query_fuel maxq) tic maxq 1 w1)
      as [[t2| |e|] wq] eqn:Hq; simpl in Hfr, Hfine; try done;
    destruct Hfr as (Hfsq & Hdq & Hfq & _).
  all: try (rewrite (bind_returned _ _ _ _ Hq); simpl; try done).
  6:{ right. by eapply query_loop_returned_last. }
  all: destruct (query_loop_answer _ _ _ _ _ _ _ _ Hq) as (n & _ & Hn);
    apply Hstable in Hn as ->;
    rewrite (bind_next _ _ _ _ _ Hq);
    rewrite (after_query_resolved env tic dir _ kw t id sectors wq
               Ht Hids Hid Hsec);
    destruct (dedup_all_present tic sectors
                ((λ s, joinpath dir (fits_name tic s)) <$> sectors) t wq)
      as (wd & Hdedup & Hlast);
    [ intros Hnil; apply fmap_nil_inv in Hnil; subst sectors;
      apply Forall2_length in Hall; rewrite length_fmap in Hall;
      destruct t; done
    | intros name Hname; apply list_elem_of_fmap in Hname as (s & -> & Hs);
      apply elem_of_dom; rewrite Hfsq; by apply Hthere
    | ];
    pose proof (dedup_frame tic sectors
                  ((λ s, joinpath dir (fits_name tic s)) <$> sectors) t wq)
      as Hfr;
    rewrite Hdedup in Hfr; simpl in Hfr; destruct Hfr as (Hfsd & _ & Hdd & Hfd);
    rewrite (bind_returned _ _ _ _ Hdedup); simpl;
    first [done | congruence | by left].
Qed.

(** A first run on an empty disk saves sector 14; the second run returns
    without a fetch, the disk as the first run left it. *)
Lemma C7_second_run_skips_every_unit_witness :
  let w1 := (download_tesscuts_single env_nominal (PyStr "130415266") kw_tpfs
               w_empty).2 in
  let r2 := download_tesscuts_single env_nominal (PyStr "130415266") kw_tpfs
              w1 in
  "tpfs/tess130415266_sec14.fits" ∈ paths w1 ∧
  r2.1 = Returned ∧ fs r2.2 = fs w1 ∧
  n_download r2.2 = n_download w1 ∧ n_to_fits r2.2 = n_to_fits w1.
Proof.
  intros w1 r2.
  assert (Hstable : ∀ (n : nat) t',
            search_tesscut env_nominal n ("TIC " +:+ "130415266") = inr t' →
            t' = [row "14"]).
  { intros n t' H. injection H as <-. reflexivity. }
  assert (Hlabels : ∀ (n : nat) t' (sz : Z) tpfs,
            download_all env_nominal n t' sz = inr tpfs → t' ⊆ [row "14"] →
            ∀ r d, r ∈ t' →
              re_match_digits env_nominal "TESS Sector " (observation r) = Some d →
              ∃ tpf, tpf ∈ tpfs ∧ pretty (sector tpf) = d).
  { intros n t' sz tpfs H Hsub r d Hr Hd. injection H as <-.
    apply Hsub, list_elem_of_singleton in Hr. subst r.
    injection Hd as <-. exists (tpf_of 14). split; [left | reflexivity]. }
  destruct (C7_second_run_skips_every_unit env_nominal "130415266" "tpfs"
              kw_tpfs [row "14"] w_empty w1 eq_refl Hstable Hlabels)
    as (Hthere & Hret & Hfs & Hd & Hf & _).
  { vm_compute. reflexivity. }
  split; [|split; [exact Hret|]; split; [exact Hfs|]; split;
           [exact Hd | exact Hf]].
  apply (Hthere (row "14") "14"); [left | reflexivity].
Defined.

(** C7, as the claim has it: the archive writes sector 7 as
    [TESS Sector 07].  The first run saves the payload as
    [tess130415266_sec7.fits]; the second run looks for
    [tess130415266_sec07.fits], does not find it, fetches the payload
    again and makes five attempts to write it over the file that is
    there. *)
Lemma C7_second_run_fetches_again :
  let r1 := download_tesscuts_single env_leading_zero (PyStr "130415266")
              kw_tpfs w_empty in
  let r2 := download_tesscuts_single env_leading_zero (PyStr "130415266")
              kw_tpfs r1.2 in
  r1.1 = Next () ∧ n_download r1.2 = 1%nat ∧ n_to_fits r1.2 = 1%nat ∧
  is_Some (fs r1.2 !! "tpfs/tess130415266_sec7.fits") ∧
  fs r1.2 !! "tpfs/tess130415266_sec07.fits" = None ∧
  r2.1 = Returned ∧ n_download r2.2 = 2%nat ∧ n_to_fits r2.2 = 6%nat ∧
  slept r2.2 = 5.
Proof. vm_compute. repeat split; eauto. Qed.

(** ** The driver always ends *)

Lemma runs_fine_Parallel_1 allowed (jobs : list (M unit)) :
  Forall (runs_fine allowed) jobs → runs_fine allowed (Parallel_1 jobs).
Proof.
  induction 1 as [|job rest Hjob _ IH]; cbn [Parallel_1];
    [apply runs_fine_ret|].
  apply runs_fine_bind; [exact Hjob | intros; exact IH].
Qed.

(** The batch driver never runs out of the fuel its loops are given. *)
Lemma download_tesscuts_ends env TICs kw w :
  (download_tesscuts env TICs kw w).1 ≠ OutOfFuel.
Proof.
  assert (Hsingle : ∀ TIC,
            runs_fine (λ _, True) (download_tesscuts_single env TIC kw)).
  { intros TIC w0.
    pose proof (download_tesscuts_single_ends env TIC kw w0) as H.
    by destruct (download_tesscuts_single env TIC kw w0).1. }
  assert (Hfine : runs_fine (λ _, True) (download_tesscuts env TICs kw)).
  { unfold download_tesscuts. destruct (isinstance_int TICs); [by intros ?|].
    apply runs_fine_bind; [|intros; apply runs_fine_print].
    destruct (isinstance_str TICs); [apply runs_fine_call, Hsingle|].
    destruct (py_iter TICs) as [l|]; [|by intros ?].
    apply runs_fine_Parallel_1, Forall_forall. intros job Hjob.
    unfold delayed_jobs in Hjob. apply list_elem_of_lookup in Hjob as [i Hi].
    rewrite list_lookup_imap in Hi.
    destruct (l !! i) as [TIC|]; [|done]. injection Hi as <-.
    apply runs_fine_bind; [apply runs_fine_print|]. intros _.
    apply runs_fine_call, Hsingle. }
  intros H. specialize (Hfine w). by rewrite H in Hfine.
Qed.

(** * More of the code *)

(** ** Strings *)

Lemma string_app_nil b : EmptyString +:+ b = b.
Proof. reflexivity. Qed.

Lemma string_app_cons c a b : String c a +:+ b = String c (a +:+ b).
Proof. reflexivity. Qed.

Lemma append_inj_l a x y : a +:+ x = a +:+ y → x = y.
Proof.
  induction a as [|c a IH]; [done|]. rewrite !string_app_cons.
  intros H. injection H as H. auto.
Qed.

Lemma string_length_app a b :
  String.length (a +:+ b) = (String.length a + String.length b)%nat.
Proof.
  induction a as [|c a IH]; [done|]. rewrite string_app_cons. simpl.
  by rewrite IH.
Qed.

Lemma append_inj_r x : ∀ a b, a +:+ x = b +:+ x → a = b.
Proof.
  induction a as [|c a IH]; intros [|c' b] H.
  - done.
  - apply (f_equal String.length) in H.
    rewrite !string_length_app in H. simpl in H. lia.
  - apply (f_equal String.length) in H.
    rewrite !string_length_app in H. simpl in H. lia.
  - rewrite !string_app_cons in H. injection H as -> H. f_equal. by apply IH.
Qed.

Lemma append_assoc_string a b c : (a +:+ b) +:+ c = a +:+ (b +:+ c).
Proof.
  induction a as [|x a IH]; [done|]. rewrite !string_app_cons. by f_equal.
Qed.

Lemma has_byte_app x a b :
  has_byte x (a +:+ b) = has_byte x a || has_byte x b.
Proof.
  induction a as [|c a IH]; [done|]. rewrite string_app_cons. simpl.
  rewrite IH. by rewrite orb_assoc.
Qed.

(** ** Characters *)

Lemma str_take_drop n : ∀ s, str_take n s +:+ str_drop n s = s.
Proof.
  induction n as [|n IH]; intros [|c s]; simpl; try done.
  rewrite string_app_cons. by rewrite IH.
Qed.

Lemma str_take_length_app a b : str_take (String.length a) (a +:+ b) = a.
Proof.
  induction a as [|c a IH]; [by destruct b|]. rewrite string_app_cons. simpl.
  by rewrite IH.
Qed.

Lemma str_drop_length_app a b : str_drop (String.length a) (a +:+ b) = b.
Proof.
  induction a as [|c a IH]; [by destruct b|]. rewrite string_app_cons. simpl.
  by rewrite IH.
Qed.

Lemma utf8_head_None s : utf8_head s = None ↔ s = EmptyString.
Proof. by destruct s. Qed.

Lemma utf8_head_Some s c r :
  utf8_head s = Some (c, r) →
  s = c +:+ r ∧ (String.length r < String.length s)%nat.
Proof.
  destruct s as [|b s]; [done|]. simpl. intros [= <- <-].
  rewrite string_app_cons, str_take_drop. split; [done|].
  pose proof (f_equal String.length (str_take_drop (utf8_len b - 1) s)) as H.
  rewrite string_length_app in H. simpl. lia.
Qed.

(** Induction on a text, one character at a time. *)
Lemma utf8_ind (P : string → Prop) :
  P EmptyString →
  (∀ s c r, utf8_head s = Some (c, r) → P r → P s) →
  ∀ s, P s.
Proof.
  intros Hnil Hstep s.
  assert (H : ∀ n s, (String.length s ≤ n)%nat → P s).
  { induction n as [|n IH]; intros s0 Hn.
    - destruct s0; [done | simpl in Hn; lia].
    - destruct (utf8_head s0) as [[c r]|] eqn:Hh.
      + apply (Hstep s0 c r Hh). apply IH.
        apply utf8_head_Some in Hh as [_ Hlt]. lia.
      + apply utf8_head_None in Hh. by subst s0. }
  by apply (H (String.length s)).
Qed.

Lemma cont_bits_conts : ∀ r acc cp,
  cont_bits acc r = Some cp → has_byte "_" r = false.
Proof.
  induction r as [|c r IH]; intros acc cp; simpl; [done|].
  destruct (is_cont c) eqn:Hc; [|done]. intros H.
  rewrite (IH _ _ H). rewrite orb_false_r.
  apply bool_decide_eq_false_2. intros ->. done.
Qed.

(** A digit is one well-formed character, and none of its bytes is an
    underscore. *)
Lemma is_digit_shape env c :
  is_digit env c = true →
  ∃ b r, c = String b r ∧ String.length r = (utf8_len b - 1)%nat ∧
         has_byte "_" c = false.
Proof.
  unfold is_digit, code_point. destruct c as [|b r]; [done|].
  destruct (byte b <? 128)%N eqn:H128.
  - destruct r; [|done]. intros Hd. exists b, EmptyString.
    split; [done|]. split.
    + unfold utf8_len. apply N.ltb_lt in H128.
      destruct (N.ltb_spec (byte b) 192); [done | lia].
    + simpl. rewrite orb_false_r. apply bool_decide_eq_false_2. intros ->.
      done.
  - destruct (_ || _) eqn:Hrange; [done|].
    destruct (_ =? _)%nat eqn:Hlen; [|done].
    destruct (cont_bits _ r) as [cp|] eqn:Hbits; [|done].
    intros _. exists b, r. split; [done|]. split; [by apply Nat.eqb_eq|].
    simpl. rewrite (cont_bits_conts _ _ _ Hbits), orb_false_r.
    apply bool_decide_eq_false_2. intros ->. done.
Qed.

(** A digit at the head of a text is read off the same way whatever
    follows it. *)
Lemma utf8_head_digit env c r' :
  is_digit env c = true → utf8_head (c +:+ r') = Some (c, r').
Proof.
  intros Hd. apply is_digit_shape in Hd as (b & r & -> & Hlen & _).
  rewrite string_app_cons. simpl. rewrite <- Hlen.
  by rewrite str_take_length_app, str_drop_length_app.
Qed.

Lemma utf8_head_ascii_digit env b r :
  is_ascii_digit b = true →
  utf8_head (String b r) = Some (String b EmptyString, r) ∧
  is_digit env (String b EmptyString) = true.
Proof.
  unfold is_ascii_digit. intros H. apply andb_true_iff in H as [H1 H2].
  apply N.leb_le in H1, H2. simpl.
  assert (Hl : utf8_len b = 1%nat).
  { unfold utf8_len. destruct (N.ltb_spec (byte b) 192); [done | lia]. }
  rewrite Hl. simpl. split; [by destruct r|].
  assert (Hlt : (byte b <? 128)%N = true) by (apply N.ltb_lt; lia).
  unfold is_digit, code_point. rewrite Hlt. cbv iota. rewrite Hlt.
  apply andb_true_iff. split; by apply N.leb_le.
Qed.

(** ** Runs of digits *)

Lemma take_digits_upto_enough env : ∀ fuel s,
  (String.length s ≤ fuel)%nat →
  take_digits_upto env fuel s = take_digits env s.
Proof.
  assert (H : ∀ n fuel fuel' s,
            (String.length s ≤ n)%nat → (String.length s ≤ fuel)%nat →
            (String.length s ≤ fuel')%nat →
            take_digits_upto env fuel s = take_digits_upto env fuel' s).
  { induction n as [|n IH]; intros fuel fuel' s Hn Hf Hf'.
    - destruct s; [|simpl in Hn; lia]. by destruct fuel, fuel'.
    - destruct s as [|b s]; [by destruct fuel, fuel'|].
      destruct fuel as [|fuel]; [simpl in Hf; lia|].
      destruct fuel' as [|fuel']; [simpl in Hf'; lia|].
      cbn [take_digits_upto].
      destruct (utf8_head (String b s)) as [[c r]|] eqn:Hh; [|done].
      apply utf8_head_Some in Hh as [_ Hlt].
      destruct (is_digit env c); [|done]. f_equal.
      apply IH; simpl in *; lia. }
  intros fuel s Hf. unfold take_digits. by apply (H (String.length s)).
Qed.

Lemma take_digits_eq env s :
  take_digits env s
  = match utf8_head s with
    | Some (c, r) =>
        if is_digit env c then c +:+ take_digits env r else EmptyString
    | None => EmptyString
    end.
Proof.
  unfold take_digits at 1. destruct s as [|b s]; [done|].
  cbn [String.length take_digits_upto].
  destruct (utf8_head (String b s)) as [[c r]|] eqn:Hh; [|done].
  apply utf8_head_Some in Hh as [_ Hlt].
  destruct (is_digit env c); [|done]. f_equal.
  apply take_digits_upto_enough. simpl in Hlt. lia.
Qed.

Lemma all_digits_upto_enough env : ∀ fuel s,
  (String.length s ≤ fuel)%nat →
  all_digits_upto fuel env s = all_digits env s.
Proof.
  assert (H : ∀ n fuel fuel' s,
            (String.length s ≤ n)%nat → (String.length s ≤ fuel)%nat →
            (String.length s ≤ fuel')%nat →
            all_digits_upto fuel env s = all_digits_upto fuel' env s).
  { induction n as [|n IH]; intros fuel fuel' s Hn Hf Hf'.
    - destruct s; [|simpl in Hn; lia]. by destruct fuel, fuel'.
    - destruct s as [|b s]; [by destruct fuel, fuel'|].
      destruct fuel as [|fuel]; [simpl in Hf; lia|].
      destruct fuel' as [|fuel']; [simpl in Hf'; lia|].
      cbn [all_digits_upto].
      destruct (utf8_head (String b s)) as [[c r]|] eqn:Hh; [|done].
      apply utf8_head_Some in Hh as [_ Hlt].
      f_equal. apply IH; simpl in *; lia. }
  intros fuel s Hf. unfold all_digits. by apply (H (String.length s)).
Qed.

Lemma all_digits_eq env s :
  all_digits env s
  = match utf8_head s with
    | Some (c, r) => is_digit env c && all_digits env r
    | None => true
    end.
Proof.
  unfold all_digits at 1. destruct s as [|b s]; [done|].
  cbn [String.length all_digits_upto].
  destruct (utf8_head (String b s)) as [[c r]|] eqn:Hh; [|done].
  apply utf8_head_Some in Hh as [_ Hlt].
  f_equal. apply all_digits_upto_enough. simpl in Hlt. lia.
Qed.

Lemma all_digits_app env a b :
  all_digits env a = true →
  all_digits env (a +:+ b) = all_digits env b.
Proof.
  revert a. apply (utf8_ind (λ a, all_digits env a = true →
                                  all_digits env (a +:+ b) = all_digits env b)).
  { done. }
  intros s c r Hh IH. rewrite (all_digits_eq env s), Hh.
  intros H. apply andb_true_iff in H as [Hc Hr].
  apply utf8_head_Some in Hh as [-> _].
  rewrite append_assoc_string, (all_digits_eq env (c +:+ _)).
  rewrite (utf8_head_digit env c _ Hc), Hc. simpl. by apply IH.
Qed.

(** A run of digits has no underscore among its bytes. *)
Lemma all_digits_no_underscore env s :
  all_digits env s = true → has_byte "_" s = false.
Proof.
  revert s. apply (utf8_ind (λ s, all_digits env s = true →
                                  has_byte "_" s = false)).
  { done. }
  intros s c r Hh IH. rewrite all_digits_eq, Hh.
  intros H. apply andb_true_iff in H as [Hc Hr].
  apply utf8_head_Some in Hh as [-> _]. rewrite has_byte_app.
  apply is_digit_shape in Hc as (b & rc & -> & _ & Hno).
  by rewrite Hno, IH.
Qed.

Lemma all_digits_ascii env b r :
  is_ascii_digit b = true →
  all_digits env (String b r) = all_digits env r.
Proof.
  intros Hb. destruct (utf8_head_ascii_digit env b r Hb) as [Hh Hd].
  by rewrite all_digits_eq, Hh, Hd.
Qed.

(** ** The pattern [prefix(\d+)] *)

Lemma strip_prefix_app p s : strip_prefix p (p +:+ s) = Some s.
Proof.
  induction p as [|c p IH]; [by destruct s|]. rewrite string_app_cons. simpl.
  by rewrite bool_decide_eq_true_2.
Qed.

Lemma strip_prefix_Some p : ∀ s r, strip_prefix p s = Some r → s = p +:+ r.
Proof.
  induction p as [|c p IH]; intros s r; simpl.
  { destruct s; by intros [= <-]. }
  destruct s as [|c' s]; [done|]. case_bool_decide as Hc; [|done].
  intros H. subst c'. rewrite string_app_cons. f_equal. by apply IH.
Qed.

Lemma take_digits_app env d rest :
  all_digits env d = true → starts_with_digit env rest = false →
  take_digits env (d +:+ rest) = d.
Proof.
  intros Hd Hrest. revert d Hd.
  apply (utf8_ind (λ d, all_digits env d = true →
                        take_digits env (d +:+ rest) = d)).
  { intros _. rewrite string_app_nil, take_digits_eq.
    unfold starts_with_digit in Hrest.
    destruct (utf8_head rest) as [[c r]|]; [|done]. by rewrite Hrest. }
  intros s c r Hh IH. rewrite (all_digits_eq env s), Hh.
  intros H. apply andb_true_iff in H as [Hc Hr].
  apply utf8_head_Some in Hh as [-> _].
  rewrite append_assoc_string, take_digits_eq.
  rewrite (utf8_head_digit env c _ Hc), Hc. f_equal. by apply IH.
Qed.

Lemma take_digits_split env s :
  all_digits env (take_digits env s) = true ∧
  ∃ rest, s = take_digits env s +:+ rest ∧ starts_with_digit env rest = false.
Proof.
  revert s. apply utf8_ind.
  { split; [done|]. by exists EmptyString. }
  intros s c r Hh (IH1 & rest & IH2 & IH3).
  rewrite take_digits_eq, Hh.
  destruct (is_digit env c) eqn:Hc.
  - split.
    + rewrite all_digits_eq, (utf8_head_digit env c _ Hc), Hc. done.
    + exists rest. split; [|done].
      apply utf8_head_Some in Hh as [-> _].
      rewrite append_assoc_string. by rewrite <- IH2.
  - split; [done|]. exists s. split; [done|].
    unfold starts_with_digit. by rewrite Hh.
Qed.

(** What a match tells about the text. *)
Lemma re_match_digits_inv env prefix s d :
  re_match_digits env prefix s = Some d →
  d ≠ EmptyString ∧ all_digits env d = true ∧
  ∃ rest, s = prefix +:+ d +:+ rest ∧ starts_with_digit env rest = false.
Proof.
  unfold re_match_digits.
  destruct (strip_prefix prefix s) as [r|] eqn:Hr; [|done].
  apply strip_prefix_Some in Hr. subst s.
  destruct (take_digits_split env r) as (Hall & rest & Hsplit & Hrest).
  destruct (take_digits env r) as [|c d'] eqn:Hd; [done|].
  intros [= <-]. split; [done|]. split; [done|].
  exists rest. split; [by rewrite <- Hsplit | done].
Qed.

(** The texts that match. *)
Lemma re_match_digits_intro env prefix d rest :
  d ≠ EmptyString → all_digits env d = true →
  starts_with_digit env rest = false →
  re_match_digits env prefix (prefix +:+ d +:+ rest) = Some d.
Proof.
  intros Hne Hall Hrest. unfold re_match_digits.
  rewrite strip_prefix_app, take_digits_app by done. by destruct d.
Qed.

(** X1.  The match of [prefix(\d+)] on a text gives [d] exactly when the
    text is the prefix, then [d], a run of at least one decimal digit,
    then a rest that does not go on with a decimal digit: the group is
    the longest run of digits after the prefix, and what follows it is
    not looked at.  A decimal digit is one of [0] to [9] or a character
    above ASCII that the Unicode database gives as one. *)
Theorem re_match_digits_spec env prefix s d :
  re_match_digits env prefix s = Some d ↔
  d ≠ EmptyString ∧ all_digits env d = true ∧
  ∃ rest, s = prefix +:+ d +:+ rest ∧ starts_with_digit env rest = false.
Proof.
  split.
  - apply re_match_digits_inv.
  - intros (Hne & Hall & rest & -> & Hrest).
    by apply re_match_digits_intro.
Qed.

(** The digits of other scripts are digits: a descriptor written with
    Arabic-Indic digits matches, and the group is those digits; a letter
    above ASCII is not a digit; iterating over a text yields its
    characters. *)
Example re_match_digits_other_scripts :
  re_match_digits env_nominal "TESS Sector " "TESS Sector ١٤ (FFI)"
  = Some "١٤" ∧
  re_match_digits env_nominal "TIC " "TIC ١٢٣" = Some "١٢٣" ∧
  all_digits env_nominal "١٢٣" = true ∧
  re_match_digits env_nominal "TIC " "TIC é1" = None ∧
  py_iter (PyStr "١٤") = Some [PyStr "١"; PyStr "٤"].
Proof. vm_compute. done. Qed.

Lemma is_ascii_digit_pretty_N_char x :
  is_ascii_digit (pretty_N_char x) = true.
Proof. unfold pretty_N_char. by repeat case_match. Qed.

Lemma pretty_N_go_digits env x : ∀ s,
  all_digits env s = true → all_digits env (pretty_N_go x s) = true.
Proof.
  induction (N.lt_wf_0 x) as [x _ IH]; intros s Hs.
  assert (x = 0 ∨ 0 < x)%N as [->|Hx] by lia.
  - by rewrite pretty_N_go_0.
  - rewrite pretty_N_go_step by done. apply IH.
    { by apply N.div_lt. }
    by rewrite all_digits_ascii by apply is_ascii_digit_pretty_N_char.
Qed.

Lemma pretty_N_go_nonempty x : ∀ s,
  s ≠ EmptyString → pretty_N_go x s ≠ EmptyString.
Proof.
  induction (N.lt_wf_0 x) as [x _ IH]; intros s Hs.
  assert (x = 0 ∨ 0 < x)%N as [->|Hx] by lia.
  - by rewrite pretty_N_go_0.
  - rewrite pretty_N_go_step by done. apply IH; [by apply N.div_lt | done].
Qed.

(** The decimal print of a natural number is a run of at least one
    digit. *)
Lemma pretty_N_digits env (n : N) :
  pretty n ≠ EmptyString ∧ all_digits env (pretty n) = true.
Proof.
  unfold pretty, pretty_N. case_decide as Hn; [done|]. split.
  - assert (0 < n)%N as Hpos by lia.
    rewrite pretty_N_go_step by done. by apply pretty_N_go_nonempty.
  - by apply pretty_N_go_digits.
Qed.

Lemma pretty_Z_of_N (n : N) : pretty (Z.of_N n) = pretty n.
Proof. by destruct n. Qed.

(** ** Output names *)

Lemma no_underscore_then_sec u v : ∀ a b,
  has_byte "_" a = false → has_byte "_" b = false →
  a +:+ "_sec" +:+ u = b +:+ "_sec" +:+ v → a = b ∧ u = v.
Proof.
  induction a as [|c a IH]; intros [|c' b] Ha Hb H.
  - split; [done|]. by apply (append_inj_l "_sec").
  - rewrite string_app_nil, string_app_cons in H.
    simpl in Hb. apply orb_false_iff in Hb as [Hc _].
    change ("_sec" +:+ u) with (String "_" ("sec" +:+ u)) in H.
    injection H as <- _. by rewrite bool_decide_eq_true_2 in Hc.
  - rewrite string_app_nil, string_app_cons in H.
    simpl in Ha. apply orb_false_iff in Ha as [Hc _].
    change ("_sec" +:+ v) with (String "_" ("sec" +:+ v)) in H.
    injection H as -> _. by rewrite bool_decide_eq_true_2 in Hc.
  - rewrite !string_app_cons in H. injection H as -> H.
    simpl in Ha, Hb. apply orb_false_iff in Ha as [_ Ha].
    apply orb_false_iff in Hb as [_ Hb].
    destruct (IH b Ha Hb H) as [-> ->]. done.
Qed.

(** In one directory and for one target, the name tells the label. *)
Lemma output_name_label dir tic s s' :
  joinpath dir (fits_name tic s) = joinpath dir (fits_name tic s') → s = s'.
Proof.
  unfold joinpath, fits_name. intros H.
  apply append_inj_l, (append_inj_l "/"), (append_inj_l "tess") in H.
  apply append_inj_l, (append_inj_l "_sec") in H.
  by apply append_inj_r in H.
Qed.

(** In one directory, the name tells a target that has no underscore. *)
Lemma output_name_target_bytes dir tic tic' s s' :
  has_byte "_" tic = false → has_byte "_" tic' = false →
  joinpath dir (fits_name tic s) = joinpath dir (fits_name tic' s') →
  tic = tic'.
Proof.
  unfold joinpath, fits_name. intros Ht Ht' H.
  apply append_inj_l, (append_inj_l "/"), (append_inj_l "tess") in H.
  by destruct (no_underscore_then_sec _ _ tic tic' Ht Ht' H).
Qed.

(** In one directory, the name tells a target that is a run of digits. *)
Lemma output_name_target env dir tic tic' s s' :
  all_digits env tic = true → all_digits env tic' = true →
  joinpath dir (fits_name tic s) = joinpath dir (fits_name tic' s') →
  tic = tic'.
Proof.
  intros Ht Ht'. apply all_digits_no_underscore in Ht, Ht'.
  by apply output_name_target_bytes.
Qed.

(** X2.  The output name [{outputdir}/tess{TIC}_sec{s}.fits] tells the
    target and the sector label apart: for targets that are runs of
    digits, two names in one directory are equal only if the targets and
    the labels are; for one target, whatever it is, only if the labels
    are. *)
Theorem output_name_inj env dir tic tic' s s' :
  joinpath dir (fits_name tic s) = joinpath dir (fits_name tic' s') →
  (tic = tic' → s = s') ∧
  (all_digits env tic = true → all_digits env tic' = true →
   tic = tic' ∧ s = s').
Proof.
  intros H. split.
  - intros <-. by apply output_name_label in H.
  - intros Ht Ht'.
    pose proof (output_name_target env dir tic tic' s s' Ht Ht' H) as <-.
    split; [done|]. by apply output_name_label in H.
Qed.

Lemma output_name_inj_witness :
  ("130415266" = "130415266" → "14" = "14") ∧
  ("130415266" = "130415266" ∧ "14" = "14").
Proof.
  destruct (output_name_inj env_nominal "tpfs" "130415266" "130415266"
              "14" "14" eq_refl) as [H1 H2].
  split; [exact H1 | apply H2; reflexivity].
Defined.

Lemma pretty_N_go_no_leading_zero x : ∀ s d,
  (0 < x)%N → pretty_N_go x s ≠ String "0" d.
Proof.
  induction (N.lt_wf_0 x) as [x _ IH]; intros s d Hx.
  assert (0 < x < 10 ∨ 10 ≤ x)%N as [[? ?]|?] by lia.
  - rewrite pretty_N_go_step by done.
    rewrite (N.div_small x 10) by done. rewrite pretty_N_go_0.
    rewrite N.mod_small by done.
    assert (x = 1 ∨ x = 2 ∨ x = 3 ∨ x = 4 ∨ x = 5 ∨ x = 6
          ∨ x = 7 ∨ x = 8 ∨ x = 9)%N as Hcases by lia.
    destruct Hcases as [->|[->|[->|[->|[->|[->|[->|[->| ->]]]]]]]]; done.
  - rewrite pretty_N_go_step by done. apply IH.
    + by apply N.div_lt.
    + apply N.div_str_pos. lia.
Qed.

(** X3.  The filter looks for the file of a unit under the digits of its
    observation descriptor, the writer saves a payload under the decimal
    print of its sector.  The two names are the same exactly when the
    digits are that print.  They are when the descriptor writes the
    sector in plain decimal; they never are when it writes the sector
    with a leading zero: such a unit is not found on disk by a later run,
    whatever was saved. *)
Theorem filter_name_vs_saved_name env tic dir tpf :
  (∀ d, joinpath dir (fits_name tic d) = saved_as tic dir tpf ↔
        d = pretty (sector tpf)) ∧
  (∀ (n : N) rest,
     sector tpf = Z.of_N n → starts_with_digit env rest = false →
     re_match_digits env "TESS Sector " ("TESS Sector " +:+ pretty n +:+ rest)
     = Some (pretty (sector tpf))) ∧
  (∀ d, d ≠ EmptyString →
        joinpath dir (fits_name tic (String "0" d)) ≠ saved_as tic dir tpf).
Proof.
  assert (Hiff : ∀ d, joinpath dir (fits_name tic d) = saved_as tic dir tpf ↔
                      d = pretty (sector tpf)).
  { intros d. unfold saved_as. split; [|by intros ->].
    intros H. by apply output_name_label in H. }
  split; [exact Hiff|]. split.
  - intros n rest Hn Hrest. rewrite Hn, pretty_Z_of_N.
    destruct (pretty_N_digits env n) as [Hne Hall].
    by apply re_match_digits_intro.
  - intros d Hd H. apply Hiff in H.
    unfold pretty, pretty_Z in H. destruct (sector tpf) as [|p|p].
    + injection H as ->. done.
    + unfold pretty, pretty_positive, pretty, pretty_N in H.
      case_decide; [done|]. symmetry in H.
      by apply pretty_N_go_no_leading_zero in H.
    + rewrite string_app_cons in H. discriminate.
Qed.

Lemma filter_name_vs_saved_name_witness :
  re_match_digits env_nominal "TESS Sector " ("TESS Sector " +:+ pretty 7%N +:+ "")
  = Some (pretty (sector (tpf_of 7))) ∧
  joinpath "tpfs" (fits_name "130415266" "07")
  ≠ saved_as "130415266" "tpfs" (tpf_of 7).
Proof.
  destruct (filter_name_vs_saved_name env_nominal "130415266" "tpfs" (tpf_of 7))
    as (_ & H1 & H2).
  split.
  - apply H1; reflexivity.
  - apply H2. discriminate.
Defined.

(** ** Targets that are not numbers *)

(** X4.  A target identifier that is empty or holds a character that is
    not a decimal digit ([\d] of the pattern: [0] to [9], or a decimal
    digit of another script) is never downloaded, whatever the archive
    answers: the identity the pattern reads off a search result is a run
    of such digits and cannot equal it.  The function makes no fetch and
    no write and leaves the FITS files as they are; it never gets to the
    end of the saving. *)
Theorem non_numeric_target_never_downloaded env tic kw w :
  tic = EmptyString ∨ all_digits env tic = false →
  let r := download_tesscuts_single env (PyStr tic) kw w in
  r.1 ≠ Next () ∧ n_download r.2 = n_download w ∧
  n_to_fits r.2 = n_to_fits w ∧ fits_files r.2 = fits_files w.
Proof.
  intros Hbad r.
  pose proof (download_tesscuts_single_cases env (PyStr tic) kw w) as Hcases.
  cbv zeta in Hcases. fold r in Hcases.
  destruct Hcases as [(e & -> & _)|(tic' & dir & Htic & _ & _ & _ & Hq)];
    [done|].
  injection Htic as <-.
  destruct (ensure_outputdir_frame env dir w) as (_ & _ & Hd0 & Hf0 & _ & Hfits0).
  pose proof (query_loop_frame env (query_fuel (max_tries_MASTquery kw))
                tic (max_tries_MASTquery kw) 1 (ensure_outputdir env dir w).2)
    as Hfr.
  destruct Hq as [(w1 & Hq & ->)|(t & w1 & n & Hq & _ & ->)];
    rewrite Hq in Hfr; simpl in Hfr; destruct Hfr as (Hfs1 & Hd1 & Hf1 & _).
  { simpl. repeat split; [done | congruence | congruence |].
    rewrite <- Hfits0. unfold fits_files. by rewrite Hfs1. }
  destruct (after_query_cases env tic dir (int_value (imsize kw)) kw t w1)
    as [(Hn & _ & Hfs2 & _ & Hd2 & Hf2)|
        (id & sectors & t' & wd & _ & _ & Hid & _)].
  - repeat split; [done | congruence | congruence |].
    rewrite <- Hfits0. unfold fits_files. by rewrite Hfs2, Hfs1.
  - exfalso. apply re_match_digits_inv in Hid as (Hne & Hall & _).
    destruct Hbad as [->|Hbad]; [done | congruence].
Qed.

(** The target written with its catalogue prefix: nothing is fetched, on
    an archive that has the data. *)
Lemma non_numeric_target_never_downloaded_witness :
  let r := download_tesscuts_single env_nominal (PyStr "TIC 130415266")
             kw_tpfs w_empty in
  r.1 ≠ Next () ∧ n_download r.2 = 0%nat ∧ n_to_fits r.2 = 0%nat ∧
  fits_files r.2 = ∅.
Proof.
  apply (non_numeric_target_never_downloaded env_nominal "TIC 130415266"
           kw_tpfs w_empty).
  right. reflexivity.
Defined.

(** ** What the filter hands on *)





(** ** How many attempts a run can make *)

(** A bound on what a statement adds to a counter adds up along [bind]. *)
Lemma bind_bound {A B} (f : World → nat) (m : M A) (k : A → M B) a b :
  (∀ w, f (m w).2 ≤ f w + a)%nat → (∀ x w, f (k x w).2 ≤ f w + b)%nat →
  ∀ w, (f (bind m k w).2 ≤ f w + (a + b))%nat.
Proof.
  intros Hm Hk w. unfold bind. specialize (Hm w).
  destruct (m w) as [[x| |e|] w1]; simpl in *; try lia.
  specialize (Hk x w1). lia.
Qed.

Lemma query_loop_bound env TIC maxq fuel : ∀ tries w,
  (n_search (query_loop env fuel TIC maxq tries w).2
   ≤ n_search w + Z.to_nat (maxq - tries + 1))%nat.
Proof.
  induction fuel as [|fuel IH]; intros tries w; simpl; [lia|].
  destruct (Z.gtb_spec tries maxq) as [Hgt|Hle]; [simpl; lia|].
  unfold bind at 1, try_search_tesscut at 1.
  destruct (search_tesscut env (n_search w) _) as [e|t]; [|simpl; lia].
  unfold bind at 1. simpl.
  match goal with
  | |- (n_search (query_loop _ _ _ _ _ ?w1).2 ≤ _)%nat =>
      specialize (IH (tries + 1) w1); simpl in IH
  end. lia.
Qed.

Lemma fetch_loop_bound env TIC t sz mt fuel : ∀ tries w,
  (n_download (fetch_loop env fuel TIC t sz mt tries w).2
   ≤ n_download w + Z.to_nat (mt - tries + 1))%nat.
Proof.
  induction fuel as [|fuel IH]; intros tries w; simpl; [lia|].
  destruct (Z.gtb_spec tries mt) as [Hgt|Hle]; [simpl; lia|].
  unfold bind at 1, try_download_all at 1.
  destruct (download_all env (n_download w) t sz) as [e|tpfs]; [|simpl; lia].
  destruct (isinstance_TypeError e); [simpl; lia|].
  destruct (bool_decide _); [simpl; lia|].
  unfold bind at 1. simpl.
  match goal with
  | |- (n_download (fetch_loop _ _ _ _ _ _ _ ?w1).2 ≤ _)%nat =>
      specialize (IH (tries + 1) w1); simpl in IH
  end. lia.
Qed.

(** A write loop makes at most the attempts left up to five, and sleeps
    one second for each failed one. *)
Lemma write_loop_bound env TIC mc tpf p ow fuel : ∀ counter w r,
  write_loop env fuel TIC mc tpf p ow counter w = r →
  (n_to_fits r.2 ≤ n_to_fits w + Z.to_nat (5 - counter + 1))%nat ∧
  slept w ≤ slept r.2 ∧
  slept r.2 - slept w ≤ Z.of_nat (n_to_fits r.2) - Z.of_nat (n_to_fits w).
Proof.
  induction fuel as [|fuel IH]; intros counter w r; simpl.
  { intros <-. simpl. lia. }
  destruct (Z.gtb_spec counter 5) as [Hgt|Hle]; [intros <-; simpl; lia|].
  unfold bind at 1, try_to_fits at 1.
  destruct (to_fits_fault env (n_to_fits w) (fs w) p ow) as [e|];
    [|intros <-; simpl; lia].
  unfold bind at 1. simpl. unfold bind at 1. simpl.
  intros Hr. apply IH in Hr. simpl in Hr. lia.
Qed.

Lemma save_all_bound env TIC dir ow mc tpfs : ∀ w r,
  save_all env TIC dir ow mc tpfs w = r →
  (n_to_fits r.2 ≤ n_to_fits w + 5 * length tpfs)%nat ∧
  slept w ≤ slept r.2 ∧
  slept r.2 - slept w ≤ Z.of_nat (n_to_fits r.2) - Z.of_nat (n_to_fits w).
Proof.
  induction tpfs as [|tpf rest IH]; intros w r; cbn [save_all].
  { intros <-. simpl. lia. }
  unfold bind at 1.
  match goal with
  | |- context [write_loop ?e ?f ?T ?m ?t ?p ?o ?c w] =>
      pose proof (write_loop_bound e T m t p o f c w _ eq_refl) as Hw;
      destruct (write_loop e f T m t p o c w) as [[[]| |ex|] w1]
  end; simpl in Hw; try (intros <-; simpl; lia).
  unfold bind at 1. simpl.
  intros Hr. apply IH in Hr. simpl in Hr. simpl. lia.
Qed.

Local Ltac prim_fits :=
  intros; intros ?; unfold grows, try_to_fits; simpl;
  try destruct (to_fits_fault _ _ _ _ _); done.

Lemma Parallel_1_bound (f : World → nat) (B : nat) (jobs : list (M unit)) :
  Forall (λ job, ∀ w, (f (job w).2 ≤ f w + B)%nat) jobs →
  ∀ w, (f (Parallel_1 jobs w).2 ≤ f w + length jobs * B)%nat.
Proof.
  induction 1 as [|job rest Hjob _ IH]; intros w; cbn [Parallel_1 length].
  { simpl. lia. }
  pose proof (bind_bound f job (λ _, Parallel_1 rest) B (length rest * B)
                Hjob (λ _, IH) w) as H.
  unfold M in *. rewrite Nat.mul_succ_l. lia.
Qed.

Lemma after_query_calls env TIC dir sz kw t w :
  let r := after_query env TIC dir sz kw t w in
  n_search r.2 = n_search w ∧
  (n_download r.2 ≤ n_download w + Z.to_nat (max_tries kw))%nat.
Proof.
  intros r. split.
  { symmetry.
    apply (run_rel_after_query (grows eq n_search) env dir); prim_fits. }
  destruct (after_query_cases env TIC dir sz kw t w)
    as [(_ & _ & _ & _ & Hd & _)|
        (id & sectors & t' & wd & _ & _ & _ & _ & Hdedup & Hr)].
  { fold r in Hd. lia. }
  fold r in Hr. rewrite Hr.
  pose proof (dedup_frame TIC sectors
                ((λ s, joinpath dir (fits_name TIC s)) <$> sectors) t w) as Hfr.
  rewrite Hdedup in Hfr. simpl in Hfr. destruct Hfr as (_ & _ & Hdd & _).
  rewrite <- Hdd.
  pose proof (bind_bound n_download
                (fetch_loop env (fetch_fuel (max_tries kw)) TIC t' sz
                   (max_tries kw) 1)
                (save_all env TIC dir (overwrite kw) (max_counter kw))
                (Z.to_nat (max_tries kw)) 0) as Hb.
  unfold fetch_and_save. rewrite <- (Nat.add_0_r (Z.to_nat (max_tries kw))).
  apply Hb.
  - intros w0.
    pose proof (fetch_loop_bound env TIC t' sz (max_tries kw)
                  (fetch_fuel (max_tries kw)) 1 w0) as H.
    replace (max_tries kw - 1 + 1) with (max_tries kw) in H by lia. exact H.
  - intros tpfs w0.
    rewrite <- (run_rel_save_all (grows eq n_download) env dir
                  ltac:(prim_fits) ltac:(prim_fits) ltac:(prim_fits) TIC
                  (overwrite kw) (max_counter kw) tpfs w0).
    lia.
Qed.

Lemma download_tesscuts_single_calls env TIC kw w :
  let r := download_tesscuts_single env TIC kw w in
  (n_search r.2 ≤ n_search w + Z.to_nat (max_tries_MASTquery kw))%nat ∧
  (n_download r.2 ≤ n_download w + Z.to_nat (max_tries kw))%nat.
Proof.
  intros r.
  pose proof (download_tesscuts_single_cases env TIC kw w) as Hcases.
  cbv zeta in Hcases. fold r in Hcases.
  destruct Hcases as [(e & -> & _)|(tic & dir & _ & _ & _ & _ & Hq)];
    [simpl; lia|].
  destruct (ensure_outputdir_frame env dir w) as (_ & Hs0 & Hd0 & _).
  pose proof (query_loop_frame env (query_fuel (max_tries_MASTquery kw))
                tic (max_tries_MASTquery kw) 1 (ensure_outputdir env dir w).2)
    as Hfr.
  pose proof (query_loop_bound env tic (max_tries_MASTquery kw)
                (query_fuel (max_tries_MASTquery kw)) 1
                (ensure_outputdir env dir w).2) as Hb.
  replace (max_tries_MASTquery kw - 1 + 1) with (max_tries_MASTquery kw)
    in Hb by lia.
  destruct Hq as [(w1 & Hq & ->)|(t & w1 & n & Hq & _ & ->)];
    rewrite Hq in Hfr, Hb; simpl in Hfr, Hb; destruct Hfr as (_ & Hd1 & _).
  { simpl. lia. }
  destruct (after_query_calls env tic dir (int_value (imsize kw)) kw t w1)
    as [Hs2 Hd2].
  lia.
Qed.

(** X6.  Whatever the archive does, one run of [download_tesscuts_single]
    makes at most [max_tries_MASTquery] searches and at most [max_tries]
    bulk fetches (none when the cap is not positive), and a batch over a
    collection of [n] targets at most [n] times as many. *)
Theorem searches_and_fetches_are_bounded env kw w :
  (∀ TIC,
     let r := download_tesscuts_single env TIC kw w in
     (n_search r.2 ≤ n_search w + Z.to_nat (max_tries_MASTquery kw))%nat ∧
     (n_download r.2 ≤ n_download w + Z.to_nat (max_tries kw))%nat) ∧
  (∀ l,
     let r := download_tesscuts env (PyList l) kw w in
     (n_search r.2
      ≤ n_search w + length l * Z.to_nat (max_tries_MASTquery kw))%nat ∧
     (n_download r.2 ≤ n_download w + length l * Z.to_nat (max_tries kw))%nat).
Proof.
  split; [intros TIC; apply download_tesscuts_single_calls|].
  intros l r. subst r. unfold download_tesscuts.
  cbn [isinstance_int isinstance_str py_iter].
  assert (Hjobs : ∀ (f : World → nat) B,
            (∀ m w0, f (print m w0).2 = f w0) →
            (∀ TIC w0, (f (download_tesscuts_single env TIC kw w0).2
                        ≤ f w0 + B)%nat) →
            ∀ w0, (f ((Parallel_1 (delayed_jobs env l kw) ;;
                       print MsgCleanCache) w0).2
                   ≤ f w0 + length l * B)%nat).
  { intros f B Hprint Hsingle w0.
    pose proof (bind_bound f (Parallel_1 (delayed_jobs env l kw))
                  (λ _, print MsgCleanCache) (length l * B) 0) as Hb.
    rewrite <- (Nat.add_0_r (length l * B)). apply Hb.
    - intros w1.
      replace (length l) with (length (delayed_jobs env l kw))
        by (unfold delayed_jobs; apply length_imap).
      apply Parallel_1_bound, Forall_forall. intros job Hjob.
      unfold delayed_jobs in Hjob.
      apply list_elem_of_lookup in Hjob as [i Hi].
      rewrite list_lookup_imap in Hi.
      destruct (l !! i) as [TIC|]; [|done]. injection Hi as <-.
      intros w2. unfold run_download_tesscuts_single.
      rewrite (bind_fst_next (print _) _ w2 () eq_refl).
      specialize (Hsingle TIC (print (MsgWorkingOn (Z.of_nat i + 1)
                                        (Z.of_nat (length l)) TIC) w2).2).
      rewrite Hprint in Hsingle. unfold call.
      by destruct (download_tesscuts_single env TIC kw _) as [[[]| |e|] w3].
    - intros _ w1. rewrite Hprint. lia. }
  split.
  - apply (Hjobs n_search); [done|].
    intros TIC w0. apply download_tesscuts_single_calls.
  - apply (Hjobs n_download); [done|].
    intros TIC w0. apply download_tesscuts_single_calls.
Qed.

(** ** Relations kept by the fetch and the saving as a whole

    Some relations hold across [fetch_and_save] without holding across
    each write and each sleep; they pass through the rest of the pipeline
    all the same.  The saving is only reached for a target that is a run
    of digits, one of the targets [P] the caller names. *)

Section RunRelSaving.

Context (R : relation World) `{!PreOrder R} (env : Env) (dir : string)
        (P : string → Prop).
Hypothesis Hprint : ∀ m, is_saved m = false → run_rel R (print m).
Hypothesis Hensure : run_rel R (ensure_outputdir env dir).
Hypothesis Hsearch : ∀ q, run_rel R (try_search_tesscut env q).
Hypothesis Hdownload : ∀ t sz, run_rel R (try_download_all env t sz).
Hypothesis Hfetch_save :
  ∀ TIC sz kw t, P TIC → TIC ≠ EmptyString → all_digits env TIC = true →
                 run_rel R (fetch_and_save env TIC dir sz kw t).

Local Ltac say := apply Hprint; reflexivity.

Lemma saving_rel_query_loop fuel TIC maxq tries :
  run_rel R (query_loop env fuel TIC maxq tries).
Proof.
  revert tries. induction fuel as [|fuel IH]; intros tries; simpl;
    [by apply run_rel_out_of_fuel|].
  destruct (tries >? maxq).
  - apply run_rel_bind; [apply _ | say | intros; by apply run_rel_return].
  - apply run_rel_bind; [apply _ | apply Hsearch|].
    intros [e|t]; [|by apply run_rel_ret].
    apply run_rel_bind; [apply _ | say | intros; apply IH].
Qed.

Lemma saving_rel_fetch_loop fuel TIC t sz mt tries :
  run_rel R (fetch_loop env fuel TIC t sz mt tries).
Proof.
  revert tries. induction fuel as [|fuel IH]; intros tries; simpl;
    [by apply run_rel_out_of_fuel|].
  destruct (tries >? mt).
  - apply run_rel_bind; [apply _ | say | intros; by apply run_rel_return].
  - apply run_rel_bind; [apply _ | apply Hdownload|].
    intros [e|tpfs]; [|by apply run_rel_ret].
    destruct (isinstance_TypeError e);
      [apply run_rel_bind; [apply _ | say | intros; by apply run_rel_return]|].
    destruct (bool_decide _);
      [apply run_rel_bind; [apply _ | say | intros; by apply run_rel_return]|].
    apply run_rel_bind; [apply _ | say | intros; apply IH].
Qed.

Lemma saving_rel_dedup TIC sectors outputnames t :
  run_rel R (dedup TIC sectors outputnames t).
Proof.
  intros w. unfold dedup. destruct (_ <? _)%nat; [|reflexivity].
  refine (run_rel_bind R _ _ _ _ w); [say|]. intros _.
  destruct (_ =? _)%nat; [|by apply run_rel_ret].
  apply run_rel_bind; [apply _ | say | intros; by apply run_rel_return].
Qed.

Lemma saving_rel_after_query TIC sz kw t :
  P TIC → run_rel R (after_query env TIC dir sz kw t).
Proof.
  intros HP. unfold after_query. destruct (_ =? _)%nat.
  { apply run_rel_bind; [apply _ | say | intros; by apply run_rel_return]. }
  assert (Hmulti : ∀ ids, run_rel R
            (print (MsgMultipleIds ids) ;; print MsgNoFitsSaved ;; @return_ unit)).
  { intros ids. apply run_rel_bind; [apply _ | say|]. intros _.
    apply run_rel_bind; [apply _ | say | intros; by apply run_rel_return]. }
  destruct (np_unique _) as [|id [|id' ids]]; try apply Hmulti.
  intros w.
  destruct (re_match_digits env "TIC " id) as [_TIC|] eqn:Hid.
  2:{ unfold bind at 1, re_match_group1. rewrite Hid. simpl. reflexivity. }
  assert (H1 : re_match_group1 env "TIC " id w = (Next _TIC, w)).
  { unfold re_match_group1. by rewrite Hid. }
  rewrite (bind_next _ _ _ _ _ H1). clear H1.
  case_bool_decide as Heq; cbn [negb]; revert w.
  2:{ apply run_rel_bind; [apply _ | say|]. intros _.
      apply run_rel_bind; [apply _ | say | intros; by apply run_rel_return]. }
  subst _TIC. apply re_match_digits_inv in Hid as (Hne & Hall & _).
  apply run_rel_bind; [apply _ | by apply run_rel_re_match_group1_all|].
  intros sectors. apply run_rel_bind; [apply _ | apply saving_rel_dedup|].
  intros t'. by apply Hfetch_save.
Qed.

Lemma saving_rel_single TIC kw :
  (∀ tic, TIC = PyStr tic → P tic) →
  (∀ p, outputdir kw = PyPath p → p = dir) →
  run_rel R (download_tesscuts_single env TIC kw).
Proof.
  intros HP Hdir. unfold download_tesscuts_single.
  destruct TIC as [| | | |tic| |]; try by apply run_rel_raise.
  destruct (outputdir kw) as [| | | | |p|]; try by apply run_rel_raise.
  rewrite (Hdir p eq_refl).
  destruct (negb _); [by apply run_rel_raise|].
  apply run_rel_bind; [apply _ | apply Hensure|].
  intros _. apply run_rel_bind; [apply _ | apply saving_rel_query_loop|].
  intros t. apply saving_rel_after_query. by apply HP.
Qed.

Lemma saving_rel_download_tesscuts TICs kw :
  (∀ tic, target_of TICs tic → P tic) →
  (∀ p, outputdir kw = PyPath p → p = dir) →
  run_rel R (download_tesscuts env TICs kw).
Proof.
  intros HP Hdir. unfold download_tesscuts.
  destruct (isinstance_int TICs); [by apply run_rel_raise|].
  apply run_rel_bind; [apply _| |intros; say].
  destruct (isinstance_str TICs) eqn:Hstr.
  { apply run_rel_call. apply saving_rel_single; [|done].
    intros tic ->. apply HP. by left. }
  destruct (py_iter TICs) as [l|] eqn:Hl; [|by apply run_rel_raise].
  apply run_rel_Parallel_1; [apply _|]. apply Forall_forall. intros job Hjob.
  unfold delayed_jobs in Hjob. apply list_elem_of_lookup in Hjob as [i Hi].
  rewrite list_lookup_imap in Hi.
  destruct (l !! i) as [TIC|] eqn:Hli; [|done]. injection Hi as <-.
  apply run_rel_bind; [apply _ | say|]. intros _.
  apply run_rel_call. apply saving_rel_single; [|done].
  intros tic ->. apply HP. right. split; [done|]. exists l. split; [done|].
  by apply list_elem_of_lookup_2 in Hli.
Qed.

End RunRelSaving.

(** ** Writes and sleeps *)

Global Instance sleeps_are_failed_writes_preorder :
  PreOrder sleeps_are_failed_writes.
Proof.
  split; unfold sleeps_are_failed_writes.
  - intros w. lia.
  - intros w1 w2 w3 (? & ? & ? & ?) (? & ? & ? & ?). lia.
Qed.

(** One payload: every attempt the disk refuses is followed by one second
    of sleep, and there is no other sleep; no line [Saved] is printed by
    the loop itself. *)
Lemma write_loop_sleeps env TIC mc tpf p ow fuel : ∀ counter w r,
  write_loop env fuel TIC mc tpf p ow counter w = r →
  (n_to_fits w ≤ n_to_fits r.2)%nat ∧
  saved_lines r.2 = saved_lines w ∧
  slept r.2
  = slept w + Z.of_nat (failed_attempts env (fs w) p ow (n_to_fits w)
                          (n_to_fits r.2 - n_to_fits w)) ∧
  (n_to_fits r.2 - n_to_fits w
   = failed_attempts env (fs w) p ow (n_to_fits w)
       (n_to_fits r.2 - n_to_fits w)
     + match r.1 with Next _ => 1 | _ => 0 end)%nat.
Proof.
  assert (Hsaved : ∀ l m, is_saved m = false →
            count_saved (l ++ [m]) = count_saved l).
  { induction l as [|x l IH]; intros m Hm; simpl; [by rewrite Hm|].
    by rewrite IH. }
  induction fuel as [|fuel IH]; intros counter w r; simpl.
  { intros <-. simpl. rewrite Nat.sub_diag. simpl. lia. }
  destruct (counter >? 5).
  { intros <-. simpl. rewrite Nat.sub_diag. simpl.
    unfold saved_lines. simpl. rewrite Hsaved by done. lia. }
  unfold bind at 1, try_to_fits at 1.
  destruct (to_fits_fault env (n_to_fits w) (fs w) p ow) as [e|] eqn:Hs.
  2:{ intros <-. simpl.
      replace (S (n_to_fits w) - n_to_fits w)%nat with 1%nat by lia.
      simpl. rewrite Hs. unfold saved_lines. simpl. lia. }
  unfold bind at 1. simpl. unfold bind at 1. simpl. intros Hr.
  apply IH in Hr. simpl in Hr. destruct Hr as (Hle & Hsv & Hsl & Hk).
  unfold saved_lines in *. simpl in Hsv. rewrite Hsaved in Hsv by done.
  replace (n_to_fits r.2 - n_to_fits w)%nat
    with (S (n_to_fits r.2 - S (n_to_fits w))) by lia.
  simpl. rewrite Hs.
  split; [lia|]. split; [done|]. split; lia.
Qed.

Lemma save_all_sleeps env TIC dir ow mc tpfs : ∀ w,
  sleeps_are_failed_writes w (save_all env TIC dir ow mc tpfs w).2.
Proof.
  assert (Hsaved : ∀ l m, is_saved m = true →
            count_saved (l ++ [m]) = S (count_saved l)).
  { induction l as [|x l IH]; intros m Hm; simpl; [by rewrite Hm|].
    rewrite IH by done. lia. }
  induction tpfs as [|tpf rest IH]; intros w; cbn [save_all].
  { reflexivity. }
  unfold bind at 1.
  match goal with
  | |- context [write_loop ?e ?f ?T ?m ?t ?p ?o ?c w] =>
      pose proof (write_loop_sleeps e T m t p o f c w _ eq_refl) as Hw;
      destruct (write_loop e f T m t p o c w) as [[[]| |ex|] w1]
  end; simpl in Hw; destruct Hw as (Hle & Hsv & Hsl & Hk);
    try (unfold sleeps_are_failed_writes; simpl; lia).
  unfold bind at 1. simpl.
  etrans; [|apply IH].
  unfold sleeps_are_failed_writes, saved_lines in *. simpl.
  rewrite Hsaved by done. lia.
Qed.

(** X7.  The writer sleeps one second after each [to_fits] attempt that
    fails and at no other time.  For one payload, the seconds slept are
    the attempts the disk refused, at most five attempts are made, and
    the loop ends normally exactly on an attempt that is not refused.
    Across the saving, across one run of [download_tesscuts_single] and
    across a whole batch, the seconds slept are the write attempts made
    less the files reported saved. *)
Theorem sleeps_are_the_failed_writes env kw w :
  (∀ TIC mc tpf p ow,
     let r := write_loop env write_fuel TIC mc tpf p ow 1 w in
     let k := (n_to_fits r.2 - n_to_fits w)%nat in
     let failed := failed_attempts env (fs w) p ow (n_to_fits w) k in
     (k ≤ 5)%nat ∧ slept r.2 = slept w + Z.of_nat failed ∧
     (r.1 = Next () → k = S failed) ∧ (r.1 ≠ Next () → k = failed)) ∧
  (∀ TIC dir ow mc tpfs,
     let w' := (save_all env TIC dir ow mc tpfs w).2 in
     (n_to_fits w' ≤ n_to_fits w + 5 * length tpfs)%nat ∧
     sleeps_are_failed_writes w w') ∧
  (∀ TIC,
     sleeps_are_failed_writes w (download_tesscuts_single env TIC kw w).2) ∧
  (∀ TICs, sleeps_are_failed_writes w (download_tesscuts env TICs kw w).2).
Proof.
  set (dir := match outputdir kw with PyPath p => p | _ => EmptyString end).
  assert (Hdir : ∀ p, outputdir kw = PyPath p → p = dir).
  { intros p Hp. subst dir. by rewrite Hp. }
  assert (Hsaved : ∀ l m, is_saved m = false →
            count_saved (l ++ [m]) = count_saved l).
  { induction l as [|x l IH]; intros m Hm; simpl; [by rewrite Hm|].
    by rewrite IH. }
  assert (Hkeep : ∀ {A} (m : M A),
            (∀ w0, slept (m w0).2 = slept w0 ∧
                   n_to_fits (m w0).2 = n_to_fits w0 ∧
                   saved_lines (m w0).2 = saved_lines w0) →
            run_rel sleeps_are_failed_writes m).
  { intros A m Hm w0. destruct (Hm w0) as (Hs & Hf & Hl).
    unfold sleeps_are_failed_writes. rewrite Hs, Hf, Hl. lia. }
  assert (Hprint : ∀ m, is_saved m = false →
            run_rel sleeps_are_failed_writes (print m)).
  { intros m Hm. apply Hkeep. intros w0. unfold saved_lines. simpl.
    by rewrite Hsaved. }
  assert (Hsearch : ∀ q,
            run_rel sleeps_are_failed_writes (try_search_tesscut env q)).
  { intros q. apply Hkeep. intros w0. unfold try_search_tesscut.
    by destruct (search_tesscut _ _ _). }
  assert (Hdownload : ∀ t sz,
            run_rel sleeps_are_failed_writes (try_download_all env t sz)).
  { intros t sz. apply Hkeep. intros w0. unfold try_download_all.
    by destruct (download_all _ _ _ _). }
  assert (Hfs : ∀ TIC sz kw0 t,
            run_rel sleeps_are_failed_writes
              (fetch_and_save env TIC dir sz kw0 t)).
  { intros TIC sz kw0 t. unfold fetch_and_save.
    apply run_rel_bind; [apply _| |intros tpfs w0; apply save_all_sleeps].
    by apply (saving_rel_fetch_loop sleeps_are_failed_writes env). }
  assert (Hens : run_rel sleeps_are_failed_writes (ensure_outputdir env dir)).
  { apply Hkeep. intros w0.
    destruct (ensure_outputdir_frame env dir w0)
      as (Hout & _ & _ & Hf & Hs & _).
    unfold saved_lines. by rewrite Hout. }
  split; [|split; [|split]].
  - intros TIC mc tpf p ow r k failed.
    destruct (write_loop_sleeps env TIC mc tpf p ow write_fuel 1 w r eq_refl)
      as (Hle & _ & Hsl & Hk).
    pose proof (write_loop_bound env TIC mc tpf p ow write_fuel 1 w r eq_refl)
      as Hb.
    fold k in Hk, Hsl. fold failed in Hk, Hsl.
    split; [|split; [exact Hsl|split]].
    + subst k. simpl in Hb. lia.
    + intros Hn. rewrite Hn in Hk. lia.
    + intros Hn. destruct r.1 as [[]| | |]; [done|lia..].
  - intros TIC d ow mc tpfs w'. subst w'. split; [|apply save_all_sleeps].
    by destruct (save_all_bound env TIC d ow mc tpfs w _ eq_refl) as (? & _).
  - intros TIC.
    by apply (saving_rel_single sleeps_are_failed_writes env dir (λ _, True)).
  - intros TICs.
    by apply (saving_rel_download_tesscuts sleeps_are_failed_writes env dir
                (λ _, True)).
Qed.

(** ** What a run changes on disk *)

Global Instance only_saves_downloads_preorder env P dir :
  PreOrder (only_saves_downloads env P dir).
Proof.
  split.
  - intros w p. by left.
  - intros w1 w2 w3 H12 H23 p.
    destruct (H23 p) as [H3|[(Hp & Hnone & Hdir)|Hsaved]]; [| |by right; right].
    + destruct (H12 p) as [H2|[(Hp & Hnone & Hdir)|Hsaved]].
      * left. by rewrite H3.
      * right; left. subst p. by rewrite H3.
      * right; right.
        destruct Hsaved as (tic & n & rows & sz & tpfs & tpf0 & ? & ? & ? & ? & ? & ? & Hf).
        exists tic, n, rows, sz, tpfs, tpf0. by rewrite H3.
    + subst p. destruct (H12 dir) as [H2|[(_ & _ & Hdir2)|Hsaved]].
      * right; left. by rewrite <- H2.
      * by rewrite Hdir2 in Hnone.
      * destruct Hsaved as (tic & n & rows & sz & tpfs & tpf0 & _ & _ & _ & _ & _ & _ & Hf).
        by rewrite Hf in Hnone.
Qed.

Lemma only_saves_downloads_keep env P dir {A} (m : M A) :
  (∀ w, fs (m w).2 = fs w) → run_rel (only_saves_downloads env P dir) m.
Proof. intros Hm w p. left. by rewrite Hm. Qed.

Lemma only_saves_downloads_ensure env P dir :
  run_rel (only_saves_downloads env P dir) (ensure_outputdir env dir).
Proof.
  intros w p. unfold ensure_outputdir, bind, path_exists, path_is_dir, mkdir.
  simpl. case_bool_decide as Hex.
  - left. by destruct (fs w !! dir) as [[]|].
  - apply eq_None_not_Some in Hex.
    destruct (mkdir_fault env (fs w) dir); simpl; [by left|].
    destruct (decide (p = dir)) as [->|Hne].
    + right; left. by rewrite lookup_insert_eq.
    + left. by rewrite lookup_insert_ne.
Qed.

Global Instance cache_by_fetch_preorder : PreOrder cache_by_fetch.
Proof.
  split; unfold cache_by_fetch.
  - intros w. split; [lia | done].
  - intros w1 w2 w3 [H1 H1'] [H2 H2']. split; [lia|].
    intros H. rewrite H2' by lia. apply H1'. lia.
Qed.


Lemma write_loop_fs env TIC mc tpf p ow fuel : ∀ counter w r,
  write_loop env fuel TIC mc tpf p ow counter w = r →
  fs r.2 = fs w ∨ fs r.2 = <[p := Fits tpf]> (fs w).
Proof.
  induction fuel as [|fuel IH]; intros counter w r; simpl.
  { intros <-. by left. }
  destruct (counter >? 5); [intros <-; by left|].
  unfold bind at 1, try_to_fits at 1.
  destruct (to_fits_fault env (n_to_fits w) (fs w) p ow) as [e|];
    [|intros <-; by right].
  unfold bind at 1. simpl. unfold bind at 1. simpl.
  intros Hr. by apply IH in Hr.
Qed.

Lemma save_all_saves_only env TIC dir ow mc tpfs : ∀ w r,
  save_all env TIC dir ow mc tpfs w = r → saves_only TIC dir tpfs w r.2.
Proof.
  induction tpfs as [|tpf rest IH]; intros w r; cbn [save_all].
  { intros <- p. by left. }
  unfold bind at 1.
  match goal with
  | |- context [write_loop ?e ?f ?T ?m ?t ?p ?o ?c w] =>
      pose proof (write_loop_fs e T m t p o f c w _ eq_refl) as Hw;
      destruct (write_loop e f T m t p o c w) as [fl w1]
  end; simpl in Hw.
  assert (Hhead : ∀ q, fs w1 !! q = fs w !! q ∨
            (q = saved_as TIC dir tpf ∧
             fs w1 !! q = Some (Fits (header_set "TICID" TIC tpf)))).
  { intros q. destruct Hw as [->| ->]; [by left|].
    destruct (decide (q = saved_as TIC dir tpf)) as [->|Hne].
    - right. split; [done|]. apply lookup_insert_eq.
    - left. rewrite lookup_insert_ne; [done|]. intros Heq. by apply Hne. }
  assert (Hstop : saves_only TIC dir (tpf :: rest) w w1).
  { intros q. destruct (Hhead q) as [Hq|[-> Hq]]; [by left|].
    right. exists tpf. split; [by left|done]. }
  destruct fl as [[]| |ex|]; try (intros <-; exact Hstop).
  unfold bind at 1. simpl.
  intros Hr. apply IH in Hr. simpl in Hr. intros q.
  destruct (Hr q) as [Hq|(tpf0 & Hin & -> & Hq)].
  - rewrite Hq. apply Hstop.
  - right. exists tpf0. split; [by right|done].
Qed.

Lemma fetch_and_save_only_saves_downloads env (P : string → Prop) dir TIC sz kw t :
  P TIC → TIC ≠ EmptyString → all_digits env TIC = true →
  run_rel (only_saves_downloads env P dir) (fetch_and_save env TIC dir sz kw t).
Proof.
  intros HP Hne Hall w. unfold fetch_and_save, bind.
  destruct (fetch_loop_frame env (fetch_fuel (max_tries kw)) TIC t sz
              (max_tries kw) 1 w) as (Hfs & _).
  destruct (fetch_loop env (fetch_fuel (max_tries kw)) TIC t sz
              (max_tries kw) 1 w) as [[tpfs| |e|] w1] eqn:Hf;
    simpl in Hfs; try (intros p; left; simpl; by rewrite Hfs).
  pose proof (fetch_loop_answer _ _ _ _ _ _ _ _ _ _ Hf) as [n Hn].
  pose proof (save_all_saves_only env TIC dir (overwrite kw) (max_counter kw)
                tpfs w1 _ eq_refl) as Hs.
  intros p. destruct (Hs p) as [Hp|(tpf0 & Hin & -> & Hp)].
  - left. by rewrite Hp, Hfs.
  - right; right. by exists TIC, n, t, sz, tpfs, tpf0.
Qed.

Lemma single_only_saves_downloads env dir TIC kw :
  outputdir kw = PyPath dir →
  run_rel (only_saves_downloads env (λ tic, TIC = PyStr tic) dir)
          (download_tesscuts_single env TIC kw).
Proof.
  intros Hout.
  apply (saving_rel_single _ env dir (λ tic, TIC = PyStr tic)).
  - intros m _. by apply only_saves_downloads_keep.
  - apply only_saves_downloads_ensure.
  - intros q. by apply only_saves_downloads_keep.
  - intros. by apply fetch_and_save_only_saves_downloads.
  - done.
  - intros p Hp. rewrite Hout in Hp. by injection Hp.
Qed.



(** X9.  Two targets never share a file.  In one output directory, a path
    other than the directory itself that a run for one target has changed
    is left as it is by a run for any other target, whatever the archive
    answers and whatever is on disk. *)
Theorem two_targets_never_share_a_file env env' dir kw kw' tic tic' w w' p :
  outputdir kw = PyPath dir → outputdir kw' = PyPath dir →
  tic ≠ tic' → p ≠ dir →
  fs (download_tesscuts_single env (PyStr tic) kw w).2 !! p ≠ fs w !! p →
  fs (download_tesscuts_single env' (PyStr tic') kw' w').2 !! p = fs w' !! p.
Proof.
  intros Hout Hout' Htic Hp Hchanged.
  destruct (single_only_saves_downloads env dir (PyStr tic) kw Hout w p)
    as [Hsame|[(-> & _)|Hsaved]]; [done|done|].
  destruct Hsaved as (t1 & _ & _ & _ & _ & tpf1 & [= <-] & _ & Hd1 & _ & _ & Hp1 & _).
  destruct (single_only_saves_downloads env' dir (PyStr tic') kw' Hout' w' p)
    as [Hsame|[(-> & _)|Hsaved]]; [done|done|].
  destruct Hsaved as (t2 & _ & _ & _ & _ & tpf2 & [= <-] & _ & Hd2 & _ & _ & Hp2 & _).
  exfalso. apply Htic. rewrite Hp1 in Hp2.
  unfold saved_as in Hp2.
  apply all_digits_no_underscore in Hd1, Hd2.
  exact (output_name_target_bytes dir tic tic' _ _ Hd1 Hd2 Hp2).
Qed.

Lemma two_targets_never_share_a_file_witness :
  let w1 := (download_tesscuts_single env_nominal (PyStr "130415266")
               kw_tpfs w_empty).2 in
  fs (download_tesscuts_single env_two_sectors (PyStr "324123409")
        kw_tpfs w1).2 !! "tpfs/tess130415266_sec14.fits"
  = fs w1 !! "tpfs/tess130415266_sec14.fits".
Proof.
  apply (two_targets_never_share_a_file env_nominal env_two_sectors "tpfs"
           kw_tpfs kw_tpfs "130415266" "324123409" w_empty).
  - reflexivity.
  - reflexivity.
  - discriminate.
  - discriminate.
  - vm_compute. discriminate.
Defined.

(** ** The output directory *)

(** X10.  The output directory, lines 52-57.  With well-typed arguments:
    when the path of the output directory is taken by something that is
    not a directory, [download_tesscuts_single] raises the [ValueError] of
    line 55; when nothing is there and [mkdir] fails, as it does when the
    parent directory is missing, it raises what [mkdir] raised.  Both
    leave the world untouched, no query made, and no directory is there
    afterwards.  In the cases that are left (the directory is there, or
    nothing is there and [mkdir] makes it) the output directory is a
    directory when the function ends, however it ends, also when nothing
    was found or saved. *)
Theorem outputdir_checked_then_made env tic dir kw w :
  outputdir kw = PyPath dir → isinstance_int (imsize kw) = true →
  (∀ node, fs w !! dir = Some node → node ≠ Dir →
     download_tesscuts_single env (PyStr tic) kw w
     = (Raised outputdir_not_dir, w)) ∧
  (∀ e, fs w !! dir = None → mkdir_fault env (fs w) dir = Some e →
     download_tesscuts_single env (PyStr tic) kw w = (Raised e, w)) ∧
  ((fs w !! dir = Some Dir ∨
    (fs w !! dir = None ∧ mkdir_fault env (fs w) dir = None)) →
   fs (download_tesscuts_single env (PyStr tic) kw w).2 !! dir = Some Dir).
Proof.
  intros Hout Hint.
  assert (Hraise : ∀ e, ensure_outputdir env dir w = (Raised e, w) →
            download_tesscuts_single env (PyStr tic) kw w = (Raised e, w)).
  { intros e He. unfold download_tesscuts_single. rewrite Hout, Hint.
    cbn [negb]. unfold bind at 1. by rewrite He. }
  split; [|split].
  - intros node Hnode Hnd. apply Hraise.
    unfold ensure_outputdir, bind, path_exists, path_is_dir.
    rewrite bool_decide_eq_true_2 by (rewrite Hnode; eauto). cbv beta.
    rewrite Hnode. by destruct node.
  - intros e Hnone Hmk. apply Hraise.
    unfold ensure_outputdir, bind, path_exists, mkdir.
    rewrite bool_decide_eq_false_2 by (rewrite Hnone; by intros [? ?]).
    cbv beta. by rewrite Hmk.
  - intros Huse. apply download_tesscuts_single_leaves_dir; [done|done|].
    destruct Huse as [H|H]; [by right | by left].
Qed.

(** The name of the output directory is taken by a file; the parent of the
    output directory is missing; nothing is found, on a disk that is
    empty. *)
Lemma outputdir_checked_then_made_witness :
  download_tesscuts_single env_nominal (PyStr "130415266") kw_tpfs
    w_tpfs_is_a_file
  = (Raised outputdir_not_dir, w_tpfs_is_a_file) ∧
  download_tesscuts_single env_no_parent (PyStr "130415266") kw_nested
    w_empty
  = (Raised NoParent, w_empty) ∧
  fs (download_tesscuts_single env_no_images (PyStr "130415266") kw_tpfs
        w_empty).2 !! "tpfs" = Some Dir.
Proof.
  split; [|split].
  - apply (outputdir_checked_then_made env_nominal "130415266" "tpfs" kw_tpfs
             w_tpfs_is_a_file eq_refl eq_refl) with (node := OtherFile);
      [reflexivity | discriminate].
  - apply (outputdir_checked_then_made env_no_parent "130415266" "runs/tpfs"
             kw_nested w_empty eq_refl eq_refl); reflexivity.
  - apply (outputdir_checked_then_made env_no_images "130415266" "tpfs"
             kw_tpfs w_empty eq_refl eq_refl).
    right. split; reflexivity.
Defined.

(** ** What a fetch needs *)

(** X11.  A fetch needs a validated table.  If a run of
    [download_tesscuts_single] asks the archive for payloads at all, then
    a search for [TIC {TIC}] has answered with a table that is not empty,
    whose rows carry one identity, that identity matching [TIC (\d+)] with
    the target itself as its digits, and whose observation descriptors all
    match [TESS Sector (\d+)].  An empty answer, several identities, an
    identity of another target, or a search that never answers, leaves the
    archive unasked. *)
Theorem fetch_needs_a_validated_table env tic kw w :
  n_download (download_tesscuts_single env (PyStr tic) kw w).2
  ≠ n_download w →
  ∃ n t id sectors,
    search_tesscut env n ("TIC " +:+ tic) = inr t ∧ t ≠ [] ∧
    np_unique (targetid <$> t) = [id] ∧
    re_match_digits env "TIC " id = Some tic ∧
    mapM (re_match_digits env "TESS Sector ") (observation <$> t) = Some sectors.
Proof.
  intros Hfetch.
  pose proof (download_tesscuts_single_cases env (PyStr tic) kw w) as Hcases.
  cbv zeta in Hcases.
  destruct Hcases as [(e & He & _)|(tic' & dir & Htic & _ & _ & _ & Hq)].
  { rewrite He in Hfetch. done. }
  injection Htic as <-.
  destruct (ensure_outputdir_frame env dir w) as (_ & _ & Hd0 & _).
  pose proof (query_loop_frame env (query_fuel (max_tries_MASTquery kw))
                tic (max_tries_MASTquery kw) 1 (ensure_outputdir env dir w).2)
    as Hfr.
  destruct Hq as [(w1 & Hq & Hr)|(t & w1 & n & Hq & Hn & Hr)];
    rewrite Hq in Hfr; simpl in Hfr; destruct Hfr as (_ & Hd1 & _);
    rewrite Hr in Hfetch.
  { exfalso. apply Hfetch. simpl. congruence. }
  destruct (after_query_cases env tic dir (int_value (imsize kw)) kw t w1)
    as [(_ & _ & _ & _ & Hd2 & _)|
        (id & sectors & t' & wd & Ht & Hids & Hid & Hsec & _)].
  - exfalso. apply Hfetch. congruence.
  - by exists n, t, id, sectors.
Qed.

Lemma fetch_needs_a_validated_table_witness :
  ∃ n t id sectors,
    search_tesscut env_nominal n ("TIC " +:+ "130415266") = inr t ∧ t ≠ [] ∧
    np_unique (targetid <$> t) = [id] ∧
    re_match_digits env_nominal "TIC " id = Some "130415266" ∧
    mapM (re_match_digits env_nominal "TESS Sector ") (observation <$> t) = Some sectors.
Proof.
  apply (fetch_needs_a_validated_table env_nominal "130415266" kw_tpfs w_empty).
  vm_compute. discriminate.
Defined.

(** ** What is printed *)

Global Instance prints_only_preorder Q : PreOrder (prints_only Q).
Proof.
  split.
  - intros w. exists []. split; [by rewrite app_nil_r | constructor].
  - intros w1 w2 w3 (a1 & H1 & Hq1) (a2 & H2 & Hq2). exists (a1 ++ a2).
    split; [by rewrite H2, H1, app_assoc | by apply Forall_app].
Qed.

Lemma prints_only_keep Q {A} (m : M A) :
  (∀ w, stdout (m w).2 = stdout w) → run_rel (prints_only Q) m.
Proof.
  intros Hm w. exists []. split; [by rewrite Hm, app_nil_r | constructor].
Qed.

Lemma prints_only_print (Q : Msg → Prop) m :
  Q m → run_rel (prints_only Q) (print m).
Proof. intros Hm w. exists [m]. split; [done | by constructor]. Qed.

Lemma prints_only_single (Q : Msg → Prop) env TIC kw :
  (∀ m, pipeline_msg m → Q m) →
  run_rel (prints_only Q) (download_tesscuts_single env TIC kw).
Proof.
  intros HQ.
  set (dir := match outputdir kw with PyPath p => p | _ => EmptyString end).
  apply (run_rel_download_tesscuts_single (prints_only Q) env dir).
  - intros m Hm. by apply prints_only_print, HQ.
  - intros s. by apply prints_only_keep.
  - apply prints_only_keep. intros w0. unfold mkdir.
    by destruct (mkdir_fault _ _ _).
  - intros q. by apply prints_only_keep.
  - intros t sz. by apply prints_only_keep.
  - intros tpf name ow. apply prints_only_keep. intros w0. unfold try_to_fits.
    by destruct (to_fits_fault _ _ _ _ _).
  - intros p Hp. subst dir. by rewrite Hp.
Qed.

Lemma prints_only_jobs (Q : Msg → Prop) env l kw :
  (∀ m, m ≠ MsgCleanCache → Q m) →
  run_rel (prints_only Q) (Parallel_1 (delayed_jobs env l kw)).
Proof.
  intros HQ. apply run_rel_Parallel_1; [apply _|].
  apply Forall_forall. intros job Hjob.
  unfold delayed_jobs in Hjob. apply list_elem_of_lookup in Hjob as [i Hi].
  rewrite list_lookup_imap in Hi.
  destruct (l !! i) as [TIC|]; [|done]. injection Hi as <-.
  apply run_rel_bind; [apply _ | by apply prints_only_print, HQ|]. intros _.
  apply run_rel_call, prints_only_single.
  intros m Hm. apply HQ. by intros ->.
Qed.

(** X12.  What is printed, and the closing reminder of line 216.
    [download_tesscuts_single] only adds lines at the end of the output,
    none of them one of the two lines of the driver.  A batch that ends
    normally has the reminder to clean the cache as its last line; a batch
    that an exception leaves has only added lines at the end, none of them
    the reminder. *)
Theorem reminder_closes_a_finished_batch env kw w :
  (∀ TIC, prints_only pipeline_msg w (download_tesscuts_single env TIC kw w).2) ∧
  (∀ TICs w',
     download_tesscuts env TICs kw w = (Next (), w') →
     last (stdout w') = Some MsgCleanCache) ∧
  (∀ TICs,
     (download_tesscuts env TICs kw w).1 ≠ Next () →
     prints_only (λ m, m ≠ MsgCleanCache) w
       (download_tesscuts env TICs kw w).2).
Proof.
  split; [|split].
  - intros TIC. by apply prints_only_single.
  - intros TICs w'. unfold download_tesscuts.
    destruct (isinstance_int TICs); [done|].
    unfold bind at 1.
    match goal with
    | |- context [match ?body w with _ => _ end] =>
        destruct (body w) as [[[]| |e|] w1]
    end; try done.
    intros [= <-]. simpl. apply last_snoc.
  - intros TICs. unfold download_tesscuts.
    destruct (isinstance_int TICs); [intros _; simpl; reflexivity|].
    unfold bind.
    assert (Hbody : run_rel (prints_only (λ m, m ≠ MsgCleanCache))
              (if isinstance_str TICs
               then call (download_tesscuts_single env TICs kw)
               else match py_iter TICs with
                    | Some l => Parallel_1 (delayed_jobs env l kw)
                    | None => raise TICs_not_iterable
                    end)).
    { destruct (isinstance_str TICs).
      - apply run_rel_call, prints_only_single. by intros m Hm ->.
      - destruct (py_iter TICs) as [l|]; [by apply prints_only_jobs|].
        apply run_rel_raise, _. }
    specialize (Hbody w). revert Hbody.
    match goal with
    | |- context [match ?body w with _ => _ end] =>
        destruct (body w) as [[[]| |e|] w1]
    end; simpl; done.
Qed.
